(** * BookMyResort booking backend: pricing and validation of [create_booking]

    A shallow embedding of [main.py] and [schemas.py].  Python [float] is
    IEEE-754 binary64, modelled by the Standard Library's executable
    specification of floating-point arithmetic ([SpecFloat], round to nearest
    even); Python [int] is [Z]; [str] is [string]. *)

From Stdlib Require Import ZArith List String Ascii Bool Lia.
From Stdlib Require Import Floats.SpecFloat.
Import ListNotations.
Local Open Scope Z_scope.

(** ** binary64 arithmetic *)

Module Float64.

Definition prec : Z := 53.
Definition emax : Z := 1024.

Definition float : Type := spec_float.

Definition add : float -> float -> float := SFadd prec emax.
Definition mul : float -> float -> float := SFmul prec emax.
Definition eqb : float -> float -> bool := SFeqb.
(** Python's [a >= b]. *)
Definition geb (a b : float) : bool := SFleb b a.

Definition zero : float := S754_zero false.

(** The binary64 value nearest to an integer (ties to even); an infinity
    when the integer is out of range. *)
Definition round_int (z : Z) : float := binary_normalize prec emax z 0 false.

(** Conversion of a Python [int] operand in mixed [int]/[float] arithmetic:
    [None] stands for [OverflowError: int too large to convert to float]. *)
Definition of_int (z : Z) : option float :=
  match round_int z with
  | S754_infinity _ => None
  | f => Some f
  end.

(** A value that a parsed number can take: canonical mantissa and exponent. *)
Definition valid (f : float) : bool := valid_binary prec emax f.

(** The values [x] with [x >= 0]: a zero of either sign, a positive finite
    number or the positive infinity. *)
Definition nonneg (f : float) : bool :=
  match f with
  | S754_zero _ | S754_infinity false | S754_finite false _ _ => true
  | _ => false
  end.

(** [f] is a number (not a NaN) of sign [s]. *)
Definition has_sign (s : bool) (f : float) : Prop :=
  match f with
  | S754_zero s' | S754_infinity s' | S754_finite s' _ _ => s' = s
  | S754_nan => False
  end.

(** The second half of [binary_round_aux]: the rounded mantissa [m1] at
    exponent [e1] is renormalised and classified. *)
Definition finish (s : bool) (m1 e1 : Z) : float :=
  let '(mrs, e) := shr_fexp prec emax m1 e1 loc_Exact in
  match shr_m mrs with
  | Z0 => S754_zero s
  | Zpos m => if e <=? emax - prec then S754_finite s m e else S754_infinity s
  | Zneg _ => S754_nan
  end.

(** The possible results of rounding a positive value whose mantissa, cut
    at the exponent [e1] of its binade, has integral part [q]. *)
Inductive rounded (s : bool) (q e1 : Z) : float -> Prop :=
| rounded_zero : q = 0 -> e1 = -1074 -> rounded s q e1 (S754_zero s)
| rounded_inf : 971 <= e1 -> rounded s q e1 (S754_infinity s)
| rounded_same (m' : positive) :
    bounded prec emax m' e1 = true -> q <= Zpos m' ->
    rounded s q e1 (S754_finite s m' e1)
| rounded_up (m' : positive) :
    bounded prec emax m' (e1 + 1) = true ->
    rounded s q e1 (S754_finite s m' (e1 + 1)).

End Float64.

Definition float : Type := Float64.float.

(** ** Calendar arithmetic of [datetime]

    [fromisoformat] returns a [datetime]; the handler only subtracts two of
    them and reads [.days] of the difference. *)

Module Datetime.

Record datetime := {
  year : Z; month : Z; day : Z;
  hour : Z; minute : Z; second : Z; microsecond : Z;
  (** [None] for a naive value, otherwise the UTC offset in microseconds *)
  tzinfo : option Z
}.

Definition _is_leap (y : Z) : bool :=
  (y mod 4 =? 0) && (negb (y mod 100 =? 0) || (y mod 400 =? 0)).

Definition _days_before_year (y : Z) : Z :=
  let y := y - 1 in y * 365 + y / 4 - y / 100 + y / 400.

Definition _DAYS_IN_MONTH : list Z :=
  [-1; 31; 28; 31; 30; 31; 30; 31; 31; 30; 31; 30; 31].

Definition _DAYS_BEFORE_MONTH : list Z :=
  [-1; 0; 31; 59; 90; 120; 151; 181; 212; 243; 273; 304; 334].

Definition _days_in_month (y m : Z) : Z :=
  if (m =? 2) && _is_leap y then 29
  else nth (Z.to_nat m) _DAYS_IN_MONTH 0.

Definition _days_before_month (y m : Z) : Z :=
  nth (Z.to_nat m) _DAYS_BEFORE_MONTH 0
  + (if (2 <? m) && _is_leap y then 1 else 0).

Definition _ymd2ord (y m d : Z) : Z :=
  _days_before_year y + _days_before_month y m + d.

Definition toordinal (d : datetime) : Z :=
  _ymd2ord (year d) (month d) (day d).

(** A [timedelta], as its total number of microseconds. *)
Definition timedelta : Type := Z.

Definition mk_timedelta (days seconds microseconds : Z) : timedelta :=
  (days * 86400 + seconds) * 1000000 + microseconds.

(** [.days] of a normalised [timedelta]: floor division by one day. *)
Definition days (t : timedelta) : Z := t / 86400000000.

(** [datetime.__sub__]: [None] stands for the [TypeError] raised when a
    naive and an aware value are mixed. *)
Definition sub (self other : datetime) : option timedelta :=
  let secs1 := second self + minute self * 60 + hour self * 3600 in
  let secs2 := second other + minute other * 60 + hour other * 3600 in
  let base := mk_timedelta (toordinal self - toordinal other)
                           (secs1 - secs2)
                           (microsecond self - microsecond other) in
  match tzinfo self, tzinfo other with
  | None, None => Some base
  | Some myoff, Some otoff => Some (base + otoff - myoff)
  | _, _ => None
  end.

(** *** Date-only ISO strings, [YYYY-MM-DD] *)

Definition digit_value (c : ascii) : option Z :=
  let n := Z.of_nat (nat_of_ascii c) in
  if (48 <=? n) && (n <=? 57) then Some (n - 48) else None.

Fixpoint parse_digits (acc : Z) (s : list ascii) : option Z :=
  match s with
  | [] => Some acc
  | c :: s' =>
      match digit_value c with
      | Some d => parse_digits (acc * 10 + d) s'
      | None => None
      end
  end.

Definition MINYEAR : Z := 1.
Definition MAXYEAR : Z := 9999.

Definition _check_date_fields (y m d : Z) : bool :=
  (MINYEAR <=? y) && (y <=? MAXYEAR) && (1 <=? m) && (m <=? 12)
  && (1 <=? d) && (d <=? _days_in_month y m).

(** [datetime.fromisoformat] on the ten-character form [YYYY-MM-DD]
    (midnight, naive); [None] is [ValueError].  Every other string is
    rejected by this parser. *)
Definition fromisoformat_date (s : string) : option datetime :=
  match list_ascii_of_string s with
  | [y1; y2; y3; y4; sep1; m1; m2; sep2; d1; d2] =>
      if Ascii.eqb sep1 "-" && Ascii.eqb sep2 "-" then
        match parse_digits 0 [y1; y2; y3; y4],
              parse_digits 0 [m1; m2], parse_digits 0 [d1; d2] with
        | Some y, Some m, Some d =>
            if _check_date_fields y m d
            then Some {| year := y; month := m; day := d; hour := 0;
                         minute := 0; second := 0; microsecond := 0;
                         tzinfo := None |}
            else None
        | _, _, _ => None
        end
      else None
  | _ => None
  end.

End Datetime.

(** ** schemas.py *)

Module OrderedItem.
Record t := mk { name : string; price : float; quantity : Z }.

(** [price: float = Field(..., ge=0)], [quantity: int = Field(..., ge=1)] *)
Definition validate (i : t) : bool :=
  Float64.geb (price i) Float64.zero && (1 <=? quantity i).
End OrderedItem.

Module Booking.
Record t := mk {
  booking_id : string;
  guest_name : string;
  email : string;
  location : string;
  check_in_date : string;
  check_out_date : string;
  check_in_time : string;
  check_out_time : string;
  nights : Z;
  price_per_night : float;
  accommodation_total : float;
  restaurant_addons : list OrderedItem.t;
  restaurant_total : float;
  total_amount : float
}.

(** The [Field] constraints checked when a [Booking] is constructed:
    [nights >= 1], and [price_per_night], [accommodation_total] and
    [total_amount] [>= 0].  The address passed on by the handler has already
    been accepted as an [EmailStr] of the request. *)
Definition validate (b : t) : bool :=
  (1 <=? nights b)
  && Float64.geb (price_per_night b) Float64.zero
  && Float64.geb (accommodation_total b) Float64.zero
  && Float64.geb (total_amount b) Float64.zero.
End Booking.

Module BookingCreate.
Record t := mk {
  guest_name : string;
  email : string;
  location : string;
  check_in_date : string;
  check_out_date : string;
  check_in_time : string;
  check_out_time : string;
  restaurant_addons : list OrderedItem.t
}.

(** What the interface has checked before the handler runs: every add-on
    satisfies the [OrderedItem] constraints. *)
Definition validate (p : t) : bool :=
  forallb OrderedItem.validate (restaurant_addons p).
End BookingCreate.

(** ** main.py: the static catalog *)

Module Location.
Record t := mk {
  name : string;
  image : string;
  price_per_night : float;
  available : bool;
  facilities : list string
}.
End Location.

(** A float literal with an integral value. *)
Definition lit (z : Z) : float := Float64.round_int z.

Definition LOCATIONS : list Location.t := [
  Location.mk "Chennai" "https://images.unsplash.com/photo-1501117716987-c8e1ecb2101f?q=80&w=1400&auto=format&fit=crop" (lit 149) true ["pool"; "spa"; "gym"];
  Location.mk "Salem" "https://images.unsplash.com/photo-1500375592092-40eb2168fd21?q=80&w=1400&auto=format&fit=crop" (lit 119) true ["pool"; "gym"];
  Location.mk "Kerala" "https://images.unsplash.com/photo-1604177091072-df5bb03e9b7b?q=80&w=1400&auto=format&fit=crop" (lit 199) true ["pool"; "spa"; "yoga"];
  Location.mk "Madurai" "https://images.unsplash.com/photo-1547586696-ea22b4e52f95?q=80&w=1400&auto=format&fit=crop" (lit 129) false ["gym"];
  Location.mk "Coimbatore" "https://images.unsplash.com/photo-1502920514313-52581002a659?q=80&w=1400&auto=format&fit=crop" (lit 139) true ["pool"; "spa"];
  Location.mk "Bangalore" "https://images.unsplash.com/photo-1496412705862-e0088f16f791?q=80&w=1400&auto=format&fit=crop" (lit 179) true ["pool"; "gym"; "spa"]
]%string.

Record BookingResponse := { booking_id : string }.

(** ** Booking identifiers: [str(uuid.uuid4())[:8].upper()] *)

Module Uuid.

(** [uuid.uuid4()]: sixteen random bytes read as a big-endian integer, with
    the variant and the version bits forced. *)
Definition uuid4 (random_bytes : Z) : Z :=
  let i := Z.land random_bytes (Z.ones 128) in
  let i := Z.land i (Z.lnot (Z.shiftl 0xc000 48)) in
  let i := Z.lor i (Z.shiftl 0x8000 48) in
  let i := Z.land i (Z.lnot (Z.shiftl 0xf000 64)) in
  Z.lor i (Z.shiftl 4 76).

Definition hexdigit (n : Z) : ascii :=
  if n <? 10 then ascii_of_nat (Z.to_nat (48 + n))
  else ascii_of_nat (Z.to_nat (87 + n)).

(** The [n] low nibbles of [i], most significant first: ['%0nx' % i] for
    [0 <= i < 16^n]. *)
Fixpoint hex (n : nat) (i : Z) : string :=
  match n with
  | O => EmptyString
  | S k => String (hexdigit (Z.land (Z.shiftr i (4 * Z.of_nat k)) 15)) (hex k i)
  end.

(** [UUID.__str__] *)
Definition str (i : Z) : string :=
  let h := hex 32 i in
  (substring 0 8 h ++ "-" ++ substring 8 4 h ++ "-" ++ substring 12 4 h
   ++ "-" ++ substring 16 4 h ++ "-" ++ substring 20 12 h)%string.

End Uuid.

(** [str.upper] on ASCII text *)
Definition upper_char (c : ascii) : ascii :=
  let n := nat_of_ascii c in
  if (97 <=? n)%nat && (n <=? 122)%nat then ascii_of_nat (n - 32) else c.

Fixpoint upper (s : string) : string :=
  match s with
  | EmptyString => EmptyString
  | String c s' => String (upper_char c) (upper s')
  end.

(** ** Exceptions, effects and the handler monad *)

Inductive exn :=
| HTTPException (status_code : Z) (detail : string)
| ValueError
| TypeError
| OverflowError
| ValidationError
| Exception (msg : string)        (** any other subclass of [Exception] *)
| BaseException (msg : string).   (** raised outside the [Exception] class *)

(** What [except Exception] catches. *)
Definition is_Exception (e : exn) : bool :=
  match e with BaseException _ => false | _ => true end.

Inductive result (A : Type) :=
| Ok (a : A)
| Raise (e : exn).
Arguments Ok {A} a.
Arguments Raise {A} e.

(** Calls that leave the handler. *)
Inductive event :=
| CreateDocument (collection_name : string) (data : Booking.t)
| Print (prefix : string) (e : exn).

(** The module state: the global [LOCATIONS] and the calls made so far. *)
Record state := { locations : list Location.t; trace : list event }.

(** What a run takes from outside: the [datetime] parser ([None] is
    [ValueError]), the sixteen bytes that [uuid4] reads, and the persistence
    collaborator [create_document] of [database.py] ([None]: it returns,
    [Some e]: it raises [e]). *)
Record world := {
  fromisoformat : string -> option Datetime.datetime;
  os_urandom : Z;
  create_document : string -> Booking.t -> option exn
}.

Definition M (A : Type) : Type := state -> result A * state.

Definition ret {A} (a : A) : M A := fun s => (Ok a, s).

Definition bind {A B} (m : M A) (k : A -> M B) : M B :=
  fun s => match m s with
           | (Ok a, s') => k a s'
           | (Raise e, s') => (Raise e, s')
           end.

Definition raise {A} (e : exn) : M A := fun s => (Raise e, s).

Notation "x <- m ;; k" := (bind m (fun x => k))
  (at level 61, m at next level, right associativity).

Definition read_LOCATIONS : M (list Location.t) :=
  fun s => (Ok (locations s), s).

Definition emit (ev : event) : M unit :=
  fun s => (Ok tt, {| locations := locations s; trace := trace s ++ [ev] |}).

(** A library call that returns or raises [e]. *)
Definition or_raise {A} (e : exn) (o : option A) : M A :=
  match o with Some a => ret a | None => raise e end.

(** [try: body  except Exception as e: handler e] *)
Definition try_except {A} (body : M A) (handler : exn -> M A) : M A :=
  fun s => match body s with
           | (Raise e, s') =>
               if is_Exception e then handler e s' else (Raise e, s')
           | r => r
           end.

Definition call_create_document (w : world) (collection_name : string)
    (data : Booking.t) : M unit :=
  _ <- emit (CreateDocument collection_name data) ;;
  match create_document w collection_name data with
  | None => ret tt
  | Some e => raise e
  end.

(** ** main.py: [create_booking] *)

(** [item.price * item.quantity]: the [int] operand is converted first. *)
Definition line_total (item : OrderedItem.t) : option float :=
  option_map (Float64.mul (OrderedItem.price item))
             (Float64.of_int (OrderedItem.quantity item)).

(** The generator [item.price * item.quantity for item in ...], run to its
    end; [None] when a conversion overflows. *)
Fixpoint line_totals (items : list OrderedItem.t) : option (list float) :=
  match items with
  | [] => Some []
  | item :: rest =>
      match line_total item with
      | None => None
      | Some x => option_map (cons x) (line_totals rest)
      end
  end.

(** The builtin [sum]: additions from the left, starting from [0], which
    the first addition converts to [0.0].  (From CPython 3.12 on a float sum
    also carries a compensation term for the rounding errors; the additions
    modelled here are those of the plain loop.) *)
Definition sum (xs : list float) : float :=
  fold_left Float64.add xs Float64.zero.

Definition same_name (wanted : string) (l : Location.t) : bool :=
  String.eqb (Location.name l) wanted.

Definition new_booking_id (w : world) : string :=
  upper (substring 0 8 (Uuid.str (Uuid.uuid4 (os_urandom w)))).

Definition create_booking (w : world) (payload : BookingCreate.t)
  : M BookingResponse :=
  LOCATIONS <- read_LOCATIONS ;;
  match find (same_name (BookingCreate.location payload)) LOCATIONS with
  | None => raise (HTTPException 400 "Invalid location")
  | Some location =>
      d1 <- or_raise ValueError
              (fromisoformat w (BookingCreate.check_in_date payload)) ;;
      d2 <- or_raise ValueError
              (fromisoformat w (BookingCreate.check_out_date payload)) ;;
      delta <- or_raise TypeError (Datetime.sub d2 d1) ;;
      let nights := Datetime.days delta in
      if nights <? 1 then
        raise (HTTPException 400 "Checkout must be after checkin")
      else
        products <- or_raise OverflowError
                      (line_totals (BookingCreate.restaurant_addons payload)) ;;
        let restaurant_total := sum products in
        n <- or_raise OverflowError (Float64.of_int nights) ;;
        let accommodation_total :=
          Float64.mul n (Location.price_per_night location) in
        let total := Float64.add accommodation_total restaurant_total in
        let booking_id := new_booking_id w in
        let booking_doc := {|
          Booking.booking_id := booking_id;
          Booking.guest_name := BookingCreate.guest_name payload;
          Booking.email := BookingCreate.email payload;
          Booking.location := BookingCreate.location payload;
          Booking.check_in_date := BookingCreate.check_in_date payload;
          Booking.check_out_date := BookingCreate.check_out_date payload;
          Booking.check_in_time := BookingCreate.check_in_time payload;
          Booking.check_out_time := BookingCreate.check_out_time payload;
          Booking.nights := nights;
          Booking.price_per_night := Location.price_per_night location;
          Booking.accommodation_total := accommodation_total;
          Booking.restaurant_addons := BookingCreate.restaurant_addons payload;
          Booking.restaurant_total := restaurant_total;
          Booking.total_amount := total |} in
        _ <- (if Booking.validate booking_doc then ret tt
              else raise ValidationError) ;;
        _ <- try_except (call_create_document w "booking" booking_doc)
                        (fun e => emit (Print "DB Error:" e)) ;;
        ret {| booking_id := booking_id |}
  end.

(** The state of a freshly loaded module. *)
Definition initial : state := {| locations := LOCATIONS; trace := [] |}.

(** ** Vocabulary of the properties *)

Definition InvalidLocation : exn := HTTPException 400 "Invalid location".
Definition InvalidDateRange : exn :=
  HTTPException 400 "Checkout must be after checkin".

(** One request handled against a catalog, with nothing logged before. *)
Definition run (w : world) (catalog : list Location.t)
    (payload : BookingCreate.t) : result BookingResponse * state :=
  create_booking w payload {| locations := catalog; trace := [] |}.

Definition outcome (w : world) (catalog : list Location.t)
    (payload : BookingCreate.t) : result BookingResponse :=
  fst (run w catalog payload).

Definition calls (w : world) (catalog : list Location.t)
    (payload : BookingCreate.t) : list event :=
  trace (snd (run w catalog payload)).

(** The records handed to [create_document]: the persistence attempts. *)
Definition documents (evs : list event) : list Booking.t :=
  flat_map (fun ev => match ev with
                      | CreateDocument _ data => [data]
                      | Print _ _ => []
                      end) evs.

(** The integer day difference of the two parsed dates, when there is one. *)
Definition stay (w : world) (payload : BookingCreate.t) : option Z :=
  match fromisoformat w (BookingCreate.check_in_date payload),
        fromisoformat w (BookingCreate.check_out_date payload) with
  | Some d1, Some d2 => option_map Datetime.days (Datetime.sub d2 d1)
  | _, _ => None
  end.

(** The record that a run builds from its intermediate values. *)
Definition booking_of (w : world) (payload : BookingCreate.t)
    (location : Location.t) (nights : Z) (n : float) (products : list float)
  : Booking.t :=
  let accommodation_total :=
    Float64.mul n (Location.price_per_night location) in
  {| Booking.booking_id := new_booking_id w;
     Booking.guest_name := BookingCreate.guest_name payload;
     Booking.email := BookingCreate.email payload;
     Booking.location := BookingCreate.location payload;
     Booking.check_in_date := BookingCreate.check_in_date payload;
     Booking.check_out_date := BookingCreate.check_out_date payload;
     Booking.check_in_time := BookingCreate.check_in_time payload;
     Booking.check_out_time := BookingCreate.check_out_time payload;
     Booking.nights := nights;
     Booking.price_per_night := Location.price_per_night location;
     Booking.accommodation_total := accommodation_total;
     Booking.restaurant_addons := BookingCreate.restaurant_addons payload;
     Booking.restaurant_total := sum products;
     Booking.total_amount := Float64.add accommodation_total (sum products) |}.

(** A record with its identifier blanked, to compare the other fields. *)
Definition without_id (b : Booking.t) : Booking.t :=
  {| Booking.booking_id := EmptyString;
     Booking.guest_name := Booking.guest_name b;
     Booking.email := Booking.email b;
     Booking.location := Booking.location b;
     Booking.check_in_date := Booking.check_in_date b;
     Booking.check_out_date := Booking.check_out_date b;
     Booking.check_in_time := Booking.check_in_time b;
     Booking.check_out_time := Booking.check_out_time b;
     Booking.nights := Booking.nights b;
     Booking.price_per_night := Booking.price_per_night b;
     Booking.accommodation_total := Booking.accommodation_total b;
     Booking.restaurant_addons := Booking.restaurant_addons b;
     Booking.restaurant_total := Booking.restaurant_total b;
     Booking.total_amount := Booking.total_amount b |}.

(** The catalog with every availability flag replaced. *)
Definition with_available (f : Location.t -> bool) (l : Location.t)
  : Location.t :=
  {| Location.name := Location.name l;
     Location.image := Location.image l;
     Location.price_per_night := Location.price_per_night l;
     Location.available := f l;
     Location.facilities := Location.facilities l |}.

(** Uppercase letters and digits. *)
Definition is_upper_alnum (c : ascii) : bool :=
  let n := nat_of_ascii c in
  ((48 <=? n) && (n <=? 57) || (65 <=? n) && (n <=? 90))%nat.

Fixpoint string_forall (f : ascii -> bool) (s : string) : bool :=
  match s with
  | EmptyString => true
  | String c s' => f c && string_forall f s'
  end.

(** The parser reads every [YYYY-MM-DD] date the way the date-only parser
    does. *)
Definition reads_dates (w : world) : Prop :=
  forall s d, Datetime.fromisoformat_date s = Some d ->
              fromisoformat w s = Some d.

(** The write raises nothing outside the [Exception] class. *)
Definition raises_only_Exception (w : world) : Prop :=
  forall collection_name data e,
    create_document w collection_name data = Some e -> is_Exception e = true.

(** Every add-on quantity is small enough to convert to [float]. *)
Definition convertible (payload : BookingCreate.t) : Prop :=
  Forall (fun item => OrderedItem.quantity item < 2 ^ 1023)
         (BookingCreate.restaurant_addons payload).

(** The state after some more calls. *)
Definition logged (s : state) (evs : list event) : state :=
  {| locations := locations s; trace := trace s ++ evs |}.

(** [create_booking] step by step, as the result and the calls it makes:
    the reading of the handler that the proofs below work with (see
    [create_booking_steps]). *)
Definition steps (w : world) (catalog : list Location.t)
    (payload : BookingCreate.t) : result BookingResponse * list event :=
  match find (same_name (BookingCreate.location payload)) catalog with
  | None => (Raise InvalidLocation, [])
  | Some location =>
  match fromisoformat w (BookingCreate.check_in_date payload) with
  | None => (Raise ValueError, [])
  | Some d1 =>
  match fromisoformat w (BookingCreate.check_out_date payload) with
  | None => (Raise ValueError, [])
  | Some d2 =>
  match Datetime.sub d2 d1 with
  | None => (Raise TypeError, [])
  | Some delta =>
  if Datetime.days delta <? 1 then (Raise InvalidDateRange, []) else
  match line_totals (BookingCreate.restaurant_addons payload) with
  | None => (Raise OverflowError, [])
  | Some products =>
  match Float64.of_int (Datetime.days delta) with
  | None => (Raise OverflowError, [])
  | Some n =>
  let b := booking_of w payload location (Datetime.days delta) n products in
  if Booking.validate b then
    match create_document w "booking" b with
    | None =>
        (Ok {| booking_id := new_booking_id w |},
         [CreateDocument "booking" b])
    | Some e =>
        if is_Exception e
        then (Ok {| booking_id := new_booking_id w |},
              [CreateDocument "booking" b; Print "DB Error:" e])
        else (Raise e, [CreateDocument "booking" b])
    end
  else (Raise ValidationError, [])
  end end end end end end.

(** The run reaches the persistence step with the record [b]. *)
Inductive priced (w : world) (catalog : list Location.t)
    (payload : BookingCreate.t) (b : Booking.t) : Prop :=
| priced_intro (location : Location.t) (d1 d2 : Datetime.datetime)
    (delta : Datetime.timedelta) (products : list float) (n : float) :
    find (same_name (BookingCreate.location payload)) catalog = Some location ->
    fromisoformat w (BookingCreate.check_in_date payload) = Some d1 ->
    fromisoformat w (BookingCreate.check_out_date payload) = Some d2 ->
    Datetime.sub d2 d1 = Some delta ->
    1 <= Datetime.days delta ->
    line_totals (BookingCreate.restaurant_addons payload) = Some products ->
    Float64.of_int (Datetime.days delta) = Some n ->
    b = booking_of w payload location (Datetime.days delta) n products ->
    Booking.validate b = true ->
    priced w catalog payload b.

(** ** Sample worlds and requests *)

(** A world with the date-only parser. *)
Definition date_world (random_bytes : Z)
    (db : string -> Booking.t -> option exn) : world :=
  {| fromisoformat := Datetime.fromisoformat_date;
     os_urandom := random_bytes;
     create_document := db |}.

Definition db_up : string -> Booking.t -> option exn := fun _ _ => None.

Definition db_down : string -> Booking.t -> option exn :=
  fun _ _ => Some (Exception "Database not available").

Definition sample_world : world :=
  date_world 0x1234abcd5678ef90123456789abcdef0 db_up.

Definition offline_world : world :=
  date_world 0x1234abcd5678ef90123456789abcdef0 db_down.

Definition coffee : OrderedItem.t :=
  OrderedItem.mk "Coffee" (lit 5) 2.

Definition request (location check_in check_out : string)
    (addons : list OrderedItem.t) : BookingCreate.t :=
  BookingCreate.mk "Asha" "asha@example.com" location check_in check_out
                   "14:00" "11:00" addons.

(** An add-on priced at [2^-60]. *)
Definition crumb : OrderedItem.t :=
  OrderedItem.mk "Crumb" (S754_finite false 4503599627370496 (-112)) 1.

Definition chennai_request : BookingCreate.t :=
  request "Chennai" "2024-01-01" "2024-01-04" [coffee].

(** The record written for [chennai_request] in [sample_world]. *)
Definition sample_booking : Booking.t :=
  Booking.mk "1234ABCD" "Asha" "asha@example.com" "Chennai"
             "2024-01-01" "2024-01-04" "14:00" "11:00" 3 (lit 149)
             (lit 447) [coffee] (lit 10) (lit 457).

Definition madurai_request : BookingCreate.t :=
  request "Madurai" "2024-01-01" "2024-01-04" [coffee].

Definition atlantis_request : BookingCreate.t :=
  request "Atlantis" "2024-01-01" "2024-01-04" [coffee].

Definition lowercase_request : BookingCreate.t :=
  request "chennai" "2024-01-01" "2024-01-04" [coffee].

Definition same_day_request : BookingCreate.t :=
  request "Chennai" "2024-01-05" "2024-01-05" [].

Definition inverted_request : BookingCreate.t :=
  request "Chennai" "2024-01-04" "2024-01-01" [].

(** A same-day stay at a place the catalog does not have. *)
Definition same_day_atlantis : BookingCreate.t :=
  request "Atlantis" "2024-01-05" "2024-01-05" [].

(** A check-in date that is no ISO date. *)
Definition malformed_request : BookingCreate.t :=
  request "Chennai" "tomorrow" "2024-01-04" [coffee].

(** The same stay asked by another guest, on other days, without add-ons. *)
Definition other_request : BookingCreate.t :=
  BookingCreate.mk "Ravi" "ravi@example.com" "Chennai" "2024-03-10"
                   "2024-03-13" "09:00" "18:00" [].

Definition other_booking : Booking.t :=
  Booking.mk "1234ABCD" "Ravi" "ravi@example.com" "Chennai"
             "2024-03-10" "2024-03-13" "09:00" "18:00" 3 (lit 149)
             (lit 447) [] Float64.zero (lit 447).

Definition crumb_request : BookingCreate.t :=
  request "Chennai" "2024-01-01" "2024-01-04" [crumb].

(** ** main.py: the other endpoints *)

(** What a handler returns as JSON. *)
Inductive value :=
| VStr (s : string)
| VFloat (f : float)
| VBool (b : bool)
| VStrList (l : list string).

(** A [dict]: keys in insertion order. *)
Definition dict : Type := list (string * value).

Fixpoint dict_get (d : dict) (key : string) : option value :=
  match d with
  | [] => None
  | (k, v) :: d' => if String.eqb k key then Some v else dict_get d' key
  end.

(** [Location.model_dump()]: the fields in the order of the class. *)
Definition model_dump (l : Location.t) : dict :=
  [("name", VStr (Location.name l));
   ("image", VStr (Location.image l));
   ("price_per_night", VFloat (Location.price_per_night l));
   ("available", VBool (Location.available l));
   ("facilities", VStrList (Location.facilities l))]%string.

Definition get_locations : M (list dict) :=
  LOCATIONS <- read_LOCATIONS ;;
  ret (map model_dump LOCATIONS).

(** *** [test_database] *)

(** Text with characters outside ASCII: a list of code points. *)
Definition text : Type := list N.

Definition ascii_text (s : string) : text :=
  map N_of_ascii (list_ascii_of_string s).

Definition CHECK_MARK : text := [0x2705%N].
Definition CROSS_MARK : text := [0x274c%N].
Definition WARNING_SIGN : text := [0x26a0%N; 0xfe0f%N].

(** What [db.list_collection_names()] does: it returns names, or raises [e],
    whose text [str(e)] is [str_e]. *)
Inductive listing :=
| Collections (names : list text)
| ListingRaises (e : exn) (str_e : text).

(** What the probe reads from outside: the environment variables and the
    [db] of [database.py] ([None] when it is not initialised). *)
Record probe := {
  getenv : string -> option text;
  db : option listing
}.

Record diagnosis := {
  backend : text;
  database : text;
  database_url : text;
  database_name : text;
  connection_status : text;
  collections : list text
}.

(** Truth of a [str] or [None] in a condition. *)
Definition truthy (o : option text) : bool :=
  match o with
  | None | Some [] => false
  | Some _ => true
  end.

Definition set_or_not (o : option text) : text :=
  if truthy o then CHECK_MARK ++ ascii_text " Set"
  else CROSS_MARK ++ ascii_text " Not Set".

(** A step of [test_database]: it is done, or an exception [e] is on its
    way up, with [str(e)]. *)
Inductive attempt (A : Type) :=
| Done (a : A)
| Failed (e : exn) (str_e : text).
Arguments Done {A} a.
Arguments Failed {A} e str_e.

(** [try: body  except Exception as e: handler (str(e))] *)
Definition except_Exception {A} (body : attempt A)
    (handler : text -> attempt A) : attempt A :=
  match body with
  | Failed e str_e => if is_Exception e then handler str_e else body
  | Done _ => body
  end.

Definition list_collection_names (l : listing) : attempt (list text) :=
  match l with
  | Collections names => Done names
  | ListingRaises e str_e => Failed e str_e
  end.

Definition set_database (r : diagnosis) (v : text) : diagnosis :=
  {| backend := backend r; database := v; database_url := database_url r;
     database_name := database_name r;
     connection_status := connection_status r;
     collections := collections r |}.

Definition set_connection_status (r : diagnosis) (v : text) : diagnosis :=
  {| backend := backend r; database := database r;
     database_url := database_url r; database_name := database_name r;
     connection_status := v; collections := collections r |}.

Definition set_collections (r : diagnosis) (v : list text) : diagnosis :=
  {| backend := backend r; database := database r;
     database_url := database_url r; database_name := database_name r;
     connection_status := connection_status r; collections := v |}.

Definition test_database (pr : probe) : attempt diagnosis :=
  let response := {|
    backend := CHECK_MARK ++ ascii_text " Running";
    database := CROSS_MARK ++ ascii_text " Not Available";
    database_url := set_or_not (getenv pr "DATABASE_URL");
    database_name := set_or_not (getenv pr "DATABASE_NAME");
    connection_status := ascii_text "Not Connected";
    collections := [] |} in
  except_Exception
    match db pr with
    | Some l =>
        let response :=
          set_database response (CHECK_MARK ++ ascii_text " Available") in
        let response :=
          set_connection_status response (ascii_text "Connected") in
        except_Exception
          match list_collection_names l with
          | Done names =>
              let response := set_collections response (firstn 10 names) in
              Done (set_database response
                      (CHECK_MARK ++ ascii_text " Connected & Working"))
          | Failed e str_e => Failed e str_e
          end
          (fun str_e =>
             Done (set_database response
                     (WARNING_SIGN ++ ascii_text " Connected but Error: "
                      ++ firstn 80 str_e)))
    | None =>
        Done (set_database response
                (WARNING_SIGN ++ ascii_text " Available but not initialized"))
    end
    (fun str_e =>
       Done (set_database response
               (CROSS_MARK ++ ascii_text " Error: " ++ firstn 80 str_e))).

(** ** More vocabulary *)

(** The request with its two dates exchanged. *)
Definition swap_dates (p : BookingCreate.t) : BookingCreate.t :=
  {| BookingCreate.guest_name := BookingCreate.guest_name p;
     BookingCreate.email := BookingCreate.email p;
     BookingCreate.location := BookingCreate.location p;
     BookingCreate.check_in_date := BookingCreate.check_out_date p;
     BookingCreate.check_out_date := BookingCreate.check_in_date p;
     BookingCreate.check_in_time := BookingCreate.check_in_time p;
     BookingCreate.check_out_time := BookingCreate.check_out_time p;
     BookingCreate.restaurant_addons := BookingCreate.restaurant_addons p |}.

(** The request with more add-ons at the end of its list. *)
Definition add_addons (p : BookingCreate.t) (more : list OrderedItem.t)
  : BookingCreate.t :=
  {| BookingCreate.guest_name := BookingCreate.guest_name p;
     BookingCreate.email := BookingCreate.email p;
     BookingCreate.location := BookingCreate.location p;
     BookingCreate.check_in_date := BookingCreate.check_in_date p;
     BookingCreate.check_out_date := BookingCreate.check_out_date p;
     BookingCreate.check_in_time := BookingCreate.check_in_time p;
     BookingCreate.check_out_time := BookingCreate.check_out_time p;
     BookingCreate.restaurant_addons :=
       BookingCreate.restaurant_addons p ++ more |}.

(** The digits [0-9] and the letters [A-F]. *)
Definition is_upper_hex (c : ascii) : bool :=
  let n := nat_of_ascii c in
  ((48 <=? n) && (n <=? 57) || (65 <=? n) && (n <=? 70))%nat.

(** The first four of the sixteen random bytes, as a number. *)
Definition first_four_bytes (random_bytes : Z) : Z :=
  Z.shiftr (Z.land random_bytes (Z.ones 128)) 96.

(** The number that an identifier is the hexadecimal writing of. *)
Definition hex_value (c : ascii) : Z :=
  let n := Z.of_nat (nat_of_ascii c) in
  if n <=? 57 then n - 48 else n - 55.

Fixpoint unhex (acc : Z) (s : string) : Z :=
  match s with
  | EmptyString => acc
  | String c s' => unhex (acc * 16 + hex_value c) s'
  end.

(** The calendar date of [a] is earlier than that of [b]. *)
Definition date_before (a b : Datetime.datetime) : bool :=
  (Datetime.year a <? Datetime.year b)
  || (Datetime.year a =? Datetime.year b)
     && ((Datetime.month a <? Datetime.month b)
         || (Datetime.month a =? Datetime.month b)
            && (Datetime.day a <? Datetime.day b)).

(** The extra day of a leap year. *)
Definition leap_day (y : Z) : Z := if Datetime._is_leap y then 1 else 0.

(** The two month tables read with the leap flag of the year. *)
Definition days_in_month_of (leap : bool) (m : Z) : Z :=
  if (m =? 2) && leap then 29
  else nth (Z.to_nat m) Datetime._DAYS_IN_MONTH 0.

Definition days_before_month_of (leap : bool) (m : Z) : Z :=
  nth (Z.to_nat m) Datetime._DAYS_BEFORE_MONTH 0
  + (if (2 <? m) && leap then 1 else 0).

Definition months : list Z := [1; 2; 3; 4; 5; 6; 7; 8; 9; 10; 11; 12].

(** Each month starts after the months before it, and the last one ends
    with the year. *)
Definition month_tables_fit (leap : bool) : bool :=
  forallb (fun m =>
    (0 <=? days_before_month_of leap m)
    && (days_before_month_of leap m + days_in_month_of leap m
        <=? 365 + (if leap then 1 else 0))
    && forallb (fun m' =>
         negb (m <? m')
         || (days_before_month_of leap m + days_in_month_of leap m
             <=? days_before_month_of leap m')) months) months.

(** ** Rounding to nearest, ties to even *)

(** The integer nearest to [m / 2^k], the even one of the two when [m] is
    half way. *)
Definition rne (m k : Z) : Z :=
  let q := m / 2 ^ k in
  let r := m mod 2 ^ k in
  if 2 * r <? 2 ^ k then q
  else if 2 ^ k <? 2 * r then q + 1
  else if Z.even q then q else q + 1.

(** Where the integral part [q] of a positive value lies when it is cut at
    the exponent [e1] of its binade: a full mantissa, or a shorter one at
    the least exponent. *)
Definition in_binade (q e1 : Z) : Prop :=
  (2 ^ 52 <= q < 2 ^ 53 /\ -1074 <= e1) \/ (0 <= q < 2 ^ 52 /\ e1 = -1074).

(** [m * 2^e <= m' * 2^e'], compared at the smaller exponent. *)
Definition value_le (m : positive) (e : Z) (m' : positive) (e' : Z) : Prop :=
  Zpos m * 2 ^ (e - Z.min e e') <= Zpos m' * 2 ^ (e' - Z.min e e').

(** ** More samples *)

Definition sample_probe : probe :=
  {| getenv := fun key =>
       if String.eqb key "DATABASE_URL"
       then Some (ascii_text "mongodb://localhost") else Some [];
     db := Some (Collections (map ascii_text
             ["a"; "b"; "c"; "d"; "e"; "f"; "g"; "h"; "i"; "j"; "k"; "l"]%string)) |}.

Definition failing_probe : probe :=
  {| getenv := fun _ => None;
     db := Some (ListingRaises (Exception "timeout")
                   (ascii_text "timeout")) |}.

(** Five nights in Chennai, without add-ons, and the record written for
    them in [sample_world]. *)
Definition long_request : BookingCreate.t :=
  request "Chennai" "2024-01-01" "2024-01-06" [].

Definition long_booking : Booking.t :=
  Booking.mk "1234ABCD" "Asha" "asha@example.com" "Chennai"
             "2024-01-01" "2024-01-06" "14:00" "11:00" 5 (lit 149)
             (lit 745) [] Float64.zero (lit 745).

(** One night in Chennai. *)
Definition short_request : BookingCreate.t :=
  request "Chennai" "2024-01-01" "2024-01-02" [].

Definition short_booking : Booking.t :=
  Booking.mk "1234ABCD" "Asha" "asha@example.com" "Chennai"
             "2024-01-01" "2024-01-02" "14:00" "11:00" 1 (lit 149)
             (lit 149) [] Float64.zero (lit 149).

(** [other_booking] with two coffees added. *)
Definition other_booking_coffee : Booking.t :=
  Booking.mk "1234ABCD" "Ravi" "ravi@example.com" "Chennai"
             "2024-03-10" "2024-03-13" "09:00" "18:00" 3 (lit 149)
             (lit 447) [coffee] (lit 10) (lit 457).

(** A parser that also reads three strings with a time of day, as
    [datetime.fromisoformat] does. *)
Definition clock_parser (s : string) : option Datetime.datetime :=
  if String.eqb s "2024-01-01T23:00:00" then
    Some {| Datetime.year := 2024; Datetime.month := 1; Datetime.day := 1;
            Datetime.hour := 23; Datetime.minute := 0; Datetime.second := 0;
            Datetime.microsecond := 0; Datetime.tzinfo := None |}
  else if String.eqb s "2024-01-02T01:00:00" then
    Some {| Datetime.year := 2024; Datetime.month := 1; Datetime.day := 2;
            Datetime.hour := 1; Datetime.minute := 0; Datetime.second := 0;
            Datetime.microsecond := 0; Datetime.tzinfo := None |}
  else if String.eqb s "2024-01-04T00:00:00+00:00" then
    Some {| Datetime.year := 2024; Datetime.month := 1; Datetime.day := 4;
            Datetime.hour := 0; Datetime.minute := 0; Datetime.second := 0;
            Datetime.microsecond := 0; Datetime.tzinfo := Some 0 |}
  else Datetime.fromisoformat_date s.

Definition clock_world : world :=
  {| fromisoformat := clock_parser;
     os_urandom := 0x1234abcd5678ef90123456789abcdef0;
     create_document := db_up |}.

(** From eleven in the evening to one in the morning of the next day. *)
Definition evening_request : BookingCreate.t :=
  request "Chennai" "2024-01-01T23:00:00" "2024-01-02T01:00:00" [].

(** A check-in without an offset and a check-out with one. *)
Definition mixed_request : BookingCreate.t :=
  request "Chennai" "2024-01-01" "2024-01-04T00:00:00+00:00" [].

(** Coffee, [2^1024] times. *)
Definition huge_request : BookingCreate.t :=
  request "Chennai" "2024-01-01" "2024-01-04"
          [OrderedItem.mk "Coffee" (lit 5) (2 ^ 1024)].

(** ** Facts about binary64 rounding

    [SpecFloat] gives the operations; the facts needed about them are derived
    here from their definitions: what a right shift computes, how many bits
    a mantissa has, and what [binary_round_aux] can return. *)

Module Float64Facts.
Import Float64.

Lemma iter_pos_nat {A : Type} (f : A -> A) (p : positive) (x : A) :
  iter_pos f p x = Nat.iter (Pos.to_nat p) f x.
Proof.
  revert x; induction p as [p IH | p IH | ]; intro x.
  - rewrite Pos2Nat.inj_xI. cbn [iter_pos]. rewrite !IH.
    replace (S (2 * Pos.to_nat p)) with (Pos.to_nat p + (Pos.to_nat p + 1))%nat by lia.
    rewrite !Nat.iter_add. reflexivity.
  - rewrite Pos2Nat.inj_xO. cbn [iter_pos]. rewrite !IH.
    replace (2 * Pos.to_nat p)%nat with (Pos.to_nat p + Pos.to_nat p)%nat by lia.
    rewrite Nat.iter_add. reflexivity.
  - reflexivity.
Qed.

Lemma shr_1_m (mrs : shr_record) :
  0 <= shr_m mrs -> shr_m (shr_1 mrs) = shr_m mrs / 2.
Proof.
  destruct mrs as [m r s]; simpl; intro Hm.
  destruct m as [ | [p | p | ] | p ]; simpl; try lia.
  - reflexivity.
  - rewrite <- Z.div2_div. reflexivity.
  - rewrite <- Z.div2_div. reflexivity.
  - reflexivity.
Qed.

Lemma shr_m_iter (k : nat) (mrs : shr_record) :
  0 <= shr_m mrs ->
  shr_m (Nat.iter k shr_1 mrs) = shr_m mrs / 2 ^ Z.of_nat k.
Proof.
  intro Hm. induction k as [ | k IH].
  - simpl. now rewrite Z.div_1_r.
  - rewrite Nat2Z.inj_succ, Z.pow_succ_r by lia.
    simpl Nat.iter. rewrite shr_1_m.
    + rewrite IH, Z.div_div by lia. f_equal. lia.
    + rewrite IH. apply Z.div_pos; lia.
Qed.

Lemma shr_m_shr (m : Z) (e : Z) (p : positive) :
  0 <= m ->
  shr_m (fst (shr (shr_record_of_loc m loc_Exact) e (Zpos p))) = m / 2 ^ Zpos p.
Proof.
  intro Hm. unfold shr; simpl fst. rewrite iter_pos_nat, shr_m_iter by exact Hm.
  simpl shr_m. now rewrite positive_nat_Z.
Qed.

Lemma digits2_pos_spec (m : positive) :
  2 ^ (Zpos (digits2_pos m) - 1) <= Zpos m < 2 ^ Zpos (digits2_pos m).
Proof.
  induction m as [m IH | m IH | ]; simpl digits2_pos.
  - rewrite Pos2Z.inj_succ.
    replace (Z.succ (Zpos (digits2_pos m)) - 1) with (Z.succ (Zpos (digits2_pos m) - 1)) by lia.
    rewrite !Z.pow_succ_r by lia. lia.
  - rewrite Pos2Z.inj_succ.
    replace (Z.succ (Zpos (digits2_pos m)) - 1) with (Z.succ (Zpos (digits2_pos m) - 1)) by lia.
    rewrite !Z.pow_succ_r by lia. lia.
  - simpl. lia.
Qed.

Lemma pow2_pos (k : Z) : 0 <= k -> 0 < 2 ^ k.
Proof. intro; apply Z.pow_pos_nonneg; lia. Qed.

Lemma pow2_le (a b : Z) : 0 <= a <= b -> 2 ^ a <= 2 ^ b.
Proof. intro; apply Z.pow_le_mono_r; lia. Qed.

Lemma digits2_pos_unique (m : positive) (k : Z) :
  2 ^ (k - 1) <= Zpos m < 2 ^ k -> Zpos (digits2_pos m) = k.
Proof.
  intros [Hlo Hhi]. pose proof (digits2_pos_spec m) as [Dlo Dhi].
  set (d := Zpos (digits2_pos m)) in *.
  assert (0 < k).
  { destruct (Z_lt_le_dec 0 k) as [ | Hk]; [ assumption | exfalso ].
    destruct (Z.eq_dec k 0) as [-> | ]; [ simpl in Hhi; lia | ].
    rewrite Z.pow_neg_r in Hhi by lia. lia. }
  destruct (Z.lt_trichotomy d k) as [Hlt | [Heq | Hgt]]; [ exfalso | exact Heq | exfalso ].
  - assert (2 ^ d <= 2 ^ (k - 1)) by (apply pow2_le; subst d; lia). lia.
  - assert (2 ^ k <= 2 ^ (d - 1)) by (apply pow2_le; lia). lia.
Qed.

Local Notation "'fexp64'" := (fexp 53 1024).
Local Notation "'bounded64'" := (bounded 53 1024).

Lemma fexp64_eq (k : Z) : fexp64 k = Z.max (k - 53) (-1074).
Proof. reflexivity. Qed.

Lemma digits2_pos_le (m : positive) (k : Z) :
  Zpos m < 2 ^ k -> Zpos (digits2_pos m) <= k.
Proof.
  intro Hm. pose proof (digits2_pos_spec m) as [Dlo _].
  destruct (Z_le_gt_dec (Zpos (digits2_pos m)) k) as [ | Hgt]; [ assumption | exfalso ].
  assert (0 <= k).
  { destruct (Z_le_gt_dec 0 k); [ assumption | ].
    rewrite Z.pow_neg_r in Hm by lia. lia. }
  assert (2 ^ k <= 2 ^ (Zpos (digits2_pos m) - 1)) by (apply pow2_le; lia). lia.
Qed.



Lemma binary_round_aux_finish (s : bool) (mx ex : Z) (lx : location) :
  binary_round_aux 53 1024 s mx ex lx =
  let '(mrs, e) := shr_fexp 53 1024 mx ex lx in
  finish s (round_nearest_even (shr_m mrs) (loc_of_shr_record mrs)) e.
Proof.
  unfold binary_round_aux, finish, emax, prec.
  destruct (shr_fexp 53 1024 mx ex lx) as [mrs e]. reflexivity.
Qed.

Lemma round_nearest_even_cases (m : Z) (l : location) :
  round_nearest_even m l = m \/ round_nearest_even m l = m + 1.
Proof.
  destruct l as [ | [ | | ]]; simpl; auto.
  destruct (Z.even m); auto.
Qed.

Lemma finish_rounded (s : bool) (q m1 e1 : Z) :
  q <= m1 <= q + 1 ->
  (2 ^ 52 <= q < 2 ^ 53 /\ -1074 <= e1) \/ (0 <= q < 2 ^ 52 /\ e1 = -1074) ->
  rounded s q e1 (finish s m1 e1).
Proof.
  intros Hm1 Hq. unfold finish, emax, prec, shr_fexp.
  destruct m1 as [ | p | p ]; [ | | lia ].
  - (* the mantissa is zero: only below the normal range *)
    destruct Hq as [[Hq _] | [Hq ->]]; [ lia | ].
    simpl. apply rounded_zero; lia.
  - simpl Zdigits2. rewrite fexp64_eq.
    destruct Hq as [[Hq He1] | [Hq ->]].
    + destruct (Z.eq_dec (Zpos p) (2 ^ 53)) as [Heq | Hne].
      * (* the carry of rounding up reaches the next binade *)
        assert (Hp : p = (2 ^ 53)%positive) by (apply Pos2Z.inj; exact Heq).
        subst p. change (Zpos (digits2_pos (2 ^ 53))) with 54.
        replace (Z.max (54 + e1 - 53) (-1074) - e1) with 1 by lia.
        cbn -[Z.leb Z.add Z.sub]. change (1024 - 53) with 971.
        destruct (Z.leb_spec (e1 + 1) 971).
        -- apply rounded_up. unfold bounded, canonical_mantissa, emax, prec.
           change (Zpos (digits2_pos 4503599627370496)) with 53.
           rewrite fexp64_eq. apply andb_true_iff; split; [ apply Z.eqb_eq | apply Z.leb_le ]; lia.
        -- apply rounded_inf; lia.
      * assert (Hd : Zpos (digits2_pos p) = 53) by (apply digits2_pos_unique; lia).
        rewrite Hd. replace (Z.max (53 + e1 - 53) (-1074) - e1) with 0 by lia.
        cbn -[Z.leb Z.sub]. change (1024 - 53) with 971.
        destruct (Z.leb_spec e1 971).
        -- apply rounded_same; [ | lia ]. unfold bounded, canonical_mantissa, emax, prec.
           rewrite Hd, fexp64_eq. apply andb_true_iff; split; [ apply Z.eqb_eq | apply Z.leb_le ]; lia.
        -- apply rounded_inf; lia.
    + assert (Hd : Zpos (digits2_pos p) <= 53) by (apply digits2_pos_le; lia).
      replace (Z.max (Zpos (digits2_pos p) + -1074 - 53) (-1074) - -1074) with 0 by lia.
      cbn. apply rounded_same; [ | lia ]. unfold bounded, canonical_mantissa, emax, prec.
      rewrite fexp64_eq. apply andb_true_iff; split; [ apply Z.eqb_eq | apply Z.leb_le ]; lia.
Qed.

Lemma binary_round_aux_rounded (s : bool) (m : positive) (e : Z) :
  let e1 := fexp64 (Zpos (digits2_pos m) + e) in
  e <= e1 ->
  rounded s (Zpos m / 2 ^ (e1 - e)) e1
          (binary_round_aux 53 1024 s (Zpos m) e loc_Exact).
Proof.
  intros e1 He. rewrite binary_round_aux_finish. unfold shr_fexp.
  simpl Zdigits2. fold e1.
  pose proof (digits2_pos_spec m) as [Dlo Dhi].
  assert (He1 : e1 = Z.max (Zpos (digits2_pos m) + e - 53) (-1074))
    by (unfold e1; apply fexp64_eq).
  clearbody e1. set (d := Zpos (digits2_pos m)) in *.
  destruct (e1 - e) as [ | n | n ] eqn:Hn; [ | | lia ].
  - (* the mantissa already sits at the right exponent *)
    simpl. rewrite Z.div_1_r. assert (e = e1) by lia. subst e.
    clear Hn He. apply finish_rounded; [ lia | ].
    destruct (Z_le_gt_dec (-1074) (d + e1 - 53)).
    + left. assert (d = 53) by lia. replace d with 53 in *. simpl in *. lia.
    + right. assert (d <= 52) by lia.
      assert (2 ^ d <= 2 ^ 52) by (apply pow2_le; unfold d; lia). lia.
  - cbn [shr]. set (mrs := iter_pos shr_1 n _).
    assert (Hq : shr_m mrs = Zpos m / 2 ^ Zpos n).
    { pose proof (shr_m_shr (Zpos m) e n ltac:(lia)) as H. exact H. }
    replace (e + Zpos n) with e1 by lia.
    rewrite Hq. set (q := Zpos m / 2 ^ Zpos n) in *.
    assert (H2n : 0 < 2 ^ Zpos n) by (apply pow2_pos; lia).
    apply finish_rounded.
    + destruct (round_nearest_even_cases q (loc_of_shr_record mrs)) as [-> | ->]; lia.
    + destruct (Z_le_gt_dec (-1074) (d + e - 53)).
      * left. assert (Hd : d = 53 + Zpos n) by lia.
        split; [ | lia ]. split.
        -- apply Z.div_le_lower_bound; [ lia | ].
           replace (d - 1) with (Zpos n + 52) in Dlo by lia.
           rewrite Z.pow_add_r in Dlo by lia. lia.
        -- apply Z.div_lt_upper_bound; [ lia | ].
           rewrite Hd, Z.pow_add_r in Dhi by lia. lia.
      * right. split; [ | lia ]. split.
        -- apply Z.div_pos; lia.
        -- apply Z.div_lt_upper_bound; [ lia | ].
           assert (2 ^ d <= 2 ^ (Zpos n + 52)) by (apply pow2_le; unfold d; lia).
           rewrite Z.pow_add_r in * by lia. lia.
Qed.

Lemma iter_xO (m d : positive) : Zpos (Pos.iter xO m d) = Zpos m * 2 ^ Zpos d.
Proof.
  induction d as [ | d IH ] using Pos.peano_ind.
  - simpl. lia.
  - rewrite Pos.iter_succ, Pos2Z.inj_xO, IH, Pos2Z.inj_succ, Z.pow_succ_r by lia. lia.
Qed.

Lemma digits2_pos_shift (m : positive) (k : Z) :
  0 <= k ->
  forall m', Zpos m' = Zpos m * 2 ^ k ->
  Zpos (digits2_pos m') = Zpos (digits2_pos m) + k.
Proof.
  intros Hk m' Hm'. pose proof (digits2_pos_spec m) as [Dlo Dhi].
  assert (0 < 2 ^ k) by (apply pow2_pos; lia).
  apply digits2_pos_unique. rewrite Hm'.
  replace (Zpos (digits2_pos m) + k - 1) with ((Zpos (digits2_pos m) - 1) + k) by lia.
  rewrite !Z.pow_add_r by lia. split.
  - apply Z.mul_le_mono_nonneg_r; lia.
  - apply Z.mul_lt_mono_pos_r; lia.
Qed.

(** [binary_round]: the value [m * 2^e], cut at the exponent [e1] of its
    binade, has integral part [q]. *)
Lemma binary_round_rounded (s : bool) (m : positive) (e : Z) :
  let e1 := fexp64 (Zpos (digits2_pos m) + e) in
  forall q,
    (e <= e1 -> q = Zpos m / 2 ^ (e1 - e)) ->
    (e1 <= e -> q = Zpos m * 2 ^ (e - e1)) ->
    rounded s q e1 (binary_round 53 1024 s m e).
Proof.
  intros e1 q Hlo Hhi. unfold binary_round, shl_align. fold e1.
  destruct (e1 - e) as [ | n | n ] eqn:Hn.
  - pose proof (binary_round_aux_rounded s m e) as H. cbv zeta in H. fold e1 in H.
    rewrite Hn in H. rewrite Hlo by lia. apply H. lia.
  - pose proof (binary_round_aux_rounded s m e) as H. cbv zeta in H. fold e1 in H.
    rewrite Hn in H. rewrite Hlo by lia. apply H. lia.
  - pose proof (iter_xO m n) as Hm'.
    pose proof (digits2_pos_shift m (Zpos n) ltac:(lia) _ Hm') as Hd.
    pose proof (binary_round_aux_rounded s (Pos.iter xO m n) e1) as H. cbv zeta in H.
    rewrite Hd in H.
    replace (Zpos (digits2_pos m) + Zpos n + e1) with (Zpos (digits2_pos m) + e) in H by lia.
    fold e1 in H. rewrite Z.sub_diag, Z.div_1_r in H.
    rewrite Hhi by lia. replace (e - e1) with (Zpos n) by lia.
    rewrite <- Hm'. apply H. lia.
Qed.


Lemma geb_zero (f : float) : geb f zero = nonneg f.
Proof. destruct f as [ [ | ] | [ | ] | | [ | ] m e ]; reflexivity. Qed.

Lemma rounded_nonneg (q e1 : Z) (r : float) :
  rounded false q e1 r -> nonneg r = true.
Proof. destruct 1; reflexivity. Qed.

Lemma rounded_valid (s : bool) (q e1 : Z) (r : float) :
  rounded s q e1 r -> valid r = true.
Proof. destruct 1; simpl; auto. Qed.

Lemma binary_round_rounded_ex (s : bool) (m : positive) (e : Z) :
  exists q, rounded s q (fexp64 (Zpos (digits2_pos m) + e))
                    (binary_round 53 1024 s m e).
Proof.
  set (e1 := fexp64 (Zpos (digits2_pos m) + e)).
  destruct (Z_le_gt_dec e e1).
  - exists (Zpos m / 2 ^ (e1 - e)). apply binary_round_rounded; [ reflexivity | ].
    intro. assert (e = e1) by lia. subst e1.
    replace (fexp64 (Zpos (digits2_pos m) + e) - e) with 0 by lia.
    replace (e - fexp64 (Zpos (digits2_pos m) + e)) with 0 by lia.
    simpl. rewrite Z.div_1_r. lia.
  - exists (Zpos m * 2 ^ (e - e1)). apply binary_round_rounded; [ lia | reflexivity ].
Qed.


Lemma rounded_has_sign (s : bool) (q e1 : Z) (r : float) :
  rounded s q e1 r -> has_sign s r.
Proof. destruct 1; reflexivity. Qed.

Lemma binary_round_aux_sign (s : bool) (m : positive) (e : Z) :
  has_sign s (binary_round_aux 53 1024 s (Zpos m) e loc_Exact).
Proof.
  destruct (Z_le_gt_dec e (fexp64 (Zpos (digits2_pos m) + e))) as [Hle | Hgt].
  - eapply rounded_has_sign. apply binary_round_aux_rounded. exact Hle.
  - unfold binary_round_aux, shr_fexp. simpl Zdigits2.
    destruct (fexp64 (Zpos (digits2_pos m) + e) - e) as [ | n | n ] eqn:Hn; [ lia | lia | ].
    cbn [shr shr_record_of_loc shr_m loc_of_shr_record round_nearest_even Zdigits2].
    rewrite Hn. cbn [shr shr_record_of_loc shr_m].
    destruct (e <=? 1024 - 53); reflexivity.
Qed.

Lemma has_sign_nonneg (f : float) : has_sign false f -> nonneg f = true.
Proof. destruct f as [ s | s | | s m e ]; simpl; intro H; subst; tauto. Qed.

Lemma mul_nonneg (x y : float) (my : positive) (ey : Z) :
  nonneg x = true -> y = S754_finite false my ey -> nonneg (mul x y) = true.
Proof.
  intros Hx ->. destruct x as [ s | [ | ] | | [ | ] mx ex ]; try discriminate; try reflexivity.
  apply has_sign_nonneg. apply (binary_round_aux_sign false).
Qed.

Lemma add_nonneg (x y : float) :
  nonneg x = true -> nonneg y = true -> nonneg (add x y) = true.
Proof.
  intros Hx Hy.
  destruct x as [ [ | ] | [ | ] | | [ | ] mx ex ]; try discriminate;
  destruct y as [ [ | ] | [ | ] | | [ | ] my ey ]; try discriminate; try reflexivity.
  unfold add, SFadd. cbn [cond_Zopp]. cbn [Z.add binary_normalize].
  destruct (binary_round_rounded_ex false
              (fst (shl_align mx ex (Z.min ex ey)) + fst (shl_align my ey (Z.min ex ey))) (Z.min ex ey))
    as [q Hq].
  eapply rounded_nonneg. exact Hq.
Qed.

Lemma sum_nonneg (xs : list float) (acc : float) :
  nonneg acc = true -> Forall (fun x => nonneg x = true) xs ->
  nonneg (fold_left add xs acc) = true.
Proof.
  intros Hacc Hxs. revert acc Hacc.
  induction Hxs as [ | x xs Hx _ IH ]; intros acc Hacc; simpl.
  - exact Hacc.
  - apply IH. now apply add_nonneg.
Qed.

(** Integers from [1] on convert to positive numbers. *)
Lemma round_int_pos (z : Z) :
  1 <= z ->
  round_int z = S754_infinity false \/
  exists m e, round_int z = S754_finite false m e /\ bounded64 m e = true.
Proof.
  intro Hz. destruct z as [ | p | p ]; try lia.
  unfold round_int, binary_normalize.
  destruct (binary_round_rounded_ex false p 0) as [q Hq].
  pose proof (digits2_pos_spec p) as _.
  assert (Hd : 0 < Zpos (digits2_pos p)) by lia.
  rewrite fexp64_eq in Hq.
  inversion Hq as [ Hq0 He1 | Hinf | m' Hb Hm' | m' Hb ]; subst.
  - lia.
  - now left.
  - right. eauto.
  - right. eauto.
Qed.

Lemma digits2_pos_gt (m : positive) (a : Z) :
  2 ^ a <= Zpos m -> a < Zpos (digits2_pos m).
Proof.
  intro Ha. pose proof (digits2_pos_spec m) as [_ Dhi].
  destruct (Z_lt_le_dec a (Zpos (digits2_pos m))) as [ | Hge]; [ assumption | exfalso ].
  assert (2 ^ Zpos (digits2_pos m) <= 2 ^ a) by (apply pow2_le; lia). lia.
Qed.

Lemma digits2_pos_mono (a b : positive) :
  (a <= b)%positive -> Zpos (digits2_pos a) <= Zpos (digits2_pos b).
Proof.
  intro Hab. pose proof (digits2_pos_spec a) as [Dlo _].
  assert (Zpos (digits2_pos a) - 1 < Zpos (digits2_pos b)) by (apply digits2_pos_gt; lia).
  lia.
Qed.

Lemma bounded_inv (m : positive) (e : Z) :
  bounded64 m e = true ->
  e = Z.max (Zpos (digits2_pos m) + e - 53) (-1074) /\ e <= 971.
Proof.
  unfold bounded, canonical_mantissa, emax, prec. rewrite fexp64_eq.
  intro H. apply andb_true_iff in H as [H1 H2].
  apply Z.eqb_eq in H1. apply Z.leb_le in H2. change (1024 - 53) with 971 in H2. lia.
Qed.

Lemma mul_valid (x y : float) :
  valid x = true -> valid y = true -> valid (mul x y) = true.
Proof.
  intros Hx Hy.
  destruct x as [ sx | sx | | sx mx ex ]; destruct y as [ sy | sy | | sy my ey ];
    try reflexivity.
  simpl in Hx, Hy. apply bounded_inv in Hx as [Hx _]. apply bounded_inv in Hy as [Hy _].
  unfold mul, SFmul. eapply rounded_valid. apply binary_round_aux_rounded.
  rewrite fexp64_eq.
  pose proof (digits2_pos_spec mx) as [Xlo _]. pose proof (digits2_pos_spec my) as [Ylo _].
  assert (Hd : Zpos (digits2_pos mx) + Zpos (digits2_pos my) - 2 < Zpos (digits2_pos (mx * my))).
  { apply digits2_pos_gt.
    replace (Zpos (digits2_pos mx) + Zpos (digits2_pos my) - 2)
      with ((Zpos (digits2_pos mx) - 1) + (Zpos (digits2_pos my) - 1)) by lia.
    rewrite Z.pow_add_r, Pos2Z.inj_mul by lia.
    assert (0 < 2 ^ (Zpos (digits2_pos mx) - 1)) by (apply pow2_pos; lia).
    assert (0 < 2 ^ (Zpos (digits2_pos my) - 1)) by (apply pow2_pos; lia).
    apply Z.mul_le_mono_nonneg; lia. }
  lia.
Qed.

Lemma shl_align_fst (m : positive) (e e' : Z) :
  e' <= e -> Zpos (fst (shl_align m e e')) = Zpos m * 2 ^ (e - e').
Proof.
  intro He. unfold shl_align.
  destruct (e' - e) as [ | n | n ] eqn:Hn; [ | lia | ].
  - replace (e - e') with 0 by lia. simpl. lia.
  - simpl fst. rewrite iter_xO. f_equal. f_equal. lia.
Qed.

Lemma leb_refl_finite (m : positive) (e : Z) :
  SFleb (S754_finite false m e) (S754_finite false m e) = true.
Proof.
  unfold SFleb, SFcompare. rewrite Z.compare_refl.
  change (Pos.compare_cont Eq m m) with (Pos.compare m m). now rewrite Pos.compare_refl.
Qed.

(** Adding a non-negative number to a positive one never gives less. *)
Lemma add_ge_l (mx : positive) (ex : Z) (y : float) :
  bounded64 mx ex = true -> nonneg y = true ->
  geb (add (S754_finite false mx ex) y) (S754_finite false mx ex) = true.
Proof.
  intros Hx Hy. unfold geb.
  destruct y as [ sy | [ | ] | | [ | ] my ey ]; try discriminate.
  - destruct sy; apply leb_refl_finite.
  - reflexivity.
  - apply bounded_inv in Hx as [Hx _].
    unfold add, prec, emax, SFadd. cbn [cond_Zopp]. set (ez := Z.min ex ey).
    pose proof (shl_align_fst mx ex ez ltac:(lia)) as Hax.
    set (ax := fst (shl_align mx ex ez)) in *.
    set (ay := fst (shl_align my ey ez)) in *.
    change (Zpos ax + Zpos ay) with (Zpos (ax + ay)). cbn [binary_normalize].
    set (M := (ax + ay)%positive).
    assert (Hdig : Zpos (digits2_pos mx) + (ex - ez) <= Zpos (digits2_pos M)).
    { rewrite <- (digits2_pos_shift mx (ex - ez) ltac:(lia) ax Hax).
      apply digits2_pos_mono. unfold M. lia. }
    set (e1 := fexp64 (Zpos (digits2_pos M) + ez)).
    assert (He1 : ex <= e1) by (unfold e1; rewrite fexp64_eq; lia).
    assert (H2 : 0 < 2 ^ (ex - ez)) by (apply pow2_pos; lia).
    assert (Hq : e1 = ex -> Zpos mx <= Zpos M / 2 ^ (e1 - ez)).
    { intros ->. apply Z.div_le_lower_bound; [ lia | ]. unfold M. lia. }
    pose proof (binary_round_rounded false M ez (Zpos M / 2 ^ (e1 - ez))) as H.
    cbv zeta in H. fold e1 in H.
    assert (Hr : rounded false (Zpos M / 2 ^ (e1 - ez)) e1 (binary_round 53 1024 false M ez)).
    { apply H; [ reflexivity | ]. intro.
      replace (e1 - ez) with 0 by lia. replace (ez - e1) with 0 by lia.
      simpl. rewrite Z.div_1_r. lia. }
    clear H. unfold SFleb, SFcompare.
    inversion Hr as [ Hq0 He | Hinf | m' Hb Hm' | m' Hb ]; subst.
    + exfalso. assert (e1 = ex) by lia. specialize (Hq ltac:(assumption)). lia.
    + reflexivity.
    + destruct (Z.compare_spec ex e1) as [Heq | Hlt | Hgt]; [ | reflexivity | lia ].
      specialize (Hq (eq_sym Heq)).
      change (Pos.compare_cont Eq mx m') with (Pos.compare mx m').
      destruct (Pos.compare_spec mx m'); try reflexivity. lia.
    + destruct (Z.compare_spec ex (e1 + 1)) as [Heq | Hlt | Hgt]; [ lia | reflexivity | lia ].
Qed.

Lemma of_int_finite (z : Z) (f : float) :
  1 <= z -> of_int z = Some f ->
  exists m e, f = S754_finite false m e /\ bounded64 m e = true.
Proof.
  intros Hz Hf. unfold of_int in Hf.
  destruct (round_int_pos z Hz) as [Hinf | (m & e & Hr & Hb)].
  - rewrite Hinf in Hf. discriminate.
  - rewrite Hr in Hf. injection Hf as <-. eauto.
Qed.

(** Below [2^1023] the conversion of an integer does not overflow. *)
Lemma of_int_defined (z : Z) :
  1 <= z < 2 ^ 1023 -> exists f, of_int z = Some f.
Proof.
  intros [Hlo Hhi]. destruct z as [ | p | p ]; try lia.
  unfold of_int, round_int, binary_normalize, prec, emax.
  destruct (binary_round_rounded_ex false p 0) as [q Hq].
  pose proof (digits2_pos_le p 1023 Hhi) as Hd.
  rewrite fexp64_eq in Hq.
  remember (binary_round 53 1024 false p 0) as r eqn:Hr. clear Hr.
  destruct Hq as [ Hq0 He1 | Hinf | m' Hb Hm' | m' Hb ]; try lia; eauto.
Qed.

Lemma mul_nonneg_l (x y : float) (mx : positive) (ex : Z) :
  x = S754_finite false mx ex -> nonneg y = true -> nonneg (mul x y) = true.
Proof.
  intros -> Hy. destruct y as [ s | [ | ] | | [ | ] my ey ]; try discriminate; try reflexivity.
  apply has_sign_nonneg. apply (binary_round_aux_sign false).
Qed.

(** [x + y >= x] for a float [x >= 0] and any [y >= 0]. *)
Lemma add_ge (x y : float) :
  valid x = true -> nonneg x = true -> nonneg y = true ->
  geb (add x y) x = true.
Proof.
  intros Vx Hx Hy.
  destruct x as [ sx | [ | ] | | [ | ] mx ex ]; try discriminate.
  - destruct sx; destruct y as [ [ | ] | [ | ] | | [ | ] my ey ];
      try discriminate; reflexivity.
  - destruct y as [ sy | [ | ] | | [ | ] my ey ]; try discriminate; reflexivity.
  - apply add_ge_l; assumption.
Qed.

Lemma eqb_refl (x : float) : x <> S754_nan -> eqb x x = true.
Proof.
  destruct x as [ s | [ | ] | | s m e ]; try reflexivity; try congruence; intros _.
  unfold eqb, SFeqb, SFcompare. rewrite Z.compare_refl.
  change (Pos.compare_cont Eq m m) with (Pos.compare m m).
  rewrite Pos.compare_refl. now destruct s.
Qed.

(** Adding [0.0] changes nothing that [==] can see. *)
Lemma add_zero_r (x : float) : nonneg x = true -> eqb (add x zero) x = true.
Proof.
  destruct x as [ [ | ] | [ | ] | | [ | ] m e ]; try discriminate; try reflexivity.
  intros _. apply (eqb_refl (S754_finite false m e)). discriminate.
Qed.

Lemma eqb_zero (x : float) : eqb x zero = true -> exists s, x = S754_zero s.
Proof.
  destruct x as [ s | [ | ] | | [ | ] m e ]; try discriminate. eauto.
Qed.

Lemma sum_of_zeros (xs : list float) :
  Forall (fun x => exists s, x = S754_zero s) xs ->
  fold_left add xs zero = zero.
Proof.
  induction 1 as [ | x xs [s ->] _ IH ]; simpl.
  - reflexivity.
  - destruct s; exact IH.
Qed.

End Float64Facts.

(** ** The handler, case by case *)

Lemma create_booking_steps (w : world) (p : BookingCreate.t) (s : state) :
  create_booking w p s =
  (fst (steps w (locations s) p), logged s (snd (steps w (locations s) p))).
Proof.
  assert (Hs : logged s [] = s).
  { destruct s as [c t]. unfold logged. simpl. now rewrite app_nil_r. }
  unfold create_booking, steps, bind, read_LOCATIONS, or_raise, raise, ret.
  destruct (find _ (locations s)) as [loc | ]; cbn [fst snd]; [ | now rewrite Hs ].
  destruct (fromisoformat w (BookingCreate.check_in_date p)) as [d1 | ];
    cbn [fst snd]; [ | now rewrite Hs ].
  destruct (fromisoformat w (BookingCreate.check_out_date p)) as [d2 | ];
    cbn [fst snd]; [ | now rewrite Hs ].
  destruct (Datetime.sub d2 d1) as [delta | ]; cbn [fst snd]; [ | now rewrite Hs ].
  destruct (Datetime.days delta <? 1); cbn [fst snd]; [ now rewrite Hs | ].
  destruct (line_totals _) as [products | ]; cbn [fst snd]; [ | now rewrite Hs ].
  destruct (Float64.of_int _) as [n | ]; cbn [fst snd]; [ | now rewrite Hs ].
  fold (booking_of w p loc (Datetime.days delta) n products).
  set (b := booking_of w p loc (Datetime.days delta) n products).
  destruct (Booking.validate b); cbn [fst snd]; [ | now rewrite Hs ].
  unfold try_except, call_create_document, bind, emit, raise, ret.
  destruct (create_document w "booking" b) as [e | ]; cbn [fst snd].
  - destruct (is_Exception e); cbn [fst snd]; unfold logged; cbn [locations trace].
    + now rewrite <- app_assoc.
    + reflexivity.
  - reflexivity.
Qed.

Lemma run_steps (w : world) (c : list Location.t) (p : BookingCreate.t) :
  outcome w c p = fst (steps w c p) /\ calls w c p = snd (steps w c p)
  /\ locations (snd (run w c p)) = c.
Proof.
  unfold outcome, calls, run. rewrite create_booking_steps. simpl. auto.
Qed.

Lemma outcome_steps (w : world) (c : list Location.t) (p : BookingCreate.t) :
  outcome w c p = fst (steps w c p).
Proof. apply run_steps. Qed.

Lemma calls_steps (w : world) (c : list Location.t) (p : BookingCreate.t) :
  calls w c p = snd (steps w c p).
Proof. apply run_steps. Qed.

(** Destructs the successive tests of [steps] in a goal or a hypothesis. *)
Ltac walk_steps :=
  unfold steps in *;
  repeat match goal with
  | H : context [match find ?f ?c with _ => _ end] |- _ =>
      destruct (find f c) eqn:?; cbn [fst snd] in *
  | |- context [match find ?f ?c with _ => _ end] =>
      destruct (find f c) eqn:?; cbn [fst snd] in *
  | H : context [match fromisoformat ?w ?x with _ => _ end] |- _ =>
      destruct (fromisoformat w x) eqn:?; cbn [fst snd] in *
  | |- context [match fromisoformat ?w ?x with _ => _ end] =>
      destruct (fromisoformat w x) eqn:?; cbn [fst snd] in *
  | H : context [match Datetime.sub ?a ?b with _ => _ end] |- _ =>
      destruct (Datetime.sub a b) eqn:?; cbn [fst snd] in *
  | |- context [match Datetime.sub ?a ?b with _ => _ end] =>
      destruct (Datetime.sub a b) eqn:?; cbn [fst snd] in *
  | H : context [if ?n <? 1 then _ else _] |- _ =>
      destruct (Z.ltb_spec n 1); cbn [fst snd] in *
  | |- context [if ?n <? 1 then _ else _] =>
      destruct (Z.ltb_spec n 1); cbn [fst snd] in *
  | H : context [match line_totals ?x with _ => _ end] |- _ =>
      destruct (line_totals x) eqn:?; cbn [fst snd] in *
  | |- context [match line_totals ?x with _ => _ end] =>
      destruct (line_totals x) eqn:?; cbn [fst snd] in *
  | H : context [match Float64.of_int ?x with _ => _ end] |- _ =>
      destruct (Float64.of_int x) eqn:?; cbn [fst snd] in *
  | |- context [match Float64.of_int ?x with _ => _ end] =>
      destruct (Float64.of_int x) eqn:?; cbn [fst snd] in *
  | H : context [if Booking.validate ?b then _ else _] |- _ =>
      destruct (Booking.validate b) eqn:?; cbn [fst snd] in *
  | |- context [if Booking.validate ?b then _ else _] =>
      destruct (Booking.validate b) eqn:?; cbn [fst snd] in *
  | H : context [match create_document ?w ?c ?b with _ => _ end] |- _ =>
      destruct (create_document w c b) eqn:?; cbn [fst snd] in *
  | |- context [match create_document ?w ?c ?b with _ => _ end] =>
      destruct (create_document w c b) eqn:?; cbn [fst snd] in *
  | H : context [if is_Exception ?e then _ else _] |- _ =>
      destruct (is_Exception e) eqn:?; cbn [fst snd] in *
  | |- context [if is_Exception ?e then _ else _] =>
      destruct (is_Exception e) eqn:?; cbn [fst snd] in *
  end.

Lemma documents_priced (w : world) (c : list Location.t)
    (p : BookingCreate.t) (b : Booking.t) :
  In b (documents (calls w c p)) -> priced w c p b.
Proof.
  rewrite calls_steps. intro H. walk_steps; simpl in H; try tauto;
    destruct H as [<- | []]; econstructor; eauto.
Qed.

Lemma priced_documents (w : world) (c : list Location.t)
    (p : BookingCreate.t) (b : Booking.t) :
  priced w c p b -> documents (calls w c p) = [b].
Proof.
  intros [loc d1 d2 delta products n H1 H2 H3 H4 H5 H6 H7 -> H9].
  rewrite calls_steps. unfold steps. rewrite H1, H2, H3, H4, H6, H7.
  destruct (Z.ltb_spec (Datetime.days delta) 1); [ lia | ].
  cbv zeta. rewrite H9.
  destruct (create_document w _ _) as [e | ]; [ destruct (is_Exception e) | ];
    reflexivity.
Qed.

Lemma priced_outcome (w : world) (c : list Location.t)
    (p : BookingCreate.t) (b : Booking.t) :
  raises_only_Exception w -> priced w c p b ->
  outcome w c p = Ok {| booking_id := new_booking_id w |}.
Proof.
  intros Hw [loc d1 d2 delta products n H1 H2 H3 H4 H5 H6 H7 -> H9].
  rewrite outcome_steps. unfold steps. rewrite H1, H2, H3, H4, H6, H7.
  destruct (Z.ltb_spec (Datetime.days delta) 1); [ lia | ].
  cbv zeta. rewrite H9.
  destruct (create_document w _ _) as [e | ] eqn:He; [ | reflexivity ].
  now rewrite (Hw _ _ _ He).
Qed.

Lemma outcome_ok_priced (w : world) (c : list Location.t)
    (p : BookingCreate.t) (r : BookingResponse) :
  outcome w c p = Ok r ->
  r = {| booking_id := new_booking_id w |} /\ exists b, priced w c p b.
Proof.
  rewrite outcome_steps. intro H. walk_steps; try discriminate;
    injection H as <-; (split; [ reflexivity | ]);
    eexists; econstructor; eauto.
Qed.

(** ** Prices of the records that are written *)

Lemma find_same_name (wanted : string) (c : list Location.t)
    (l : Location.t) :
  find (same_name wanted) c = Some l -> In l c /\ Location.name l = wanted.
Proof.
  intro H. apply find_some in H as [Hin Hn]. split; [ exact Hin | ].
  unfold same_name in Hn. now apply String.eqb_eq in Hn.
Qed.

Lemma priced_stay (w : world) (c : list Location.t) (p : BookingCreate.t)
    (b : Booking.t) :
  priced w c p b -> stay w p = Some (Booking.nights b) /\ 1 <= Booking.nights b.
Proof.
  intros [loc d1 d2 delta products n H1 H2 H3 H4 H5 H6 H7 -> H9].
  unfold stay. rewrite H2, H3, H4. simpl. auto.
Qed.

(** C1.  Every record handed to the store has
    [accommodation_total = nights * price_per_night] with the catalog price of
    the requested location, [restaurant_total] the sum of [price * quantity]
    over the add-ons of the request, and [total_amount] the sum of the two;
    and a stay in Chennai from 2024-01-01 to 2024-01-04 with two coffees at 5
    is priced 447.0 + 10.0 = 457.0. *)
Theorem booking_totals :
  (forall w c p b,
      In b (documents (calls w c p)) ->
      exists location n products,
        find (same_name (BookingCreate.location p)) c = Some location
        /\ stay w p = Some (Booking.nights b) /\ 1 <= Booking.nights b
        /\ Booking.price_per_night b = Location.price_per_night location
        /\ Float64.of_int (Booking.nights b) = Some n
        /\ Booking.accommodation_total b
           = Float64.mul n (Booking.price_per_night b)
        /\ line_totals (BookingCreate.restaurant_addons p) = Some products
        /\ Booking.restaurant_total b = sum products
        /\ Booking.total_amount b
           = Float64.add (Booking.accommodation_total b)
                         (Booking.restaurant_total b))
  /\ (forall w p,
         reads_dates w ->
         BookingCreate.location p = "Chennai"%string ->
         BookingCreate.check_in_date p = "2024-01-01"%string ->
         BookingCreate.check_out_date p = "2024-01-04"%string ->
         BookingCreate.restaurant_addons p = [coffee] ->
         exists b,
           documents (calls w LOCATIONS p) = [b]
           /\ Booking.nights b = 3
           /\ Booking.price_per_night b = lit 149
           /\ Booking.accommodation_total b = lit 447
           /\ Booking.restaurant_total b = lit 10
           /\ Booking.total_amount b = lit 457).
Proof.
  split.
  - intros w c p b Hb. apply documents_priced in Hb.
    pose proof (priced_stay _ _ _ _ Hb) as [Hs Hn].
    destruct Hb as [loc d1 d2 delta products n H1 H2 H3 H4 H5 H6 H7 -> H9].
    exists loc, n, products. simpl in *. repeat split; auto.
  - intros w p Hw Hloc Hin Hout Hadd.
    assert (H1 : fromisoformat w "2024-01-01" = Datetime.fromisoformat_date "2024-01-01")
      by (apply Hw; reflexivity).
    assert (H2 : fromisoformat w "2024-01-04" = Datetime.fromisoformat_date "2024-01-04")
      by (apply Hw; reflexivity).
    eexists. split.
    + apply priced_documents. eapply priced_intro.
      * rewrite Hloc. reflexivity.
      * rewrite Hin, H1. reflexivity.
      * rewrite Hout, H2. reflexivity.
      * reflexivity.
      * vm_compute. discriminate.
      * rewrite Hadd. reflexivity.
      * reflexivity.
      * reflexivity.
      * reflexivity.
    + repeat split; reflexivity.
Qed.

Lemma booking_totals_witness :
  (exists location n products,
      find (same_name (BookingCreate.location chennai_request)) LOCATIONS
      = Some location
      /\ stay sample_world chennai_request
         = Some (Booking.nights sample_booking)
      /\ 1 <= Booking.nights sample_booking
      /\ Booking.price_per_night sample_booking
         = Location.price_per_night location
      /\ Float64.of_int (Booking.nights sample_booking) = Some n
      /\ Booking.accommodation_total sample_booking
         = Float64.mul n (Booking.price_per_night sample_booking)
      /\ line_totals (BookingCreate.restaurant_addons chennai_request)
         = Some products
      /\ Booking.restaurant_total sample_booking = sum products
      /\ Booking.total_amount sample_booking
         = Float64.add (Booking.accommodation_total sample_booking)
                       (Booking.restaurant_total sample_booking))
  /\ (exists b,
         documents (calls sample_world LOCATIONS chennai_request) = [b]
         /\ Booking.nights b = 3
         /\ Booking.price_per_night b = lit 149
         /\ Booking.accommodation_total b = lit 447
         /\ Booking.restaurant_total b = lit 10
         /\ Booking.total_amount b = lit 457).
Proof.
  split.
  - apply (proj1 booking_totals sample_world LOCATIONS chennai_request
             sample_booking).
    left. reflexivity.
  - apply (proj2 booking_totals sample_world chennai_request).
    + intros s d H. exact H.
    + reflexivity.
    + reflexivity.
    + reflexivity.
    + reflexivity.
Defined.

(** ** Which error a request gets *)

Lemma find_none_iff (wanted : string) (c : list Location.t) :
  find (same_name wanted) c = None <->
  (forall l, In l c -> Location.name l <> wanted).
Proof.
  split.
  - intros H l Hin Hn.
    pose proof (find_none _ _ H l Hin) as Hf.
    unfold same_name in Hf. rewrite Hn, String.eqb_refl in Hf. discriminate.
  - intro H. destruct (find (same_name wanted) c) as [l | ] eqn:Hf; [ | reflexivity ].
    apply find_same_name in Hf as [Hin Hn]. now apply H in Hin.
Qed.

Lemma outcome_invalid_location (w : world) (c : list Location.t)
    (p : BookingCreate.t) :
  outcome w c p = Raise InvalidLocation <->
  find (same_name (BookingCreate.location p)) c = None.
Proof.
  rewrite outcome_steps. split; intro H.
  - walk_steps; try discriminate; try reflexivity.
    injection H as ->. discriminate.
  - unfold steps. now rewrite H.
Qed.

Lemma outcome_invalid_date_range (w : world) (c : list Location.t)
    (p : BookingCreate.t) :
  outcome w c p = Raise InvalidDateRange <->
  (exists l n, find (same_name (BookingCreate.location p)) c = Some l
               /\ stay w p = Some n /\ n < 1).
Proof.
  rewrite outcome_steps. unfold stay. split.
  - intro H. walk_steps; try discriminate; try (injection H as ->; discriminate).
    eexists _, _. repeat split; eauto.
  - intros (l & n & Hl & Hs & Hn). unfold steps. rewrite Hl.
    destruct (fromisoformat w (BookingCreate.check_in_date p)); [ | discriminate ].
    destruct (fromisoformat w (BookingCreate.check_out_date p)); [ | discriminate ].
    destruct (Datetime.sub _ _) as [delta | ]; [ | discriminate ].
    simpl in Hs. injection Hs as <-.
    destruct (Z.ltb_spec (Datetime.days delta) 1); [ reflexivity | lia ].
Qed.

Lemma find_some_iff (wanted : string) (c : list Location.t) :
  (exists l, find (same_name wanted) c = Some l) <->
  (exists l, In l c /\ Location.name l = wanted).
Proof.
  split.
  - intros [l Hl]. exists l. now apply find_same_name.
  - intros (l & Hin & Hn).
    destruct (find (same_name wanted) c) as [l' | ] eqn:Hf; [ eauto | ].
    exfalso. now apply (proj1 (find_none_iff wanted c) Hf l Hin).
Qed.

(** C3.  A location name that equals no catalog name, character for
    character, is answered with [InvalidLocation] before anything is written;
    a name that equals one never gets this error. *)
Theorem unknown_location_rejected (w : world) (c : list Location.t)
    (p : BookingCreate.t) :
  ((forall l, In l c -> Location.name l <> BookingCreate.location p) ->
   outcome w c p = Raise InvalidLocation /\ calls w c p = [])
  /\ ((exists l, In l c /\ Location.name l = BookingCreate.location p) ->
      outcome w c p <> Raise InvalidLocation).
Proof.
  split.
  - intro H. apply find_none_iff in H.
    rewrite outcome_steps, calls_steps. unfold steps. rewrite H. auto.
  - intros H Ho. apply find_some_iff in H as [l Hl].
    apply outcome_invalid_location in Ho. congruence.
Qed.

Lemma unknown_location_rejected_witness :
  (outcome sample_world LOCATIONS atlantis_request = Raise InvalidLocation
   /\ calls sample_world LOCATIONS atlantis_request = [])
  /\ (outcome sample_world LOCATIONS lowercase_request = Raise InvalidLocation
      /\ calls sample_world LOCATIONS lowercase_request = [])
  /\ outcome sample_world LOCATIONS chennai_request <> Raise InvalidLocation.
Proof.
  split; [ | split ].
  - apply (proj1 (unknown_location_rejected sample_world LOCATIONS atlantis_request)).
    intros l Hin. simpl in Hin.
    repeat (destruct Hin as [<- | Hin]; [ discriminate | ]). destruct Hin.
  - apply (proj1 (unknown_location_rejected sample_world LOCATIONS lowercase_request)).
    intros l Hin. simpl in Hin.
    repeat (destruct Hin as [<- | Hin]; [ discriminate | ]). destruct Hin.
  - apply (proj2 (unknown_location_rejected sample_world LOCATIONS chennai_request)).
    eexists. split; [ left; reflexivity | reflexivity ].
Defined.

(** C2, as stated, fails: a same-day stay at an unknown location is answered
    with [InvalidLocation]; the location is looked up before the dates are
    read. *)
Lemma date_range_counterexample :
  stay sample_world same_day_atlantis = Some 0
  /\ outcome sample_world LOCATIONS same_day_atlantis = Raise InvalidLocation
  /\ outcome sample_world LOCATIONS same_day_atlantis <> Raise InvalidDateRange.
Proof.
  split; [ reflexivity | split; [ reflexivity | ] ]. vm_compute. discriminate.
Qed.

(** C2, amended.  When the location is in the catalog, a day difference
    below 1 is answered with [InvalidDateRange] before anything is written;
    and no request with a day difference of 1 or more gets this error. *)
Theorem date_range_rejected :
  (forall w c p n,
      (exists l, In l c /\ Location.name l = BookingCreate.location p) ->
      stay w p = Some n -> n < 1 ->
      outcome w c p = Raise InvalidDateRange /\ calls w c p = [])
  /\ (forall w c p n,
         stay w p = Some n -> 1 <= n ->
         outcome w c p <> Raise InvalidDateRange).
Proof.
  split.
  - intros w c p n Hl Hs Hn. apply find_some_iff in Hl as [l Hl]. split.
    + apply outcome_invalid_date_range. eauto.
    + rewrite calls_steps. unfold stay in Hs. unfold steps. rewrite Hl.
      destruct (fromisoformat w (BookingCreate.check_in_date p)); [ | discriminate ].
      destruct (fromisoformat w (BookingCreate.check_out_date p)); [ | discriminate ].
      destruct (Datetime.sub _ _) as [delta | ]; [ | discriminate ].
      simpl in Hs. injection Hs as <-.
      destruct (Z.ltb_spec (Datetime.days delta) 1); [ reflexivity | lia ].
  - intros w c p n Hs Hn Ho.
    apply outcome_invalid_date_range in Ho as (l & n' & _ & Hs' & Hn').
    rewrite Hs in Hs'. injection Hs' as <-. lia.
Qed.

Lemma date_range_rejected_witness :
  (outcome sample_world LOCATIONS same_day_request = Raise InvalidDateRange
   /\ calls sample_world LOCATIONS same_day_request = [])
  /\ (outcome sample_world LOCATIONS inverted_request = Raise InvalidDateRange
      /\ calls sample_world LOCATIONS inverted_request = [])
  /\ outcome sample_world LOCATIONS chennai_request <> Raise InvalidDateRange.
Proof.
  split; [ | split ].
  - apply (proj1 date_range_rejected sample_world LOCATIONS same_day_request 0).
    + eexists. split; [ left; reflexivity | reflexivity ].
    + reflexivity.
    + lia.
  - apply (proj1 date_range_rejected sample_world LOCATIONS inverted_request (-3)).
    + eexists. split; [ left; reflexivity | reflexivity ].
    + reflexivity.
    + lia.
  - apply (proj2 date_range_rejected sample_world LOCATIONS chennai_request 3).
    + reflexivity.
    + lia.
Defined.

(** ** Signs of the computed amounts *)

Import Float64Facts.

Lemma item_nonneg (item : OrderedItem.t) :
  OrderedItem.validate item = true ->
  Float64.nonneg (OrderedItem.price item) = true /\ 1 <= OrderedItem.quantity item.
Proof.
  unfold OrderedItem.validate. rewrite geb_zero.
  intro H. apply andb_true_iff in H as [H1 H2]. apply Z.leb_le in H2. auto.
Qed.

Lemma line_total_nonneg (item : OrderedItem.t) (x : float) :
  OrderedItem.validate item = true -> line_total item = Some x ->
  Float64.nonneg x = true.
Proof.
  intros Hv Hx. apply item_nonneg in Hv as [Hp Hq]. unfold line_total in Hx.
  destruct (Float64.of_int (OrderedItem.quantity item)) as [q | ] eqn:Hq'; [ | discriminate ].
  injection Hx as <-.
  destruct (of_int_finite _ _ Hq Hq') as (m & e & -> & _).
  eapply mul_nonneg; [ exact Hp | reflexivity ].
Qed.

Lemma line_totals_nonneg (items : list OrderedItem.t) (products : list float) :
  forallb OrderedItem.validate items = true ->
  line_totals items = Some products ->
  Forall (fun x => Float64.nonneg x = true) products.
Proof.
  revert products. induction items as [ | item items IH ]; intros products Hv Hp.
  - injection Hp as <-. constructor.
  - simpl in Hv, Hp. apply andb_true_iff in Hv as [Hi Hv].
    destruct (line_total item) as [x | ] eqn:Hx; [ | discriminate ].
    destruct (line_totals items) as [xs | ]; [ | discriminate ].
    injection Hp as <-. constructor; [ eapply line_total_nonneg; eauto | auto ].
Qed.

Lemma line_totals_defined (items : list OrderedItem.t) :
  forallb OrderedItem.validate items = true ->
  Forall (fun item => OrderedItem.quantity item < 2 ^ 1023) items ->
  exists products, line_totals items = Some products.
Proof.
  intros Hv Hq. induction Hq as [ | item items Hi _ IH ].
  - exists []. reflexivity.
  - simpl in Hv. apply andb_true_iff in Hv as [Hvi Hv].
    destruct (IH Hv) as [xs Hxs]. apply item_nonneg in Hvi as [_ H1].
    destruct (of_int_defined (OrderedItem.quantity item) (conj H1 Hi)) as [q Hq'].
    simpl. unfold line_total. rewrite Hq', Hxs. simpl. eauto.
Qed.

Lemma sum_nonneg_products (products : list float) :
  Forall (fun x => Float64.nonneg x = true) products ->
  Float64.nonneg (sum products) = true.
Proof. intro H. unfold sum. now apply sum_nonneg. Qed.

(** With a price [>= 0] in the catalog and a request that the interface
    accepted, the record built by the handler meets the [Booking] schema. *)
Lemma booking_validates (w : world) (p : BookingCreate.t) (l : Location.t)
    (nights : Z) (n : float) (products : list float) :
  Float64.nonneg (Location.price_per_night l) = true ->
  BookingCreate.validate p = true ->
  1 <= nights -> Float64.of_int nights = Some n ->
  line_totals (BookingCreate.restaurant_addons p) = Some products ->
  Booking.validate (booking_of w p l nights n products) = true.
Proof.
  intros Hl Hp Hn Hn' Hprod. unfold Booking.validate, booking_of. cbn.
  rewrite !geb_zero.
  destruct (of_int_finite _ _ Hn Hn') as (m & e & -> & _).
  assert (Hacc : Float64.nonneg
                   (Float64.mul (S754_finite false m e) (Location.price_per_night l)) = true)
    by (eapply mul_nonneg_l; [ reflexivity | exact Hl ]).
  assert (Hrt : Float64.nonneg (sum products) = true)
    by (apply sum_nonneg_products; eapply line_totals_nonneg; eauto).
  rewrite Hl, Hacc, add_nonneg by assumption.
  rewrite !andb_true_r. now apply Z.leb_le.
Qed.

Lemma LOCATIONS_prices :
  Forall (fun l => Float64.nonneg (Location.price_per_night l) = true
                   /\ Float64.valid (Location.price_per_night l) = true)
         LOCATIONS.
Proof. repeat constructor. Qed.

Lemma LOCATIONS_price_nonneg (wanted : string) (l : Location.t) :
  find (same_name wanted) LOCATIONS = Some l ->
  Float64.nonneg (Location.price_per_night l) = true.
Proof.
  intro H. apply find_same_name in H as [Hin _].
  exact (proj1 (proj1 (Forall_forall _ _) LOCATIONS_prices l Hin)).
Qed.

(** A request for a catalog location with readable dates, at least one
    night, and amounts that convert, reaches the persistence step. *)
Lemma reaches_persistence (w : world) (c : list Location.t)
    (p : BookingCreate.t) (l : Location.t) (n : Z) :
  Float64.nonneg (Location.price_per_night l) = true ->
  BookingCreate.validate p = true -> convertible p ->
  find (same_name (BookingCreate.location p)) c = Some l ->
  stay w p = Some n -> 1 <= n < 2 ^ 1023 ->
  exists nf products,
    priced w c p (booking_of w p l n nf products)
    /\ Float64.of_int n = Some nf
    /\ line_totals (BookingCreate.restaurant_addons p) = Some products.
Proof.
  intros Hl Hp Hc Hf Hs Hn. unfold stay in Hs.
  destruct (fromisoformat w (BookingCreate.check_in_date p)) as [d1 | ] eqn:H1; [ | discriminate ].
  destruct (fromisoformat w (BookingCreate.check_out_date p)) as [d2 | ] eqn:H2; [ | discriminate ].
  destruct (Datetime.sub d2 d1) as [delta | ] eqn:H3; [ | discriminate ].
  simpl in Hs. injection Hs as <-.
  destruct (of_int_defined _ Hn) as [nf Hnf].
  destruct (line_totals_defined _ Hp Hc) as [products Hprod].
  exists nf, products. split; [ | auto ].
  econstructor; eauto; [ lia | ].
  apply booking_validates; auto. lia.
Qed.

(** ** Failures *)

(** C4, as stated, fails: a date string that is no ISO date makes the
    handler fail with the [ValueError] of the parser, which is neither of the
    two client errors. *)
Lemma failures_counterexample :
  outcome sample_world LOCATIONS malformed_request = Raise ValueError
  /\ ValueError <> InvalidLocation /\ ValueError <> InvalidDateRange.
Proof. split; [ reflexivity | split; discriminate ]. Qed.

(** C4, amended.  Against the static catalog, a request accepted by the
    interface fails only with [InvalidLocation], with [InvalidDateRange], with
    a [ValueError] or [TypeError] of the date library, with the
    [OverflowError] of an integer too large for a float, or with what the
    write raises outside [Exception]; and when the location is in the
    catalog, the dates give a day difference from 1 up, the integers convert
    and the write raises nothing outside [Exception], the request succeeds
    and returns the booking identifier. *)
Theorem failures_classified :
  (forall w p e,
      BookingCreate.validate p = true ->
      outcome w LOCATIONS p = Raise e ->
      e = InvalidLocation \/ e = InvalidDateRange
      \/ e = ValueError \/ e = TypeError \/ e = OverflowError
      \/ (is_Exception e = false
          /\ exists b, create_document w "booking" b = Some e))
  /\ (forall w p n,
         BookingCreate.validate p = true -> convertible p ->
         raises_only_Exception w ->
         (exists l, In l LOCATIONS
                    /\ Location.name l = BookingCreate.location p) ->
         stay w p = Some n -> 1 <= n < 2 ^ 1023 ->
         outcome w LOCATIONS p = Ok {| booking_id := new_booking_id w |}).
Proof.
  split.
  - intros w p e Hp Ho. rewrite outcome_steps in Ho. unfold steps in Ho.
    destruct (find _ LOCATIONS) as [l | ] eqn:Hl; [ | injection Ho as <-; auto ].
    destruct (fromisoformat w (BookingCreate.check_in_date p)) as [d1 | ];
      [ | injection Ho as <-; auto ].
    destruct (fromisoformat w (BookingCreate.check_out_date p)) as [d2 | ];
      [ | injection Ho as <-; auto ].
    destruct (Datetime.sub d2 d1) as [delta | ]; [ | injection Ho as <-; auto 6 ].
    destruct (Z.ltb_spec (Datetime.days delta) 1); [ injection Ho as <-; auto | ].
    destruct (line_totals _) as [products | ] eqn:Hprod; [ | injection Ho as <-; auto 6 ].
    destruct (Float64.of_int _) as [nf | ] eqn:Hnf; [ | injection Ho as <-; auto 6 ].
    cbv zeta in Ho. rewrite booking_validates in Ho; auto.
    + destruct (create_document w _ _) as [e' | ] eqn:Hdb; [ | discriminate ].
      destruct (is_Exception e') eqn:He'; [ discriminate | ].
      injection Ho as <-. do 5 right. eauto.
    + eapply LOCATIONS_price_nonneg; eauto.
  - intros w p n Hp Hc Hw Hl Hs Hn. apply find_some_iff in Hl as [l Hl].
    destruct (reaches_persistence w LOCATIONS p l n) as (nf & products & Hb & _); auto.
    + eapply LOCATIONS_price_nonneg; eauto.
    + eapply priced_outcome; eauto.
Qed.

Lemma failures_classified_witness :
  (ValueError = InvalidLocation \/ ValueError = InvalidDateRange
   \/ ValueError = ValueError \/ ValueError = TypeError
   \/ ValueError = OverflowError
   \/ (is_Exception ValueError = false
       /\ exists b, create_document sample_world "booking" b = Some ValueError))
  /\ outcome offline_world LOCATIONS chennai_request
     = Ok {| booking_id := new_booking_id offline_world |}.
Proof.
  split.
  - apply (proj1 failures_classified sample_world malformed_request ValueError);
      reflexivity.
  - apply (proj2 failures_classified offline_world chennai_request 3).
    + reflexivity.
    + repeat constructor.
    + intros c b e H. injection H as <-. reflexivity.
    + eexists. split; [ left; reflexivity | reflexivity ].
    + reflexivity.
    + split; [ lia | reflexivity ].
Defined.

(** ** The write *)

(** C5.  When the write is attempted and raises an [Exception], the request
    still succeeds with the identifier computed before the write; and the
    response does not depend on whether the write fails. *)
Theorem write_failure_swallowed :
  (forall w c p b e,
      In b (documents (calls w c p)) ->
      create_document w "booking" b = Some e -> is_Exception e = true ->
      outcome w c p = Ok {| booking_id := new_booking_id w |}
      /\ Booking.booking_id b = new_booking_id w
      /\ calls w c p = [CreateDocument "booking" b; Print "DB Error:" e])
  /\ (forall parse random_bytes db db' c p,
         let w := {| fromisoformat := parse; os_urandom := random_bytes;
                     create_document := db |} in
         let w' := {| fromisoformat := parse; os_urandom := random_bytes;
                      create_document := db' |} in
         raises_only_Exception w -> raises_only_Exception w' ->
         outcome w c p = outcome w' c p).
Proof.
  split.
  - intros w c p b e Hb Hdb He. apply documents_priced in Hb.
    destruct Hb as [loc d1 d2 delta products n H1 H2 H3 H4 H5 H6 H7 -> H9].
    rewrite outcome_steps, calls_steps. unfold steps.
    rewrite H1, H2, H3, H4, H6, H7.
    destruct (Z.ltb_spec (Datetime.days delta) 1); [ lia | ].
    cbv zeta. rewrite H9, Hdb, He. auto.
  - intros parse rnd db db' c p w w' Hw Hw'.
    rewrite !outcome_steps. unfold steps, w, w'. cbn [fromisoformat create_document].
    destruct (find _ c) as [l | ]; [ | reflexivity ].
    destruct (parse (BookingCreate.check_in_date p)) as [d1 | ]; [ | reflexivity ].
    destruct (parse (BookingCreate.check_out_date p)) as [d2 | ]; [ | reflexivity ].
    destruct (Datetime.sub d2 d1) as [delta | ]; [ | reflexivity ].
    destruct (Datetime.days delta <? 1); [ reflexivity | ].
    destruct (line_totals _) as [products | ]; [ | reflexivity ].
    destruct (Float64.of_int _) as [n | ]; [ | reflexivity ].
    cbv zeta. fold w w'.
    change (booking_of w' p l (Datetime.days delta) n products)
      with (booking_of w p l (Datetime.days delta) n products).
    change (new_booking_id w') with (new_booking_id w).
    destruct (Booking.validate _); [ | reflexivity ].
    destruct (db _ _) as [e | ] eqn:He; destruct (db' _ _) as [e' | ] eqn:He'.
    + rewrite (Hw _ _ _ He), (Hw' _ _ _ He'). reflexivity.
    + rewrite (Hw _ _ _ He). reflexivity.
    + rewrite (Hw' _ _ _ He'). reflexivity.
    + reflexivity.
Qed.

Lemma write_failure_swallowed_witness :
  (outcome offline_world LOCATIONS chennai_request
   = Ok {| booking_id := new_booking_id offline_world |}
   /\ Booking.booking_id sample_booking = new_booking_id offline_world
   /\ calls offline_world LOCATIONS chennai_request
      = [CreateDocument "booking" sample_booking;
         Print "DB Error:" (Exception "Database not available")])
  /\ outcome offline_world LOCATIONS chennai_request
     = outcome sample_world LOCATIONS chennai_request.
Proof.
  split.
  - apply (proj1 write_failure_swallowed offline_world LOCATIONS chennai_request
             sample_booking (Exception "Database not available")).
    + left. reflexivity.
    + reflexivity.
    + reflexivity.
  - apply (proj2 write_failure_swallowed Datetime.fromisoformat_date
             0x1234abcd5678ef90123456789abcdef0 db_down db_up LOCATIONS
             chennai_request).
    + intros c b e H. injection H as <-. reflexivity.
    + intros c b e H. discriminate H.
Defined.

(** ** Where the nightly price comes from *)

(** C6.  The nightly price of a record is the price of the catalog entry
    found under the requested name; two requests for the same location get
    the same nightly price whatever else they contain, and the same
    accommodation total when their numbers of nights agree. *)
Theorem price_from_catalog (w1 w2 : world) (c : list Location.t)
    (p1 p2 : BookingCreate.t) (b1 b2 : Booking.t) :
  BookingCreate.location p1 = BookingCreate.location p2 ->
  In b1 (documents (calls w1 c p1)) ->
  In b2 (documents (calls w2 c p2)) ->
  (exists l, find (same_name (BookingCreate.location p1)) c = Some l
             /\ Booking.price_per_night b1 = Location.price_per_night l
             /\ Booking.price_per_night b2 = Location.price_per_night l)
  /\ (Booking.nights b1 = Booking.nights b2 ->
      Booking.accommodation_total b1 = Booking.accommodation_total b2).
Proof.
  intros Hloc H1 H2. apply documents_priced in H1, H2.
  destruct H1 as [l1 ? ? delta1 products1 n1 Hl1 _ _ _ _ _ Hn1 -> _].
  destruct H2 as [l2 ? ? delta2 products2 n2 Hl2 _ _ _ _ _ Hn2 -> _].
  rewrite <- Hloc in Hl2. rewrite Hl1 in Hl2. injection Hl2 as <-.
  split.
  - exists l1. auto.
  - cbn. intro Hn. rewrite Hn in Hn1. rewrite Hn1 in Hn2. now injection Hn2 as <-.
Qed.

Lemma price_from_catalog_witness :
  (exists l, find (same_name "Chennai") LOCATIONS = Some l
             /\ lit 149 = Location.price_per_night l
             /\ lit 149 = Location.price_per_night l)
  /\ (3 = 3 -> lit 447 = lit 447).
Proof.
  apply (price_from_catalog sample_world offline_world LOCATIONS
           chennai_request other_request sample_booking other_booking).
  - reflexivity.
  - left. reflexivity.
  - left. reflexivity.
Defined.

(** ** The availability flag *)

Lemma find_with_available (f : Location.t -> bool) (wanted : string)
    (c : list Location.t) :
  find (same_name wanted) (map (with_available f) c)
  = option_map (with_available f) (find (same_name wanted) c).
Proof.
  induction c as [ | l c IH ]; [ reflexivity | ].
  simpl. change (same_name wanted (with_available f l)) with (same_name wanted l).
  destruct (same_name wanted l); [ reflexivity | exact IH ].
Qed.

(** C7.  The handler never reads the availability flag: changing the flags
    of the catalog changes neither the response nor the calls; and a stay in
    Madurai, which the catalog marks unavailable, from 2024-01-01 to
    2024-01-04 is booked with [accommodation_total = 387.0]. *)
Theorem availability_not_enforced :
  (forall w c p f,
      outcome w (map (with_available f) c) p = outcome w c p
      /\ calls w (map (with_available f) c) p = calls w c p)
  /\ (forall w p,
         reads_dates w -> raises_only_Exception w ->
         BookingCreate.validate p = true -> convertible p ->
         BookingCreate.location p = "Madurai"%string ->
         BookingCreate.check_in_date p = "2024-01-01"%string ->
         BookingCreate.check_out_date p = "2024-01-04"%string ->
         (exists l, find (same_name "Madurai") LOCATIONS = Some l
                    /\ Location.available l = false)
         /\ outcome w LOCATIONS p = Ok {| booking_id := new_booking_id w |}
         /\ exists b, documents (calls w LOCATIONS p) = [b]
                      /\ Booking.nights b = 3
                      /\ Booking.price_per_night b = lit 129
                      /\ Booking.accommodation_total b = lit 387).
Proof.
  split.
  - intros w c p f. rewrite !outcome_steps, !calls_steps. unfold steps.
    rewrite find_with_available.
    destruct (find _ c) as [l | ]; [ | auto ]. cbn [option_map].
    change (booking_of w p (with_available f l)) with (booking_of w p l). auto.
  - intros w p Hw Hdb Hp Hc Hloc Hin Hout.
    split; [ eexists; split; reflexivity | ].
    assert (Hs : stay w p = Some 3).
    { unfold stay. rewrite Hin, Hout.
      rewrite (Hw "2024-01-01"%string _ eq_refl), (Hw "2024-01-04"%string _ eq_refl).
      reflexivity. }
    destruct (reaches_persistence w LOCATIONS p
                (Location.mk "Madurai" "https://images.unsplash.com/photo-1547586696-ea22b4e52f95?q=80&w=1400&auto=format&fit=crop" (lit 129) false ["gym"%string]) 3)
      as (nf & products & Hb & Hnf & _); auto.
    + rewrite Hloc. reflexivity.
    + split; [ lia | reflexivity ].
    + split; [ eapply priced_outcome; eauto | ].
      eexists. split; [ eapply priced_documents; eauto | ].
      injection Hnf as <-. repeat split; reflexivity.
Qed.

Lemma availability_not_enforced_witness :
  (exists l, find (same_name "Madurai") LOCATIONS = Some l
             /\ Location.available l = false)
  /\ outcome sample_world LOCATIONS madurai_request
     = Ok {| booking_id := new_booking_id sample_world |}
  /\ exists b, documents (calls sample_world LOCATIONS madurai_request) = [b]
               /\ Booking.nights b = 3
               /\ Booking.price_per_night b = lit 129
               /\ Booking.accommodation_total b = lit 387.
Proof.
  apply (proj2 availability_not_enforced sample_world madurai_request).
  - intros s d H. exact H.
  - intros c b e H. discriminate H.
  - reflexivity.
  - repeat constructor.
  - reflexivity.
  - reflexivity.
  - reflexivity.
Defined.

(** ** Booking identifiers *)

Lemma nibble_range (x : Z) : 0 <= Z.land x 15 < 16.
Proof.
  change 15 with (Z.ones 4). rewrite Z.land_ones by lia.
  apply Z.mod_pos_bound. reflexivity.
Qed.

Lemma hexdigit_upper (n : Z) :
  0 <= n < 16 -> is_upper_alnum (upper_char (Uuid.hexdigit n)) = true.
Proof.
  intro H.
  assert (Hall : forallb (fun k => is_upper_alnum
                                     (upper_char (Uuid.hexdigit (Z.of_nat k))))
                         (seq 0 16) = true) by reflexivity.
  rewrite <- (Z2Nat.id n) by lia.
  apply (proj1 (forallb_forall _ _) Hall). apply in_seq. lia.
Qed.

Lemma fresh_id_shape (w : world) :
  String.length (new_booking_id w) = 8%nat
  /\ string_forall is_upper_alnum (new_booking_id w) = true.
Proof.
  unfold new_booking_id. set (u := Uuid.uuid4 (os_urandom w)).
  assert (Hs : substring 0 8 (Uuid.str u) = Uuid.hex 8 (Z.shiftr u 96)).
  { unfold Uuid.str. cbn [Uuid.hex substring append Z.of_nat].
    repeat (f_equal; [ f_equal; rewrite Z.shiftr_shiftr by lia; reflexivity | ]).
    reflexivity. }
  rewrite Hs. cbn [Uuid.hex upper string_forall String.length].
  split; [ reflexivity | ].
  rewrite !hexdigit_upper by apply nibble_range. reflexivity.
Qed.

(** C8.  The identifier of every successful booking has eight characters,
    each an uppercase letter or a digit; it is also the identifier of the
    record handed to the store. *)
Theorem booking_id_shape (w : world) (c : list Location.t)
    (p : BookingCreate.t) (r : BookingResponse) :
  outcome w c p = Ok r ->
  String.length (booking_id r) = 8%nat
  /\ string_forall is_upper_alnum (booking_id r) = true
  /\ forall b, In b (documents (calls w c p)) ->
               Booking.booking_id b = booking_id r.
Proof.
  intro Ho. apply outcome_ok_priced in Ho as [-> _]. cbn [booking_id].
  destruct (fresh_id_shape w) as [Hlen Hall].
  repeat split; auto.
  intros b Hb. apply documents_priced in Hb.
  destruct Hb as [loc d1 d2 delta products n _ _ _ _ _ _ _ -> _]. reflexivity.
Qed.

Lemma booking_id_shape_witness :
  String.length "1234ABCD" = 8%nat
  /\ string_forall is_upper_alnum "1234ABCD" = true
  /\ forall b, In b (documents (calls sample_world LOCATIONS chennai_request)) ->
               Booking.booking_id b = "1234ABCD"%string.
Proof.
  apply (booking_id_shape sample_world LOCATIONS chennai_request
           {| booking_id := "1234ABCD" |}).
  reflexivity.
Defined.

(** ** Determinism *)

Lemma create_booking_keeps_catalog (w : world) (p : BookingCreate.t)
    (s : state) :
  locations (snd (create_booking w p s)) = locations s.
Proof. rewrite create_booking_steps. reflexivity. Qed.

(** C9.  Two successful runs on the same request and catalog, with the same
    date library but other random bytes and another store, write records
    that agree on every field but [booking_id]; and a run leaves the catalog
    as it found it. *)
Theorem deterministic_but_id :
  (forall w1 w2 c p r1 r2,
      (forall s, fromisoformat w1 s = fromisoformat w2 s) ->
      outcome w1 c p = Ok r1 -> outcome w2 c p = Ok r2 ->
      exists b1 b2,
        documents (calls w1 c p) = [b1] /\ documents (calls w2 c p) = [b2]
        /\ without_id b1 = without_id b2)
  /\ (forall w p s, locations (snd (create_booking w p s)) = locations s).
Proof.
  split; [ | exact create_booking_keeps_catalog ].
  intros w1 w2 c p r1 r2 Hw H1 H2.
  apply outcome_ok_priced in H1 as [_ [b1 Hb1]].
  apply outcome_ok_priced in H2 as [_ [b2 Hb2]].
  exists b1, b2. split; [ now apply priced_documents | ].
  split; [ now apply priced_documents | ].
  destruct Hb1 as [l1 d1 d2 delta products n Hl Hd1 Hd2 Hsub _ Hprod Hn -> _].
  destruct Hb2 as [l1' d1' d2' delta' products' n' Hl' Hd1' Hd2' Hsub' _ Hprod' Hn' -> _].
  rewrite Hw in Hd1, Hd2.
  assert (l1' = l1) by congruence. assert (d1' = d1) by congruence.
  assert (d2' = d2) by congruence. subst.
  assert (delta' = delta) by congruence. subst.
  assert (products' = products) by congruence. assert (n' = n) by congruence.
  subst. reflexivity.
Qed.

Lemma deterministic_but_id_witness :
  (exists b1 b2,
      documents (calls sample_world LOCATIONS chennai_request) = [b1]
      /\ documents (calls (date_world 7 db_down) LOCATIONS chennai_request) = [b2]
      /\ without_id b1 = without_id b2)
  /\ locations (snd (create_booking sample_world chennai_request initial))
     = locations initial.
Proof.
  split.
  - apply (proj1 deterministic_but_id sample_world (date_world 7 db_down)
             LOCATIONS chennai_request
             {| booking_id := "1234ABCD" |} {| booking_id := "00000000" |}).
    + reflexivity.
    + reflexivity.
    + reflexivity.
  - apply (proj2 deterministic_but_id).
Defined.

(** ** Order of the totals *)

(** C10, as stated, fails: an add-on priced [2^-60] is absorbed when it is
    added to 447.0, so the total equals the accommodation total although the
    add-on list is not empty and its price is not 0. *)
Lemma totals_counterexample :
  BookingCreate.validate crumb_request = true
  /\ outcome sample_world LOCATIONS crumb_request
     = Ok {| booking_id := "1234ABCD" |}
  /\ map Booking.restaurant_total
         (documents (calls sample_world LOCATIONS crumb_request))
     = [S754_finite false 4503599627370496 (-112)]
  /\ map Booking.accommodation_total
         (documents (calls sample_world LOCATIONS crumb_request)) = [lit 447]
  /\ map Booking.total_amount
         (documents (calls sample_world LOCATIONS crumb_request)) = [lit 447]
  /\ Float64.eqb (lit 447) (lit 447) = true
  /\ BookingCreate.restaurant_addons crumb_request <> []
  /\ Float64.eqb (OrderedItem.price crumb) Float64.zero = false.
Proof. repeat split; try reflexivity. discriminate. Qed.

Lemma zero_price_products (items : list OrderedItem.t) (products : list float) :
  Forall (fun item => Float64.eqb (OrderedItem.price item) Float64.zero = true)
         items ->
  forallb OrderedItem.validate items = true ->
  line_totals items = Some products ->
  Forall (fun x => exists s, x = S754_zero s) products.
Proof.
  intro Hz. revert products.
  induction Hz as [ | item items Hi _ IH ]; intros products Hv Hp.
  - injection Hp as <-. constructor.
  - simpl in Hv, Hp. apply andb_true_iff in Hv as [Hvi Hv].
    unfold line_total in Hp.
    destruct (Float64.of_int (OrderedItem.quantity item)) as [q | ] eqn:Hq;
      [ | discriminate ].
    cbn [option_map] in Hp.
    destruct (line_totals items) as [xs | ]; [ | discriminate ].
    injection Hp as <-. apply item_nonneg in Hvi as [_ H1].
    destruct (of_int_finite _ _ H1 Hq) as (m & e & -> & _).
    apply eqb_zero in Hi as [s ->]. constructor; [ | auto ].
    exists (xorb s false). reflexivity.
Qed.

(** C10, amended.  The add-ons of a request accepted by the interface have
    [price >= 0] and [quantity >= 1]; every record written for it has
    [restaurant_total >= 0] and [total_amount >= accommodation_total]; and
    the two totals are equal when the add-on list is empty or every add-on
    price is 0.  The catalog prices are taken to be values that binary64
    has ([Float64.valid]), as every Python [float] is. *)
Theorem totals_ordered (w : world) (c : list Location.t)
    (p : BookingCreate.t) (b : Booking.t) :
  BookingCreate.validate p = true ->
  Forall (fun l => Float64.valid (Location.price_per_night l) = true) c ->
  In b (documents (calls w c p)) ->
  Forall (fun item => Float64.geb (OrderedItem.price item) Float64.zero = true
                      /\ 1 <= OrderedItem.quantity item)
         (BookingCreate.restaurant_addons p)
  /\ Float64.geb (Booking.restaurant_total b) Float64.zero = true
  /\ Float64.geb (Booking.total_amount b) (Booking.accommodation_total b) = true
  /\ (BookingCreate.restaurant_addons p = []
      \/ Forall (fun item =>
                   Float64.eqb (OrderedItem.price item) Float64.zero = true)
                (BookingCreate.restaurant_addons p) ->
      Float64.eqb (Booking.total_amount b) (Booking.accommodation_total b)
      = true).
Proof.
  intros Hp Hc Hb. apply documents_priced in Hb.
  destruct Hb as [l d1 d2 delta products n Hl _ _ _ Hn Hprod Hnf -> Hv].
  assert (Hrt : Float64.nonneg (sum products) = true)
    by (apply sum_nonneg_products; eapply line_totals_nonneg; eauto).
  unfold Booking.validate in Hv. cbn in Hv. rewrite !geb_zero in Hv.
  apply andb_true_iff in Hv as [Hv _]. apply andb_true_iff in Hv as [_ Hacc].
  cbn. split; [ | split; [ | split ] ].
  - apply Forall_forall. intros item Hin.
    unfold BookingCreate.validate in Hp.
    pose proof (proj1 (forallb_forall _ _) Hp item Hin) as Hi.
    unfold OrderedItem.validate in Hi. apply andb_true_iff in Hi as [H1 H2].
    apply Z.leb_le in H2. auto.
  - now rewrite geb_zero.
  - apply add_ge; auto.
    destruct (of_int_finite _ _ Hn Hnf) as (m & e & -> & Hm).
    apply mul_valid; [ exact Hm | ].
    apply find_same_name in Hl as [Hin _].
    exact (proj1 (Forall_forall _ _) Hc l Hin).
  - intro H.
    assert (Hz : sum products = Float64.zero).
    { destruct H as [H | H].
      - rewrite H in Hprod. injection Hprod as <-. reflexivity.
      - apply sum_of_zeros. eapply zero_price_products; eauto. }
    rewrite Hz. now apply add_zero_r.
Qed.

Lemma totals_ordered_witness :
  (Float64.geb (Booking.restaurant_total sample_booking) Float64.zero = true
   /\ Float64.geb (Booking.total_amount sample_booking)
                  (Booking.accommodation_total sample_booking) = true)
  /\ Float64.eqb (Booking.total_amount other_booking)
                 (Booking.accommodation_total other_booking) = true.
Proof.
  split.
  - pose proof (totals_ordered sample_world LOCATIONS chennai_request
                  sample_booking) as H.
    destruct H as (_ & Hrt & Hge & _).
    + reflexivity.
    + repeat constructor.
    + left. reflexivity.
    + split; assumption.
  - pose proof (totals_ordered sample_world LOCATIONS other_request
                  other_booking) as H.
    destruct H as (_ & _ & _ & Heq).
    + reflexivity.
    + repeat constructor.
    + left. reflexivity.
    + apply Heq. left. reflexivity.
Defined.

(** * Further properties of the code *)

(** ** Requests do not see each other *)

(** X1.  A request handled after another one gets the result it gets on
    its own, whatever the first one did; the calls of the two are logged one
    after the other behind what was logged before, and the catalog stays as
    it was.  In particular nothing detects that a stay was booked before. *)
Theorem requests_independent (w1 w2 : world) (p1 p2 : BookingCreate.t)
    (s : state) :
  let s1 := snd (create_booking w1 p1 s) in
  let s2 := snd (create_booking w2 p2 s1) in
  fst (create_booking w1 p1 s) = outcome w1 (locations s) p1
  /\ fst (create_booking w2 p2 s1) = outcome w2 (locations s) p2
  /\ trace s2 = trace s ++ calls w1 (locations s) p1
                        ++ calls w2 (locations s) p2
  /\ locations s2 = locations s.
Proof.
  cbv zeta. rewrite !outcome_steps, !calls_steps.
  rewrite (create_booking_steps w1 p1 s). cbn [fst snd].
  rewrite (create_booking_steps w2 p2). cbn [fst snd logged locations trace].
  rewrite <- app_assoc. auto.
Qed.

(** ** What is written, and when *)

(** X2.  A request that fails with an exception of the [Exception] class
    has called nothing: no record is written and nothing is printed.  No
    request writes more than one record, and only a failed write is followed
    by a print. *)
Theorem failure_writes_nothing (w : world) (c : list Location.t)
    (p : BookingCreate.t) :
  (forall e, outcome w c p = Raise e -> is_Exception e = true ->
             calls w c p = [])
  /\ (List.length (documents (calls w c p)) <= 1)%nat
  /\ (forall prefix e, In (Print prefix e) (calls w c p) ->
        exists b, calls w c p = [CreateDocument "booking" b; Print prefix e]
                  /\ create_document w "booking" b = Some e).
Proof.
  rewrite outcome_steps, calls_steps. split; [ | split ].
  - intros e H He. walk_steps; try discriminate; try reflexivity.
    injection H as ->. congruence.
  - walk_steps; simpl; lia.
  - intros prefix e H. walk_steps; simpl in H;
      repeat (destruct H as [H | H]; try discriminate H); try tauto.
    injection H as <- <-. eauto.
Qed.

Lemma failure_writes_nothing_witness :
  calls sample_world LOCATIONS same_day_request = []
  /\ exists b, calls offline_world LOCATIONS chennai_request
               = [CreateDocument "booking" b;
                  Print "DB Error:" (Exception "Database not available")]
               /\ create_document offline_world "booking" b
                  = Some (Exception "Database not available").
Proof.
  split.
  - apply (proj1 (failure_writes_nothing sample_world LOCATIONS same_day_request)
             InvalidDateRange); reflexivity.
  - apply (proj2 (proj2 (failure_writes_nothing offline_world LOCATIONS
                           chennai_request))).
    vm_compute. right. left. reflexivity.
Defined.

(** X3.  The record written for a request goes to the collection
    ["booking"] and repeats the request: guest, address, location, the two
    date strings as they were sent, the two times and the add-ons; its
    location is the name of a catalog entry and its nights are the day
    difference of the dates. *)
Theorem record_repeats_request (w : world) (c : list Location.t)
    (p : BookingCreate.t) (collection_name : string) (b : Booking.t) :
  In (CreateDocument collection_name b) (calls w c p) ->
  collection_name = "booking"%string
  /\ Booking.guest_name b = BookingCreate.guest_name p
  /\ Booking.email b = BookingCreate.email p
  /\ Booking.location b = BookingCreate.location p
  /\ Booking.check_in_date b = BookingCreate.check_in_date p
  /\ Booking.check_out_date b = BookingCreate.check_out_date p
  /\ Booking.check_in_time b = BookingCreate.check_in_time p
  /\ Booking.check_out_time b = BookingCreate.check_out_time p
  /\ Booking.restaurant_addons b = BookingCreate.restaurant_addons p
  /\ (exists l, In l c /\ Location.name l = Booking.location b)
  /\ stay w p = Some (Booking.nights b).
Proof.
  rewrite calls_steps. intro H.
  assert (Hs : forall d1 d2 delta,
             fromisoformat w (BookingCreate.check_in_date p) = Some d1 ->
             fromisoformat w (BookingCreate.check_out_date p) = Some d2 ->
             Datetime.sub d2 d1 = Some delta ->
             stay w p = Some (Datetime.days delta)).
  { intros d1 d2 delta H1 H2 H3. unfold stay. now rewrite H1, H2, H3. }
  walk_steps; simpl in H;
    repeat (destruct H as [H | H]; try discriminate H); try tauto;
    injection H as <- <-; cbn;
    (repeat split; eauto);
    match goal with
    | Hf : find _ c = Some ?l |- _ =>
        apply find_same_name in Hf as [? ?]; exists l; auto
    end.
Qed.

Lemma record_repeats_request_witness :
  "booking"%string = "booking"%string
  /\ Booking.guest_name sample_booking = BookingCreate.guest_name chennai_request
  /\ Booking.email sample_booking = BookingCreate.email chennai_request
  /\ Booking.location sample_booking = BookingCreate.location chennai_request
  /\ Booking.check_in_date sample_booking
     = BookingCreate.check_in_date chennai_request
  /\ Booking.check_out_date sample_booking
     = BookingCreate.check_out_date chennai_request
  /\ Booking.check_in_time sample_booking
     = BookingCreate.check_in_time chennai_request
  /\ Booking.check_out_time sample_booking
     = BookingCreate.check_out_time chennai_request
  /\ Booking.restaurant_addons sample_booking
     = BookingCreate.restaurant_addons chennai_request
  /\ (exists l, In l LOCATIONS /\ Location.name l = Booking.location sample_booking)
  /\ stay sample_world chennai_request = Some (Booking.nights sample_booking).
Proof.
  apply (record_repeats_request sample_world LOCATIONS chennai_request
           "booking" sample_booking).
  vm_compute. left. reflexivity.
Defined.

(** ** Dates the wrong way round *)

Lemma sub_swap (a b : Datetime.datetime) (t : Datetime.timedelta) :
  Datetime.sub a b = Some t -> Datetime.sub b a = Some (- t).
Proof.
  unfold Datetime.sub, Datetime.mk_timedelta.
  destruct (Datetime.tzinfo a), (Datetime.tzinfo b); intro H;
    try discriminate; injection H as <-; f_equal; lia.
Qed.

Lemma days_opp (t : Datetime.timedelta) :
  1 <= Datetime.days t -> Datetime.days (- t) <= -1.
Proof.
  unfold Datetime.days. intro H.
  assert (86400000000 <= t).
  { pose proof (Z.mul_div_le t 86400000000 ltac:(lia)). lia. }
  apply Z.lt_succ_r. apply Z.div_lt_upper_bound; lia.
Qed.

(** X4.  When the dates of a request give a day difference of 1 or more,
    the same request with check-in and check-out exchanged is answered with
    [InvalidDateRange] if its location is in the catalog, and with
    [InvalidLocation] if not; it is never booked. *)
Theorem swapped_dates_rejected (w : world) (c : list Location.t)
    (p : BookingCreate.t) (n : Z) :
  stay w p = Some n -> 1 <= n ->
  (exists n', stay w (swap_dates p) = Some n' /\ n' <= -1)
  /\ (outcome w c (swap_dates p) = Raise InvalidDateRange
      \/ outcome w c (swap_dates p) = Raise InvalidLocation)
  /\ calls w c (swap_dates p) = [].
Proof.
  intros Hs Hn. unfold stay in Hs.
  destruct (fromisoformat w (BookingCreate.check_in_date p)) as [d1 | ] eqn:H1;
    [ | discriminate ].
  destruct (fromisoformat w (BookingCreate.check_out_date p)) as [d2 | ] eqn:H2;
    [ | discriminate ].
  destruct (Datetime.sub d2 d1) as [delta | ] eqn:H3; [ | discriminate ].
  simpl in Hs. injection Hs as <-.
  pose proof (sub_swap _ _ _ H3) as H4. pose proof (days_opp _ Hn) as H5.
  split; [ | rewrite outcome_steps, calls_steps; unfold steps ];
    unfold stay; cbn [swap_dates BookingCreate.check_in_date
                      BookingCreate.check_out_date BookingCreate.location
                      BookingCreate.restaurant_addons];
    rewrite H1, H2, H4.
  - eexists. split; [ reflexivity | exact H5 ].
  - destruct (find _ c); [ | auto ].
    destruct (Z.ltb_spec (Datetime.days (- delta)) 1); [ auto | lia ].
Qed.

Lemma swapped_dates_rejected_witness :
  (exists n', stay sample_world (swap_dates chennai_request) = Some n'
              /\ n' <= -1)
  /\ (outcome sample_world LOCATIONS (swap_dates chennai_request)
      = Raise InvalidDateRange
      \/ outcome sample_world LOCATIONS (swap_dates chennai_request)
         = Raise InvalidLocation)
  /\ calls sample_world LOCATIONS (swap_dates chennai_request) = [].
Proof.
  apply (swapped_dates_rejected sample_world LOCATIONS chennai_request 3).
  - reflexivity.
  - lia.
Defined.

(** ** The listing and the booking *)

Lemma get_locations_steps (s : state) :
  get_locations s = (Ok (map model_dump (locations s)), s).
Proof. reflexivity. Qed.

Lemma find_unique_name (c : list Location.t) (l : Location.t) :
  NoDup (map Location.name c) -> In l c ->
  find (same_name (Location.name l)) c = Some l.
Proof.
  induction c as [ | x c IH ]; intros Hnd Hin; [ destruct Hin | ].
  simpl in Hnd. inversion Hnd as [ | ? ? Hx Hc ]; subst.
  simpl. unfold same_name at 1.
  destruct (String.eqb_spec (Location.name x) (Location.name l)) as [Heq | Hne].
  - destruct Hin as [-> | Hin]; [ reflexivity | ].
    exfalso. apply Hx. rewrite Heq. now apply in_map.
  - destruct Hin as [-> | Hin]; [ congruence | auto ].
Qed.

(** X5.  [get_locations] answers with one dictionary per catalog entry, in
    the order of the catalog, and changes nothing.  When the catalog names
    are pairwise distinct, as those of [LOCATIONS] are, every listed
    location can be asked for by its listed name, and a record written for
    that name carries the listed nightly price, also for an entry listed as
    unavailable. *)
Theorem listed_price_charged :
  NoDup (map Location.name LOCATIONS)
  /\ (forall (s : state),
         exists listing,
           get_locations s = (Ok listing, s)
           /\ map (fun d => dict_get d "name") listing
              = map (fun l => Some (VStr (Location.name l))) (locations s)
           /\ forall d, In d listing ->
                map fst d = ["name"; "image"; "price_per_night"; "available";
                             "facilities"]%string)
  /\ (forall w (s : state) listing d name price p b,
         NoDup (map Location.name (locations s)) ->
         get_locations s = (Ok listing, s) -> In d listing ->
         dict_get d "name" = Some (VStr name) ->
         dict_get d "price_per_night" = Some (VFloat price) ->
         BookingCreate.location p = name ->
         outcome w (locations s) p <> Raise InvalidLocation
         /\ (In b (documents (calls w (locations s) p)) ->
             Booking.price_per_night b = price)).
Proof.
  split; [ | split ].
  - repeat constructor; simpl; intuition discriminate.
  - intro s. exists (map model_dump (locations s)). split; [ reflexivity | ].
    split.
    + rewrite map_map. reflexivity.
    + intros d Hd. apply in_map_iff in Hd as (l & <- & _). reflexivity.
  - intros w s listing d name price p b Hnd Hget Hd Hname Hprice Hloc.
    rewrite get_locations_steps in Hget. injection Hget as <-.
    apply in_map_iff in Hd as (l & <- & Hl).
    cbn in Hname, Hprice. injection Hname as <-. injection Hprice as <-.
    pose proof (find_unique_name _ _ Hnd Hl) as Hf. rewrite <- Hloc in Hf.
    split.
    + intro Ho. apply outcome_invalid_location in Ho. congruence.
    + intro Hb. apply documents_priced in Hb.
      destruct Hb as [l' ? ? ? ? ? Hl' _ _ _ _ _ _ -> _].
      rewrite Hf in Hl'. injection Hl' as <-. reflexivity.
Qed.

Lemma listed_price_charged_witness :
  outcome sample_world (locations initial) madurai_request
  <> Raise InvalidLocation
  /\ (In (booking_of sample_world madurai_request
            (Location.mk "Madurai" "https://images.unsplash.com/photo-1547586696-ea22b4e52f95?q=80&w=1400&auto=format&fit=crop" (lit 129) false ["gym"%string])
            3 (lit 3) [lit 10])
         (documents (calls sample_world (locations initial) madurai_request)) ->
      Booking.price_per_night
        (booking_of sample_world madurai_request
            (Location.mk "Madurai" "https://images.unsplash.com/photo-1547586696-ea22b4e52f95?q=80&w=1400&auto=format&fit=crop" (lit 129) false ["gym"%string])
            3 (lit 3) [lit 10]) = lit 129).
Proof.
  apply (proj2 (proj2 listed_price_charged) sample_world initial
           (map model_dump LOCATIONS)
           (model_dump (Location.mk "Madurai" "https://images.unsplash.com/photo-1547586696-ea22b4e52f95?q=80&w=1400&auto=format&fit=crop" (lit 129) false ["gym"%string]))
           "Madurai"%string (lit 129) madurai_request).
  - exact (proj1 listed_price_charged).
  - reflexivity.
  - right. right. right. left. reflexivity.
  - reflexivity.
  - reflexivity.
  - reflexivity.
Defined.

(** X6.  The catalog entry used for a request is the first one whose name
    is the requested one: entries after it, of the same name or not, change
    neither the response nor the calls. *)
Theorem first_match_wins (w : world) (before after : list Location.t)
    (l : Location.t) (p : BookingCreate.t) :
  Location.name l = BookingCreate.location p ->
  (forall x, In x before -> Location.name x <> BookingCreate.location p) ->
  outcome w (before ++ l :: after) p = outcome w [l] p
  /\ calls w (before ++ l :: after) p = calls w [l] p.
Proof.
  intros Hl Hb.
  assert (Hf : find (same_name (BookingCreate.location p)) (before ++ l :: after)
               = Some l).
  { induction before as [ | x before IH ]; simpl.
    - unfold same_name. now rewrite Hl, String.eqb_refl.
    - unfold same_name at 1.
      destruct (String.eqb_spec (Location.name x) (BookingCreate.location p))
        as [Heq | _].
      + exfalso. apply (Hb x); [ now left | exact Heq ].
      + apply IH. intros y Hy. apply Hb. now right. }
  assert (Hf' : find (same_name (BookingCreate.location p)) [l] = Some l).
  { simpl. unfold same_name. now rewrite Hl, String.eqb_refl. }
  rewrite !outcome_steps, !calls_steps. unfold steps. rewrite Hf, Hf'. auto.
Qed.

Lemma first_match_wins_witness :
  outcome sample_world
    ([] ++ Location.mk "Chennai" "" (lit 149) true [] :: LOCATIONS)
    chennai_request
  = outcome sample_world [Location.mk "Chennai" "" (lit 149) true []]
      chennai_request
  /\ calls sample_world
       ([] ++ Location.mk "Chennai" "" (lit 149) true [] :: LOCATIONS)
       chennai_request
     = calls sample_world [Location.mk "Chennai" "" (lit 149) true []]
         chennai_request.
Proof.
  apply (first_match_wins sample_world [] LOCATIONS
           (Location.mk "Chennai" "" (lit 149) true []) chennai_request).
  - reflexivity.
  - intros x [].
Defined.

(** ** The identifier and the random bytes *)

Lemma uuid4_high_bits (r : Z) :
  Z.shiftr (Uuid.uuid4 r) 96 = first_four_bytes r.
Proof.
  unfold Uuid.uuid4, first_four_bytes.
  rewrite Z.shiftr_lor, Z.shiftr_land, Z.shiftr_lor, Z.shiftr_land.
  change (Z.shiftr (Z.lnot (Z.shiftl 0xc000 48)) 96) with (-1).
  change (Z.shiftr (Z.lnot (Z.shiftl 0xf000 64)) 96) with (-1).
  change (Z.shiftr (Z.shiftl 0x8000 48) 96) with 0.
  change (Z.shiftr (Z.shiftl 4 76) 96) with 0.
  now rewrite !Z.land_m1_r, !Z.lor_0_r.
Qed.

Lemma first_four_bytes_range (r : Z) : 0 <= first_four_bytes r < 2 ^ 32.
Proof.
  unfold first_four_bytes. rewrite Z.land_ones, Z.shiftr_div_pow2 by lia.
  pose proof (Z.mod_pos_bound r (2 ^ 128) ltac:(reflexivity)) as H.
  split.
  - apply Z.div_pos; lia.
  - apply Z.div_lt_upper_bound; [ reflexivity | ].
    change (2 ^ 96 * 2 ^ 32) with (2 ^ 128). lia.
Qed.

Lemma new_booking_id_hex (w : world) :
  new_booking_id w = upper (Uuid.hex 8 (first_four_bytes (os_urandom w))).
Proof.
  unfold new_booking_id. rewrite <- uuid4_high_bits.
  set (u := Uuid.uuid4 (os_urandom w)). f_equal.
Qed.

Lemma hexdigit_upper_hex (n : Z) :
  0 <= n < 16 -> is_upper_hex (upper_char (Uuid.hexdigit n)) = true.
Proof.
  intro H.
  assert (Hall : forallb (fun k => is_upper_hex
                                     (upper_char (Uuid.hexdigit (Z.of_nat k))))
                         (seq 0 16) = true) by reflexivity.
  rewrite <- (Z2Nat.id n) by lia.
  apply (proj1 (forallb_forall _ _) Hall). apply in_seq. lia.
Qed.

(** X7.  The identifier of a successful booking is written with the
    sixteen characters [0-9] and [A-F] only. *)
Theorem booking_id_is_hex (w : world) (c : list Location.t)
    (p : BookingCreate.t) (r : BookingResponse) :
  outcome w c p = Ok r ->
  string_forall is_upper_hex (booking_id r) = true.
Proof.
  intro Ho. apply outcome_ok_priced in Ho as [-> _]. cbn [booking_id].
  rewrite new_booking_id_hex. cbn [Uuid.hex upper string_forall].
  rewrite !hexdigit_upper_hex by apply nibble_range. reflexivity.
Qed.

Lemma booking_id_is_hex_witness :
  string_forall is_upper_hex "1234ABCD" = true.
Proof.
  apply (booking_id_is_hex sample_world LOCATIONS chennai_request
           {| booking_id := "1234ABCD" |}).
  reflexivity.
Defined.

Lemma unhex_hexdigit (n : Z) :
  0 <= n < 16 -> hex_value (upper_char (Uuid.hexdigit n)) = n.
Proof.
  intro H.
  assert (Hall : forallb (fun k => hex_value (upper_char
                                                (Uuid.hexdigit (Z.of_nat k)))
                                   =? Z.of_nat k)
                         (seq 0 16) = true) by reflexivity.
  rewrite <- (Z2Nat.id n) at 2 by lia.
  rewrite <- (Z2Nat.id n) at 1 by lia.
  apply Z.eqb_eq.
  apply (proj1 (forallb_forall _ _) Hall (Z.to_nat n)). apply in_seq. lia.
Qed.

Lemma nibble_div (a k : Z) :
  0 <= k -> Z.land (Z.shiftr a (4 * k)) 15 = (a / 2 ^ (4 * k)) mod 16.
Proof.
  intro Hk. change 15 with (Z.ones 4).
  now rewrite Z.land_ones, Z.shiftr_div_pow2 by lia.
Qed.

(** Reading back the eight characters gives the number they were written
    from. *)
Lemma unhex_hex (a : Z) :
  0 <= a < 2 ^ 32 -> unhex 0 (upper (Uuid.hex 8 a)) = a.
Proof.
  intro Ha. cbn [Uuid.hex upper unhex Z.of_nat].
  rewrite !unhex_hexdigit by apply nibble_range.
  rewrite !nibble_div by lia.
  change (2 ^ 32) with 4294967296 in Ha. cbn [Z.mul Pos.mul Z.of_nat Pos.of_succ_nat Pos.succ].
  change (2 ^ 28) with 268435456. change (2 ^ 24) with 16777216.
  change (2 ^ 20) with 1048576. change (2 ^ 16) with 65536.
  change (2 ^ 12) with 4096. change (2 ^ 8) with 256.
  change (2 ^ 4) with 16. change (2 ^ 0) with 1.
  Z.div_mod_to_equations. lia.
Qed.

(** X8.  Two draws of random bytes give the same identifier exactly when
    their first four bytes agree: the other twelve bytes play no part, and
    there are [2^32] identifiers. *)
Theorem booking_id_collision (w1 w2 : world) :
  new_booking_id w1 = new_booking_id w2
  <-> first_four_bytes (os_urandom w1) = first_four_bytes (os_urandom w2).
Proof.
  rewrite !new_booking_id_hex. split; intro H.
  - rewrite <- (unhex_hex (first_four_bytes (os_urandom w1)))
      by apply first_four_bytes_range.
    rewrite <- (unhex_hex (first_four_bytes (os_urandom w2)))
      by apply first_four_bytes_range.
    now rewrite H.
  - now rewrite H.
Qed.

Lemma booking_id_collision_witness :
  new_booking_id sample_world
  = new_booking_id (date_world 0x1234abcd000000000000000000000000 db_down).
Proof.
  apply (proj2 (booking_id_collision sample_world
                  (date_world 0x1234abcd000000000000000000000000 db_down))).
  reflexivity.
Defined.

(** ** The database probe *)

(** X9.  Unless listing the collections raises something outside
    [Exception], [test_database] answers: the backend is reported running,
    the connection is reported as connected exactly when [db] is
    initialised, at most ten collection names are shown, the first ten of
    the listing in its order, and none when there is no [db] or the listing
    failed. *)
Theorem probe_answers (pr : probe) :
  (forall e str_e, db pr = Some (ListingRaises e str_e) ->
                   is_Exception e = true) ->
  exists r,
    test_database pr = Done r
    /\ backend r = CHECK_MARK ++ ascii_text " Running"
    /\ (connection_status r = ascii_text "Connected" <-> db pr <> None)
    /\ (connection_status r = ascii_text "Not Connected" <-> db pr = None)
    /\ (List.length (collections r) <= 10)%nat
    /\ collections r
       = match db pr with
         | Some (Collections names) => firstn 10 names
         | _ => []
         end.
Proof.
  intro H. unfold test_database.
  assert (Hiff : forall (A B : Prop), A -> B -> (A <-> B)) by tauto.
  assert (Hno : forall (A B : Prop), ~ A -> ~ B -> (A <-> B)) by tauto.
  destruct (db pr) as [[names | e str_e] | ] eqn:Hdb;
    cbn [list_collection_names except_Exception].
  - eexists. split; [ reflexivity | ].
    cbn [backend connection_status collections set_database
         set_connection_status set_collections].
    split; [ reflexivity | ].
    split; [ apply Hiff; [ reflexivity | discriminate ] | ].
    split; [ apply Hno; discriminate | ].
    split; [ rewrite length_firstn; lia | reflexivity ].
  - rewrite (H e str_e eq_refl). cbn [except_Exception].
    eexists. split; [ reflexivity | ].
    cbn [backend connection_status collections set_database
         set_connection_status set_collections].
    split; [ reflexivity | ].
    split; [ apply Hiff; [ reflexivity | discriminate ] | ].
    split; [ apply Hno; discriminate | ].
    split; [ simpl; lia | reflexivity ].
  - eexists. split; [ reflexivity | ].
    cbn [backend connection_status collections set_database
         set_connection_status set_collections].
    split; [ reflexivity | ].
    split; [ apply Hno; [ discriminate | congruence ] | ].
    split; [ apply Hiff; reflexivity | ].
    split; [ simpl; lia | reflexivity ].
Qed.

Lemma probe_answers_witness :
  exists r,
    test_database sample_probe = Done r
    /\ backend r = CHECK_MARK ++ ascii_text " Running"
    /\ (connection_status r = ascii_text "Connected" <-> db sample_probe <> None)
    /\ (connection_status r = ascii_text "Not Connected"
        <-> db sample_probe = None)
    /\ (List.length (collections r) <= 10)%nat
    /\ collections r
       = match db sample_probe with
         | Some (Collections names) => firstn 10 names
         | _ => []
         end.
Proof.
  apply (probe_answers sample_probe).
  intros e str_e H. discriminate H.
Defined.

(** X10.  When listing the collections raises an [Exception], the probe
    still answers, reports the connection as connected, shows no
    collection, and shows at most the first 80 characters of the error
    text after a fixed prefix; what is raised outside [Exception] leaves
    the probe as it is. *)
Theorem probe_error_text (pr : probe) (e : exn) (str_e : text) :
  db pr = Some (ListingRaises e str_e) ->
  (is_Exception e = true ->
   exists r,
     test_database pr = Done r
     /\ database r = WARNING_SIGN ++ ascii_text " Connected but Error: "
                     ++ firstn 80 str_e
     /\ (List.length (database r) <= 24 + 80)%nat
     /\ connection_status r = ascii_text "Connected"
     /\ collections r = [])
  /\ (is_Exception e = false -> test_database pr = Failed e str_e).
Proof.
  intro Hdb. unfold test_database. rewrite Hdb.
  cbn [list_collection_names except_Exception].
  split; intro He; rewrite He; cbn [except_Exception].
  - eexists. split; [ reflexivity | ]. cbn [database connection_status
      collections set_database set_connection_status set_collections].
    repeat split.
    rewrite !length_app, length_firstn.
    change (List.length WARNING_SIGN) with 2%nat.
    change (List.length (ascii_text " Connected but Error: ")) with 22%nat.
    lia.
  - rewrite He. reflexivity.
Qed.

Lemma probe_error_text_witness :
  exists r,
    test_database failing_probe = Done r
    /\ database r = WARNING_SIGN ++ ascii_text " Connected but Error: "
                    ++ firstn 80 (ascii_text "timeout")
    /\ (List.length (database r) <= 24 + 80)%nat
    /\ connection_status r = ascii_text "Connected"
    /\ collections r = [].
Proof.
  apply (proj1 (probe_error_text failing_probe (Exception "timeout")
                  (ascii_text "timeout") eq_refl)).
  reflexivity.
Defined.

(** X11.  An environment variable that is set to the empty string is
    reported like one that is not set; the two variables are reported as
    set exactly when they hold a non-empty value, whatever [db] does. *)
Theorem probe_environment (pr : probe) (r : diagnosis) :
  test_database pr = Done r ->
  (database_url r = CHECK_MARK ++ ascii_text " Set"
   <-> exists c t, getenv pr "DATABASE_URL" = Some (c :: t))
  /\ (database_url r = CROSS_MARK ++ ascii_text " Not Set"
      <-> getenv pr "DATABASE_URL" = None
          \/ getenv pr "DATABASE_URL" = Some [])
  /\ (database_name r = CHECK_MARK ++ ascii_text " Set"
      <-> exists c t, getenv pr "DATABASE_NAME" = Some (c :: t))
  /\ (database_name r = CROSS_MARK ++ ascii_text " Not Set"
      <-> getenv pr "DATABASE_NAME" = None
          \/ getenv pr "DATABASE_NAME" = Some []).
Proof.
  assert (Hset : forall o,
             (set_or_not o = CHECK_MARK ++ ascii_text " Set"
              <-> exists c t, o = Some (c :: t))
             /\ (set_or_not o = CROSS_MARK ++ ascii_text " Not Set"
                 <-> o = None \/ o = Some [])).
  { assert (HAB : CHECK_MARK ++ ascii_text " Set"
                  <> CROSS_MARK ++ ascii_text " Not Set") by (intro E; vm_compute in E; discriminate E).
    intros [[ | c t] | ]; unfold set_or_not, truthy; (split; split); intro H;
      solve [ reflexivity | eauto | (exfalso; apply HAB; congruence)
            | (destruct H as (? & ? & H); discriminate H)
            | (destruct H as [H | H]; discriminate H) ]. }
  intro H.
  assert (Hr : database_url r = set_or_not (getenv pr "DATABASE_URL")
               /\ database_name r = set_or_not (getenv pr "DATABASE_NAME")).
  { unfold test_database in H.
    destruct (db pr) as [[names | e str_e] | ];
      cbn [list_collection_names except_Exception] in H.
    - injection H as <-. auto.
    - destruct (is_Exception e) eqn:He; cbn [except_Exception] in H.
      + injection H as <-. auto.
      + rewrite He in H. discriminate H.
    - injection H as <-. auto. }
  destruct Hr as [-> ->].
  destruct (Hset (getenv pr "DATABASE_URL")) as [? ?].
  destruct (Hset (getenv pr "DATABASE_NAME")) as [? ?]. auto.
Qed.

Lemma probe_environment_witness :
  (exists c t, getenv sample_probe "DATABASE_URL" = Some (c :: t))
  /\ (getenv sample_probe "DATABASE_NAME" = None
      \/ getenv sample_probe "DATABASE_NAME" = Some []).
Proof.
  destruct (probe_environment sample_probe
              {| backend := CHECK_MARK ++ ascii_text " Running";
                 database := CHECK_MARK ++ ascii_text " Connected & Working";
                 database_url := CHECK_MARK ++ ascii_text " Set";
                 database_name := CROSS_MARK ++ ascii_text " Not Set";
                 connection_status := ascii_text "Connected";
                 collections := map ascii_text
                   ["a"; "b"; "c"; "d"; "e"; "f"; "g"; "h"; "i"; "j"]%string |}
              eq_refl) as (H1 & _ & _ & H4).
  split.
  - apply H1. reflexivity.
  - apply H4. reflexivity.
Defined.

(** ** Nights between two date strings *)

Import Datetime.

Lemma fromisoformat_date_inv (s : string) (d : datetime) :
  fromisoformat_date s = Some d ->
  _check_date_fields (year d) (month d) (day d) = true
  /\ hour d = 0 /\ minute d = 0 /\ second d = 0 /\ microsecond d = 0
  /\ tzinfo d = None /\ String.length s = 10%nat.
Proof.
  unfold fromisoformat_date.
  assert (Hlen : String.length s = List.length (list_ascii_of_string s)).
  { induction s as [ | c s IH ]; simpl; congruence. }
  destruct (list_ascii_of_string s)
    as [ | y1 [ | y2 [ | y3 [ | y4 [ | s1 [ | m1 [ | m2 [ | s2 [ | d1 [ | d2 [ | ? ? ]]]]]]]]]]];
    try discriminate.
  destruct (_ && _); [ | discriminate ].
  destruct (parse_digits 0 [y1; y2; y3; y4]) as [y | ]; [ | discriminate ].
  destruct (parse_digits 0 [m1; m2]) as [m | ]; [ | discriminate ].
  destruct (parse_digits 0 [d1; d2]) as [dd | ]; [ | discriminate ].
  destruct (_check_date_fields y m dd) eqn:Hc; [ | discriminate ].
  intro H. injection H as <-. cbn. auto 10.
Qed.

Lemma check_date_fields_inv (y m d : Z) :
  _check_date_fields y m d = true ->
  1 <= y <= 9999 /\ 1 <= m <= 12 /\ 1 <= d <= _days_in_month y m.
Proof.
  unfold _check_date_fields, MINYEAR, MAXYEAR. intro H.
  repeat (apply andb_true_iff in H as [H ?]).
  repeat match goal with
         | H : (_ <=? _) = true |- _ => apply Z.leb_le in H
         end.
  lia.
Qed.

Lemma days_before_year_succ (y : Z) :
  _days_before_year (y + 1) = _days_before_year y + 365 + leap_day y.
Proof.
  unfold _days_before_year, leap_day, _is_leap. cbv zeta.
  replace (y + 1 - 1) with y by lia.
  destruct (Z.eqb_spec (y mod 4) 0), (Z.eqb_spec (y mod 100) 0),
           (Z.eqb_spec (y mod 400) 0); cbn [negb andb orb];
    Z.div_mod_to_equations; lia.
Qed.

Lemma days_before_year_mono (y y' : Z) :
  y <= y' -> _days_before_year y <= _days_before_year y'.
Proof.
  unfold _days_before_year. cbv zeta. intro H.
  Z.div_mod_to_equations. lia.
Qed.

Lemma month_cases (m : Z) : 1 <= m <= 12 -> In m months.
Proof.
  intro H. rewrite <- (Z2Nat.id m) by lia.
  change months with (map Z.of_nat (seq 1 12)).
  apply in_map. apply in_seq. lia.
Qed.

Lemma month_tables (leap : bool) (m : Z) :
  1 <= m <= 12 ->
  0 <= days_before_month_of leap m
  /\ days_before_month_of leap m + days_in_month_of leap m
     <= 365 + (if leap then 1 else 0)
  /\ forall m', 1 <= m' <= 12 -> m < m' ->
       days_before_month_of leap m + days_in_month_of leap m
       <= days_before_month_of leap m'.
Proof.
  intro Hm. apply month_cases in Hm.
  assert (Hfit : month_tables_fit leap = true) by (destruct leap; reflexivity).
  unfold month_tables_fit in Hfit.
  pose proof (proj1 (forallb_forall _ _) Hfit m Hm) as H.
  apply andb_true_iff in H as [H H3]. apply andb_true_iff in H as [H1 H2].
  apply Z.leb_le in H1, H2. split; [ exact H1 | ]. split; [ exact H2 | ].
  intros m' Hm' Hlt. apply month_cases in Hm'.
  pose proof (proj1 (forallb_forall _ _) H3 m' Hm') as H4.
  apply orb_true_iff in H4 as [H4 | H4].
  - apply negb_true_iff, Z.ltb_ge in H4. lia.
  - now apply Z.leb_le in H4.
Qed.

(** Inside a year, the day number grows with the month and the day. *)
Lemma day_of_year_bounds (y m d : Z) :
  1 <= m <= 12 -> 1 <= d <= _days_in_month y m ->
  1 <= _days_before_month y m + d <= 365 + leap_day y.
Proof.
  intros Hm Hd.
  destruct (month_tables (_is_leap y) m Hm) as (H1 & H2 & _).
  change (_days_in_month y m) with (days_in_month_of (_is_leap y) m) in Hd.
  change (_days_before_month y m) with (days_before_month_of (_is_leap y) m).
  unfold leap_day. lia.
Qed.

Lemma day_of_year_mono (y m d m' d' : Z) :
  1 <= m <= 12 -> 1 <= d <= _days_in_month y m ->
  1 <= m' <= 12 -> 1 <= d' <= _days_in_month y m' ->
  m < m' ->
  _days_before_month y m + d < _days_before_month y m' + d'.
Proof.
  intros Hm Hd Hm' Hd' Hlt.
  destruct (month_tables (_is_leap y) m Hm) as (_ & _ & H).
  specialize (H m' Hm' Hlt).
  change (_days_in_month y m) with (days_in_month_of (_is_leap y) m) in Hd.
  change (_days_before_month y m) with (days_before_month_of (_is_leap y) m).
  change (_days_before_month y m') with (days_before_month_of (_is_leap y) m').
  lia.
Qed.

Lemma ordinal_bounds (y m d : Z) :
  _check_date_fields y m d = true -> 1 <= _ymd2ord y m d <= 3652059.
Proof.
  intro H. apply check_date_fields_inv in H as (Hy & Hm & Hd).
  pose proof (day_of_year_bounds y m d Hm Hd) as Hb.
  pose proof (days_before_year_succ y) as Hs.
  pose proof (days_before_year_mono 1 y ltac:(lia)) as Hlo.
  pose proof (days_before_year_mono (y + 1) 10000 ltac:(lia)) as Hhi.
  change (_days_before_year 1) with 0 in Hlo.
  change (_days_before_year 10000) with 3652059 in Hhi.
  unfold _ymd2ord. lia.
Qed.

(** A later calendar date has a larger day number. *)
Lemma ordinal_mono (a b : datetime) :
  _check_date_fields (year a) (month a) (day a) = true ->
  _check_date_fields (year b) (month b) (day b) = true ->
  date_before a b = true -> toordinal a < toordinal b.
Proof.
  intros Ha Hb H.
  apply check_date_fields_inv in Ha as (Hya & Hma & Hda).
  apply check_date_fields_inv in Hb as (Hyb & Hmb & Hdb).
  unfold date_before in H. unfold toordinal, _ymd2ord.
  apply orb_true_iff in H as [H | H].
  - apply Z.ltb_lt in H.
    pose proof (day_of_year_bounds _ _ _ Hma Hda).
    pose proof (day_of_year_bounds _ _ _ Hmb Hdb).
    pose proof (days_before_year_succ (year a)).
    pose proof (days_before_year_mono (year a + 1) (year b) ltac:(lia)). lia.
  - apply andb_true_iff in H as [Hy H]. apply Z.eqb_eq in Hy.
    rewrite Hy in *. apply orb_true_iff in H as [H | H].
    + apply Z.ltb_lt in H.
      pose proof (day_of_year_mono _ _ _ _ _ Hma Hda Hmb Hdb H). lia.
    + apply andb_true_iff in H as [Hm H]. apply Z.eqb_eq in Hm.
      apply Z.ltb_lt in H. rewrite Hm. lia.
Qed.

Lemma date_before_total (a b : datetime) :
  date_before a b = false ->
  date_before b a = true
  \/ (year a = year b /\ month a = month b /\ day a = day b).
Proof.
  unfold date_before. intro H.
  destruct (Z.ltb_spec (year a) (year b)); [ discriminate | ].
  destruct (Z.ltb_spec (year b) (year a)); [ now left | ].
  assert (Hy : year a = year b) by lia. rewrite Hy, Z.eqb_refl in *.
  cbn [orb andb] in *.
  destruct (Z.ltb_spec (month a) (month b)); [ discriminate | ].
  destruct (Z.ltb_spec (month b) (month a)); [ now left | ].
  assert (Hm : month a = month b) by lia. rewrite Hm, Z.eqb_refl in *.
  cbn [orb andb] in *.
  destruct (Z.ltb_spec (day a) (day b)); [ discriminate | ].
  destruct (Z.ltb_spec (day b) (day a)); [ now left | right; lia ].
Qed.

Lemma stay_date_only (random_bytes : Z) (db : string -> Booking.t -> option exn)
    (p : BookingCreate.t) (d1 d2 : datetime) :
  fromisoformat_date (BookingCreate.check_in_date p) = Some d1 ->
  fromisoformat_date (BookingCreate.check_out_date p) = Some d2 ->
  stay (date_world random_bytes db) p = Some (toordinal d2 - toordinal d1).
Proof.
  intros H1 H2. unfold stay, date_world. cbn [fromisoformat]. rewrite H1, H2.
  apply fromisoformat_date_inv in H1 as (_ & Hh1 & Hm1 & Hs1 & Hu1 & Ht1 & _).
  apply fromisoformat_date_inv in H2 as (_ & Hh2 & Hm2 & Hs2 & Hu2 & Ht2 & _).
  unfold sub, mk_timedelta, days. rewrite Ht1, Ht2, Hh1, Hm1, Hs1, Hu1, Hh2, Hm2, Hs2, Hu2.
  cbn [option_map]. f_equal.
  replace (((toordinal d2 - toordinal d1) * 86400 + (0 + 0 * 60 + 0 * 3600 - (0 + 0 * 60 + 0 * 3600))) * 1000000 + (0 - 0))
    with ((toordinal d2 - toordinal d1) * 86400000000) by lia.
  now rewrite Z.div_mul.
Qed.

(** X12.  For two [YYYY-MM-DD] strings the number of nights is the
    difference of the day numbers of the two dates, at most 3652058 either
    way, and it is 1 or more exactly when the check-out date is a later
    calendar date than the check-in date. *)
Theorem nights_of_date_strings (random_bytes : Z)
    (db : string -> Booking.t -> option exn) (p : BookingCreate.t)
    (d1 d2 : datetime) :
  fromisoformat_date (BookingCreate.check_in_date p) = Some d1 ->
  fromisoformat_date (BookingCreate.check_out_date p) = Some d2 ->
  exists n,
    stay (date_world random_bytes db) p = Some n
    /\ n = toordinal d2 - toordinal d1
    /\ -3652058 <= n <= 3652058
    /\ (1 <= n <-> date_before d1 d2 = true).
Proof.
  intros H1 H2. exists (toordinal d2 - toordinal d1).
  split; [ now apply stay_date_only | ]. split; [ reflexivity | ].
  apply fromisoformat_date_inv in H1 as (C1 & _).
  apply fromisoformat_date_inv in H2 as (C2 & _).
  pose proof (ordinal_bounds _ _ _ C1) as B1.
  pose proof (ordinal_bounds _ _ _ C2) as B2.
  fold (toordinal d1) in B1. fold (toordinal d2) in B2.
  split; [ lia | ]. split.
  - intro Hn. destruct (date_before d1 d2) eqn:Hb; [ reflexivity | exfalso ].
    apply date_before_total in Hb as [Hb | (Hy & Hm & Hd)].
    + pose proof (ordinal_mono _ _ C2 C1 Hb). lia.
    + unfold toordinal in Hn. rewrite Hy, Hm, Hd in Hn. lia.
  - intro Hb. pose proof (ordinal_mono _ _ C1 C2 Hb). lia.
Qed.

Lemma nights_of_date_strings_witness :
  exists n,
    stay (date_world 0 db_up) chennai_request = Some n
    /\ n = 738889 - 738886
    /\ -3652058 <= n <= 3652058
    /\ (1 <= n <->
        date_before
          {| year := 2024; month := 1; day := 1; hour := 0; minute := 0;
             second := 0; microsecond := 0; tzinfo := None |}
          {| year := 2024; month := 1; day := 4; hour := 0; minute := 0;
             second := 0; microsecond := 0; tzinfo := None |} = true).
Proof.
  apply (nights_of_date_strings 0 db_up chennai_request
           {| year := 2024; month := 1; day := 1; hour := 0; minute := 0;
              second := 0; microsecond := 0; tzinfo := None |}
           {| year := 2024; month := 1; day := 4; hour := 0; minute := 0;
              second := 0; microsecond := 0; tzinfo := None |});
    reflexivity.
Defined.

(** X13.  With two [YYYY-MM-DD] dates, the second one later than the first,
    a request for a location of the static catalog whose add-ons the
    interface accepted and whose quantities convert is always booked, for
    as many nights as there are days between the dates. *)
Theorem later_date_books (random_bytes : Z)
    (db : string -> Booking.t -> option exn) (p : BookingCreate.t)
    (d1 d2 : datetime) :
  BookingCreate.validate p = true -> convertible p ->
  raises_only_Exception (date_world random_bytes db) ->
  (exists l, In l LOCATIONS /\ Location.name l = BookingCreate.location p) ->
  fromisoformat_date (BookingCreate.check_in_date p) = Some d1 ->
  fromisoformat_date (BookingCreate.check_out_date p) = Some d2 ->
  date_before d1 d2 = true ->
  outcome (date_world random_bytes db) LOCATIONS p
  = Ok {| booking_id := new_booking_id (date_world random_bytes db) |}
  /\ exists b,
       documents (calls (date_world random_bytes db) LOCATIONS p) = [b]
       /\ Booking.nights b = toordinal d2 - toordinal d1.
Proof.
  intros Hp Hc Hw Hl H1 H2 Hb. apply find_some_iff in Hl as [l Hl].
  pose proof (stay_date_only random_bytes db p d1 d2 H1 H2) as Hs.
  apply fromisoformat_date_inv in H1 as (C1 & _).
  apply fromisoformat_date_inv in H2 as (C2 & _).
  pose proof (ordinal_bounds _ _ _ C1) as B1.
  pose proof (ordinal_bounds _ _ _ C2) as B2.
  fold (toordinal d1) in B1. fold (toordinal d2) in B2.
  pose proof (ordinal_mono _ _ C1 C2 Hb) as Hlt.
  destruct (reaches_persistence (date_world random_bytes db) LOCATIONS p l
              (toordinal d2 - toordinal d1))
    as (nf & products & Hpr & _); auto.
  - eapply LOCATIONS_price_nonneg; eauto.
  - split; [ lia | ].
    apply Z.lt_le_trans with (2 ^ 22); [ change (2 ^ 22) with 4194304; lia | ].
    apply Z.pow_le_mono_r; lia.
  - split; [ eapply priced_outcome; eauto | ].
    eexists. split; [ eapply priced_documents; eauto | reflexivity ].
Qed.

Lemma later_date_books_witness :
  outcome (date_world 0 db_down) LOCATIONS chennai_request
  = Ok {| booking_id := new_booking_id (date_world 0 db_down) |}
  /\ exists b,
       documents (calls (date_world 0 db_down) LOCATIONS chennai_request) = [b]
       /\ Booking.nights b = 738889 - 738886.
Proof.
  apply (later_date_books 0 db_down chennai_request
           {| year := 2024; month := 1; day := 1; hour := 0; minute := 0;
              second := 0; microsecond := 0; tzinfo := None |}
           {| year := 2024; month := 1; day := 4; hour := 0; minute := 0;
              second := 0; microsecond := 0; tzinfo := None |}).
  - reflexivity.
  - repeat constructor.
  - intros c b e H. injection H as <-. reflexivity.
  - eexists. split; [ left; reflexivity | reflexivity ].
  - reflexivity.
  - reflexivity.
  - reflexivity.
Defined.

(** ** Order of rounded values *)

Module Float64Order.
Import Float64 Float64Facts.

Local Notation "'fexp64'" := (fexp 53 1024).
Local Notation "'bounded64'" := (bounded 53 1024).

Lemma shr_1_record (m : Z) (r s : bool) :
  0 <= m ->
  shr_1 {| shr_m := m; shr_r := r; shr_s := s |}
  = {| shr_m := m / 2; shr_r := Z.odd m; shr_s := r || s |}.
Proof.
  intro Hm. destruct m as [ | [p | p | ] | p ]; try lia; cbn [shr_1].
  - reflexivity.
  - rewrite <- Z.div2_div. reflexivity.
  - rewrite <- Z.div2_div. reflexivity.
  - reflexivity.
Qed.

Lemma mod_pow2_succ (m k : Z) :
  0 <= k ->
  m mod 2 ^ (k + 1) = 2 ^ k * ((m / 2 ^ k) mod 2) + m mod 2 ^ k.
Proof.
  intro Hk. rewrite Z.pow_add_r, Z.pow_1_r by lia.
  assert (0 < 2 ^ k) by (apply Z.pow_pos_nonneg; lia).
  rewrite Z.rem_mul_r by lia. lia.
Qed.

(** What [k] shifts leave of [m]: the quotient, the last bit shifted out
    and whether anything was shifted out before it. *)
Lemma shr_iter_record (k : nat) (m : Z) :
  0 <= m ->
  Nat.iter (S k) shr_1 {| shr_m := m; shr_r := false; shr_s := false |}
  = {| shr_m := m / 2 ^ Z.of_nat (S k);
       shr_r := Z.odd (m / 2 ^ Z.of_nat k);
       shr_s := negb (m mod 2 ^ Z.of_nat k =? 0) |}.
Proof.
  intro Hm. induction k as [ | k IH ].
  - cbn [Nat.iter]. rewrite shr_1_record by exact Hm.
    change (2 ^ Z.of_nat 1) with 2. change (2 ^ Z.of_nat 0) with 1.
    now rewrite Z.div_1_r, Z.mod_1_r.
  - change (Nat.iter (S (S k)) shr_1 ?x) with (shr_1 (Nat.iter (S k) shr_1 x)).
    rewrite IH.
    assert (0 < 2 ^ Z.of_nat k) by (apply Z.pow_pos_nonneg; lia).
    assert (0 < 2 ^ Z.of_nat (S k)) by (apply Z.pow_pos_nonneg; lia).
    rewrite shr_1_record by (apply Z.div_pos; lia).
    f_equal.
    + rewrite Z.div_div by lia. f_equal.
      rewrite (Nat2Z.inj_succ (S k)), Z.pow_succ_r by lia. lia.
    + replace (Z.of_nat (S k)) with (Z.of_nat k + 1) by lia.
      rewrite mod_pow2_succ by lia.
      rewrite (Zmod_odd (m / 2 ^ Z.of_nat k)).
      pose proof (Z.mod_pos_bound m (2 ^ Z.of_nat k) ltac:(lia)).
      destruct (Z.odd (m / 2 ^ Z.of_nat k));
        destruct (Z.eqb_spec (m mod 2 ^ Z.of_nat k) 0) as [-> | ?]; cbn [negb orb];
        symmetry; first [ apply negb_true_iff, Z.eqb_neq
                        | apply negb_false_iff, Z.eqb_eq ]; lia.
Qed.

Lemma rne_cases (m k : Z) : rne m k = m / 2 ^ k \/ rne m k = m / 2 ^ k + 1.
Proof.
  unfold rne. cbv zeta.
  destruct (_ <? _); [ auto | ]. destruct (_ <? _); [ auto | ].
  destruct (Z.even _); auto.
Qed.

Lemma rne_zero (m : Z) : rne m 0 = m.
Proof.
  unfold rne. cbv zeta. change (2 ^ 0) with 1.
  now rewrite Z.mod_1_r, Z.div_1_r.
Qed.

(** The two roundings of [SpecFloat] and [rne] agree. *)
Lemma round_shifted (k : positive) (m : Z) :
  0 <= m ->
  let mrs := iter_pos shr_1 k {| shr_m := m; shr_r := false; shr_s := false |} in
  round_nearest_even (shr_m mrs) (loc_of_shr_record mrs) = rne m (Zpos k).
Proof.
  intro Hm. cbv zeta. rewrite iter_pos_nat.
  destruct (Pos2Nat.is_succ k) as [n Hn]. rewrite Hn, shr_iter_record by exact Hm.
  assert (Hk : Zpos k = Z.of_nat n + 1) by lia.
  unfold rne. cbv zeta. rewrite Hk, mod_pow2_succ by lia.
  replace (Z.of_nat (S n)) with (Z.of_nat n + 1) by lia.
  rewrite (Z.pow_add_r 2 (Z.of_nat n) 1), Z.pow_1_r by lia.
  set (P := 2 ^ Z.of_nat n).
  assert (HP : 0 < P) by (apply Z.pow_pos_nonneg; lia).
  rewrite (Zmod_odd (m / P)).
  pose proof (Z.mod_pos_bound m P HP) as Hl.
  cbn [shr_m loc_of_shr_record shr_r shr_s].
  destruct (Z.odd (m / P));
    destruct (Z.eqb_spec (m mod P) 0) as [Hz | Hz]; cbn [negb round_nearest_even].
  - destruct (Z.ltb_spec (2 * (P * 1 + m mod P)) (P * 2)); [ lia | ].
    destruct (Z.ltb_spec (P * 2) (2 * (P * 1 + m mod P))); [ lia | ].
    reflexivity.
  - destruct (Z.ltb_spec (2 * (P * 1 + m mod P)) (P * 2)); [ lia | ].
    destruct (Z.ltb_spec (P * 2) (2 * (P * 1 + m mod P))); [ | lia ].
    reflexivity.
  - destruct (Z.ltb_spec (2 * (P * 0 + m mod P)) (P * 2)); [ | lia ].
    reflexivity.
  - destruct (Z.ltb_spec (2 * (P * 0 + m mod P)) (P * 2)); [ | lia ].
    reflexivity.
Qed.

Lemma rne_mono (m m' k : Z) :
  0 <= k -> 0 <= m <= m' -> rne m k <= rne m' k.
Proof.
  intros Hk Hm. unfold rne. cbv zeta.
  assert (HP : 0 < 2 ^ k) by (apply Z.pow_pos_nonneg; lia).
  set (P := 2 ^ k) in *.
  pose proof (Z.div_mod m P ltac:(lia)) as E.
  pose proof (Z.div_mod m' P ltac:(lia)) as E'.
  pose proof (Z.mod_pos_bound m P HP) as B.
  pose proof (Z.mod_pos_bound m' P HP) as B'.
  assert (Hq : m / P <= m' / P) by (apply Z.div_le_mono; lia).
  destruct (Z.eq_dec (m / P) (m' / P)) as [Heq | Hne].
  - rewrite <- Heq in *.
    assert (m mod P <= m' mod P) by lia.
    destruct (Z.ltb_spec (2 * (m mod P)) P);
      destruct (Z.ltb_spec (2 * (m' mod P)) P); try lia;
      destruct (Z.ltb_spec P (2 * (m mod P)));
      destruct (Z.ltb_spec P (2 * (m' mod P))); try lia;
      destruct (Z.even (m / P)); lia.
  - assert (m / P + 1 <= m' / P) by lia.
    destruct (Z.ltb_spec (2 * (m mod P)) P);
      destruct (Z.ltb_spec (2 * (m' mod P)) P);
      destruct (Z.ltb_spec P (2 * (m mod P)));
      destruct (Z.ltb_spec P (2 * (m' mod P)));
      destruct (Z.even (m / P)); destruct (Z.even (m' / P)); lia.
Qed.

(** Writing the same value with a longer mantissa does not change its
    rounding. *)
Lemma rne_scale (m k j : Z) :
  0 <= k -> 0 <= j -> rne (m * 2 ^ j) (k + j) = rne m k.
Proof.
  intros Hk Hj. unfold rne. cbv zeta.
  assert (HP : 0 < 2 ^ k) by (apply Z.pow_pos_nonneg; lia).
  assert (HJ : 0 < 2 ^ j) by (apply Z.pow_pos_nonneg; lia).
  rewrite Z.pow_add_r by lia.
  rewrite Z.div_mul_cancel_r, Z.mul_mod_distr_r by lia.
  set (P := 2 ^ k) in *. set (J := 2 ^ j) in *. set (r := m mod P).
  assert (H1 : (2 * (r * J) <? P * J) = (2 * r <? P)).
  { destruct (Z.ltb_spec (2 * r) P); [ apply Z.ltb_lt | apply Z.ltb_ge ]; nia. }
  assert (H2 : (P * J <? 2 * (r * J)) = (P <? 2 * r)).
  { destruct (Z.ltb_spec P (2 * r)); [ apply Z.ltb_lt | apply Z.ltb_ge ]; nia. }
  now rewrite H1, H2.
Qed.

Lemma binary_round_aux_exact (s : bool) (m : positive) (e : Z) :
  let e1 := fexp64 (Zpos (digits2_pos m) + e) in
  e <= e1 ->
  binary_round_aux 53 1024 s (Zpos m) e loc_Exact
  = finish s (rne (Zpos m) (e1 - e)) e1.
Proof.
  intros e1 He. rewrite binary_round_aux_finish. unfold shr_fexp.
  simpl Zdigits2. fold e1. clearbody e1.
  destruct (e1 - e) as [ | n | n ] eqn:Hn; [ | | lia ].
  - cbn [shr shr_record_of_loc shr_m loc_of_shr_record round_nearest_even].
    rewrite rne_zero. f_equal. lia.
  - cbn [shr shr_record_of_loc fst snd].
    rewrite (round_shifted n (Zpos m)) by lia. f_equal. lia.
Qed.

Lemma cut_in_binade (m : positive) (e : Z) :
  let e1 := fexp64 (Zpos (digits2_pos m) + e) in
  e <= e1 -> in_binade (Zpos m / 2 ^ (e1 - e)) e1.
Proof.
  intros e1 He. pose proof (digits2_pos_spec m) as [Dlo Dhi].
  assert (He1 : e1 = Z.max (Zpos (digits2_pos m) + e - 53) (-1074))
    by (unfold e1; apply fexp64_eq).
  clearbody e1. set (d := Zpos (digits2_pos m)) in *.
  assert (H2n : 0 < 2 ^ (e1 - e)) by (apply pow2_pos; lia).
  unfold in_binade.
  destruct (Z_le_gt_dec (-1074) (d + e - 53)).
  - left. assert (Hd : d = 53 + (e1 - e)) by lia.
    split; [ | lia ]. split.
    + apply Z.div_le_lower_bound; [ lia | ].
      replace (d - 1) with ((e1 - e) + 52) in Dlo by lia.
      rewrite Z.pow_add_r in Dlo by lia. lia.
    + apply Z.div_lt_upper_bound; [ lia | ].
      rewrite Hd, Z.pow_add_r in Dhi by lia. lia.
  - right. split; [ | lia ]. split.
    + apply Z.div_pos; lia.
    + apply Z.div_lt_upper_bound; [ lia | ].
      assert (2 ^ d <= 2 ^ ((e1 - e) + 52)) by (apply pow2_le; unfold d; lia).
      rewrite Z.pow_add_r in * by lia. lia.
Qed.

(** What [finish] returns for a mantissa that fits its binade. *)
Lemma finish_value (s : bool) (q m1 e1 : Z) :
  in_binade q e1 -> q <= m1 <= q + 1 ->
  finish s m1 e1
  = if m1 =? 0 then S754_zero s
    else if m1 <? 2 ^ 53
         then if e1 <=? 971 then S754_finite s (Z.to_pos m1) e1
              else S754_infinity s
         else if e1 + 1 <=? 971
              then S754_finite s (2 ^ 52)%positive (e1 + 1)
              else S754_infinity s.
Proof.
  intros Hq Hm1. unfold finish, emax, prec, shr_fexp.
  change (1024 - 53) with 971.
  destruct m1 as [ | p | p ]; [ | | unfold in_binade in Hq; lia ].
  - destruct Hq as [[Hq _] | [Hq ->]]; [ lia | ]. reflexivity.
  - change (Zpos p =? 0) with false. cbn iota.
    simpl Zdigits2. rewrite fexp64_eq. cbn [Z.to_pos].
    destruct Hq as [[Hq He1] | [Hq ->]].
    + destruct (Z.ltb_spec (Zpos p) (2 ^ 53)) as [Hlt | Hge].
      * assert (Hd : Zpos (digits2_pos p) = 53) by (apply digits2_pos_unique; lia).
        rewrite Hd. replace (Z.max (53 + e1 - 53) (-1074) - e1) with 0 by lia.
        cbn [shr shr_record_of_loc shr_m fst snd]. reflexivity.
      * assert (Hp : p = (2 ^ 53)%positive) by (apply Pos2Z.inj; lia).
        subst p. change (Zpos (digits2_pos (2 ^ 53))) with 54.
        replace (Z.max (54 + e1 - 53) (-1074) - e1) with 1 by lia.
        cbn -[Z.leb Z.add]. reflexivity.
    + assert (Hd : Zpos (digits2_pos p) <= 53) by (apply digits2_pos_le; lia).
      replace (Z.max (Zpos (digits2_pos p) + -1074 - 53) (-1074) - -1074)
        with 0 by lia.
      destruct (Z.ltb_spec (Zpos p) (2 ^ 53)); [ | lia ].
      cbn [shr shr_record_of_loc shr_m fst snd]. reflexivity.
Qed.

Lemma leb_finite (m : positive) (e : Z) (m' : positive) (e' : Z) :
  SFleb (S754_finite false m e) (S754_finite false m' e') = true
  <-> e < e' \/ (e = e' /\ Zpos m <= Zpos m').
Proof.
  unfold SFleb, SFcompare.
  change (Pos.compare_cont Eq m m') with (Pos.compare m m').
  destruct (Z.compare_spec e e'); [ | intuition lia | ].
  - destruct (Pos.compare_spec m m'); split; intro; try discriminate;
      try reflexivity; try lia.
  - split; intro; try discriminate; lia.
Qed.

(** Rounded values are ordered like the exponent of their binade and, in
    the same binade, like their mantissas. *)
Lemma finish_le (q m1 e1 q' m1' e1' : Z) :
  in_binade q e1 -> q <= m1 <= q + 1 ->
  in_binade q' e1' -> q' <= m1' <= q' + 1 ->
  e1 < e1' \/ (e1 = e1' /\ m1 <= m1') ->
  SFleb (finish false m1 e1) (finish false m1' e1') = true.
Proof.
  intros Hq Hm Hq' Hm' Hle.
  rewrite (finish_value false q m1 e1 Hq Hm).
  rewrite (finish_value false q' m1' e1' Hq' Hm').
  unfold in_binade in Hq, Hq'.
  destruct (Z.eqb_spec m1 0) as [-> | Hm0].
  - destruct (m1' =? 0); [ reflexivity | ].
    destruct (m1' <? 2 ^ 53); destruct (_ <=? 971); reflexivity.
  - destruct (Z.eqb_spec m1' 0) as [-> | Hm0']; [ exfalso; lia | ].
    destruct (Z.ltb_spec m1 (2 ^ 53)); destruct (Z.ltb_spec m1' (2 ^ 53));
      destruct (Z.leb_spec e1 971); destruct (Z.leb_spec e1' 971);
      destruct (Z.leb_spec (e1 + 1) 971); destruct (Z.leb_spec (e1' + 1) 971);
      try lia; try reflexivity;
      apply leb_finite; rewrite ?Z2Pos.id by lia;
      change (Zpos (2 ^ 52)) with (2 ^ 52); lia.
Qed.

Lemma rne_between (m k : Z) : m / 2 ^ k <= rne m k <= m / 2 ^ k + 1.
Proof. destruct (rne_cases m k) as [-> | ->]; lia. Qed.

Lemma value_le_at (c : Z) (m : positive) (e : Z) (m' : positive) (e' : Z) :
  c <= e -> c <= e' ->
  (value_le m e m' e' <-> Zpos m * 2 ^ (e - c) <= Zpos m' * 2 ^ (e' - c)).
Proof.
  intros Hc Hc'. unfold value_le. set (z := Z.min e e').
  assert (Hz : c <= z) by (unfold z; lia).
  replace (e - c) with ((e - z) + (z - c)) by lia.
  replace (e' - c) with ((e' - z) + (z - c)) by lia.
  rewrite !Z.pow_add_r by (unfold z; lia). rewrite !Z.mul_assoc.
  assert (0 < 2 ^ (z - c)) by (apply pow2_pos; lia).
  split; intro H0.
  - apply Z.mul_le_mono_nonneg_r; lia.
  - apply Z.mul_le_mono_pos_r in H0; lia.
Qed.

(** A larger value has at least as many bits. *)
Lemma value_le_digits (m : positive) (e : Z) (m' : positive) (e' : Z) :
  value_le m e m' e' ->
  Zpos (digits2_pos m) + e <= Zpos (digits2_pos m') + e'.
Proof.
  unfold value_le. set (z := Z.min e e'). intro H.
  pose proof (digits2_pos_spec m) as [Dlo _].
  pose proof (digits2_pos_spec m') as [_ Dhi'].
  assert (0 < 2 ^ (e - z)) by (apply pow2_pos; unfold z; lia).
  assert (0 < 2 ^ (e' - z)) by (apply pow2_pos; unfold z; lia).
  assert (Hlt : 2 ^ ((Zpos (digits2_pos m) - 1) + (e - z))
                < 2 ^ (Zpos (digits2_pos m') + (e' - z))).
  { rewrite !Z.pow_add_r by (unfold z; lia).
    apply Z.le_lt_trans with (Zpos m * 2 ^ (e - z)).
    - apply Z.mul_le_mono_nonneg_r; lia.
    - apply Z.le_lt_trans with (Zpos m' * 2 ^ (e' - z)); [ exact H | ].
      apply Z.mul_lt_mono_pos_r; lia. }
  apply Z.pow_lt_mono_r_iff in Hlt; unfold z in *; lia.
Qed.

(** [binary_round_aux] is monotone in the value it rounds. *)
Lemma binary_round_aux_mono (m : positive) (e : Z) (m' : positive) (e' : Z) :
  e <= fexp64 (Zpos (digits2_pos m) + e) ->
  e' <= fexp64 (Zpos (digits2_pos m') + e') ->
  value_le m e m' e' ->
  SFleb (binary_round_aux 53 1024 false (Zpos m) e loc_Exact)
        (binary_round_aux 53 1024 false (Zpos m') e' loc_Exact) = true.
Proof.
  intros He He' Hv.
  rewrite (binary_round_aux_exact false m e He).
  rewrite (binary_round_aux_exact false m' e' He').
  pose proof (cut_in_binade m e He) as Hb.
  pose proof (cut_in_binade m' e' He') as Hb'.
  pose proof (value_le_digits _ _ _ _ Hv) as Hd.
  cbv zeta in Hb, Hb'.
  set (e1 := fexp64 (Zpos (digits2_pos m) + e)) in *.
  set (e1' := fexp64 (Zpos (digits2_pos m') + e')) in *.
  assert (H1 : e1 <= e1') by (unfold e1, e1'; rewrite !fexp64_eq; lia).
  apply (finish_le _ _ _ _ _ _ Hb (rne_between _ _) Hb' (rne_between _ _)).
  destruct (Z.eq_dec e1 e1') as [Heq | Hne]; [ right | left; lia ].
  split; [ exact Heq | ]. rewrite <- Heq.
  set (c := Z.min e e').
  assert (Hc : c <= e /\ c <= e') by (unfold c; lia).
  rewrite <- (rne_scale (Zpos m) (e1 - e) (e - c)) by lia.
  rewrite <- (rne_scale (Zpos m') (e1 - e') (e' - c)) by lia.
  replace (e1 - e + (e - c)) with (e1 - c) by lia.
  replace (e1 - e' + (e' - c)) with (e1 - c) by lia.
  apply rne_mono; [ lia | ]. split.
  - apply Z.mul_nonneg_nonneg; [ lia | apply Z.pow_nonneg; lia ].
  - exact Hv.
Qed.

(** [binary_round] rounds, with [binary_round_aux], the same value written
    with a mantissa that is long enough. *)
Lemma binary_round_as_aux (s : bool) (m : positive) (e : Z) :
  exists mz ez,
    binary_round 53 1024 s m e = binary_round_aux 53 1024 s (Zpos mz) ez loc_Exact
    /\ ez <= fexp64 (Zpos (digits2_pos mz) + ez)
    /\ ez <= e /\ Zpos mz = Zpos m * 2 ^ (e - ez).
Proof.
  unfold binary_round, shl_align.
  set (e1 := fexp64 (Zpos (digits2_pos m) + e)).
  destruct (e1 - e) as [ | n | n ] eqn:Hn.
  - exists m, e. replace (e - e) with 0 by lia. fold e1.
    repeat split; try reflexivity; lia.
  - exists m, e. replace (e - e) with 0 by lia. fold e1.
    repeat split; try reflexivity; lia.
  - exists (Pos.iter xO m n), e1.
    pose proof (iter_xO m n) as Hm'.
    pose proof (digits2_pos_shift m (Zpos n) ltac:(lia) _ Hm') as Hd.
    rewrite Hd. replace (Zpos (digits2_pos m) + Zpos n + e1)
      with (Zpos (digits2_pos m) + e) by lia.
    fold e1. repeat split; try reflexivity; try lia.
    rewrite Hm'. f_equal. f_equal. lia.
Qed.

Lemma value_le_rewrite (m mz : positive) (e ez : Z) (m' mz' : positive)
    (e' ez' : Z) :
  ez <= e -> Zpos mz = Zpos m * 2 ^ (e - ez) ->
  ez' <= e' -> Zpos mz' = Zpos m' * 2 ^ (e' - ez') ->
  value_le m e m' e' -> value_le mz ez mz' ez'.
Proof.
  intros He Hm He' Hm' Hv.
  set (c := Z.min ez ez').
  assert (Hc : c <= ez /\ c <= ez') by (unfold c; lia).
  apply (value_le_at c) in Hv; [ | lia | lia ].
  apply (value_le_at c); [ lia | lia | ].
  rewrite Hm, Hm', <- !Z.mul_assoc, <- !Z.pow_add_r by lia.
  replace (e - ez + (ez - c)) with (e - c) by lia.
  replace (e' - ez' + (ez' - c)) with (e' - c) by lia.
  exact Hv.
Qed.

Lemma binary_round_mono (m : positive) (e : Z) (m' : positive) (e' : Z) :
  value_le m e m' e' ->
  SFleb (binary_round 53 1024 false m e) (binary_round 53 1024 false m' e')
  = true.
Proof.
  intro Hv.
  destruct (binary_round_as_aux false m e) as (mz & ez & -> & Hp & He & Hm).
  destruct (binary_round_as_aux false m' e') as (mz' & ez' & -> & Hp' & He' & Hm').
  apply binary_round_aux_mono; auto.
  eapply value_le_rewrite; eauto.
Qed.

(** Canonical floats are ordered like their values. *)
Lemma leb_value_le (m : positive) (e : Z) (m' : positive) (e' : Z) :
  bounded64 m e = true -> bounded64 m' e' = true ->
  SFleb (S754_finite false m e) (S754_finite false m' e') = true ->
  value_le m e m' e'.
Proof.
  intros Hb Hb' Hle. apply bounded_inv in Hb as [Hb _].
  apply bounded_inv in Hb' as [Hb' _]. apply leb_finite in Hle.
  unfold value_le.
  destruct Hle as [Hlt | [-> Hm]].
  - replace (Z.min e e') with e by lia. rewrite Z.sub_diag, Z.mul_1_r.
    assert (Hd : Zpos (digits2_pos m) <= 53) by lia.
    assert (Hd' : Zpos (digits2_pos m') = 53) by lia.
    pose proof (digits2_pos_spec m) as [_ Hhi].
    pose proof (digits2_pos_spec m') as [Hlo' _]. rewrite Hd' in Hlo'.
    assert (2 ^ Zpos (digits2_pos m) <= 2 ^ 53) by (apply pow2_le; lia).
    assert (2 ^ 1 <= 2 ^ (e' - e)) by (apply pow2_le; lia).
    change (2 ^ (53 - 1)) with (2 ^ 52) in Hlo'. change (2 ^ 1) with 2 in *.
    change (2 ^ 53) with (2 * 2 ^ 52) in *. nia.
  - rewrite Z.min_id, Z.sub_diag, !Z.mul_1_r. exact Hm.
Qed.

Lemma round_int_mono (n n' : Z) :
  1 <= n <= n' -> SFleb (round_int n) (round_int n') = true.
Proof.
  intro H. destruct n as [ | p | p ]; try lia. destruct n' as [ | p' | p' ]; try lia.
  unfold round_int, binary_normalize, prec, emax.
  apply binary_round_mono. unfold value_le.
  rewrite Z.min_id, Z.sub_diag, !Z.mul_1_r. lia.
Qed.

Lemma of_int_mono (n n' : Z) (f f' : float) :
  1 <= n <= n' -> of_int n = Some f -> of_int n' = Some f' ->
  SFleb f f' = true.
Proof.
  intros H Hf Hf'. pose proof (round_int_mono n n' H) as Hle.
  unfold of_int in Hf, Hf'.
  destruct (round_int n); try discriminate; injection Hf as <-;
    destruct (round_int n'); try discriminate; injection Hf' as <-; exact Hle.
Qed.

Lemma mul_fits (mx : positive) (ex : Z) (my : positive) (ey : Z) :
  bounded64 mx ex = true -> bounded64 my ey = true ->
  ex + ey <= fexp64 (Zpos (digits2_pos (mx * my)) + (ex + ey)).
Proof.
  intros Hx Hy. apply bounded_inv in Hx as [Hx _]. apply bounded_inv in Hy as [Hy _].
  rewrite fexp64_eq.
  pose proof (digits2_pos_spec mx) as [Xlo _]. pose proof (digits2_pos_spec my) as [Ylo _].
  assert (Hd : Zpos (digits2_pos mx) + Zpos (digits2_pos my) - 2
               < Zpos (digits2_pos (mx * my))).
  { apply digits2_pos_gt.
    replace (Zpos (digits2_pos mx) + Zpos (digits2_pos my) - 2)
      with ((Zpos (digits2_pos mx) - 1) + (Zpos (digits2_pos my) - 1)) by lia.
    rewrite Z.pow_add_r, Pos2Z.inj_mul by lia.
    assert (0 < 2 ^ (Zpos (digits2_pos mx) - 1)) by (apply pow2_pos; lia).
    assert (0 < 2 ^ (Zpos (digits2_pos my) - 1)) by (apply pow2_pos; lia).
    apply Z.mul_le_mono_nonneg; lia. }
  lia.
Qed.

(** Multiplying by a larger positive factor gives no less. *)
Lemma mul_mono_l (m : positive) (e : Z) (m' : positive) (e' : Z) (y : float) :
  bounded64 m e = true -> bounded64 m' e' = true ->
  SFleb (S754_finite false m e) (S754_finite false m' e') = true ->
  valid y = true -> nonneg y = true ->
  geb (mul (S754_finite false m' e') y) (mul (S754_finite false m e) y) = true.
Proof.
  intros Hb Hb' Hle Vy Hy. unfold geb.
  destruct y as [ sy | [ | ] | | [ | ] my ey ]; try discriminate; try reflexivity.
  unfold mul, prec, emax, SFmul. cbn [xorb].
  apply binary_round_aux_mono.
  - now apply mul_fits.
  - now apply mul_fits.
  - pose proof (leb_value_le _ _ _ _ Hb Hb' Hle) as Hv. unfold value_le in *.
      replace (Z.min (e + ey) (e' + ey)) with (Z.min e e' + ey) by lia.
      replace (e + ey - (Z.min e e' + ey)) with (e - Z.min e e') by lia.
      replace (e' + ey - (Z.min e e' + ey)) with (e' - Z.min e e') by lia.
      rewrite !Pos2Z.inj_mul.
      assert (0 <= 2 ^ (e - Z.min e e')) by (apply Z.pow_nonneg; lia).
      assert (0 <= 2 ^ (e' - Z.min e e')) by (apply Z.pow_nonneg; lia).
      nia.
Qed.

(** [1.0 * y] is [y]. *)
Lemma mul_one_l (y : float) :
  valid y = true -> mul (S754_finite false (2 ^ 52) (-52)) y = y.
Proof.
  intro Vy. destruct y as [ sy | sy | | sy my ey ]; try reflexivity.
  simpl in Vy. pose proof (bounded_inv _ _ Vy) as [Hc He].
  unfold mul, prec, emax, SFmul. cbn [xorb].
  assert (Hm : Zpos (2 ^ 52 * my) = Zpos my * 2 ^ 52) by lia.
  pose proof (digits2_pos_shift my 52 ltac:(lia) _ Hm) as Hd.
  pose proof (binary_round_aux_exact sy (2 ^ 52 * my) (-52 + ey)) as Hx.
  pose proof (cut_in_binade (2 ^ 52 * my) (-52 + ey)) as Hb.
  cbv zeta in Hx, Hb. rewrite Hd, fexp64_eq in Hx, Hb.
  replace (Z.max (Zpos (digits2_pos my) + 52 + (-52 + ey) - 53) (-1074))
    with ey in Hx, Hb by lia.
  replace (ey - (-52 + ey)) with 52 in Hx, Hb by lia.
  rewrite Hx by lia. specialize (Hb ltac:(lia)).
  assert (Hr : rne (Zpos (2 ^ 52 * my)) 52 = Zpos my).
  { unfold rne. cbv zeta. rewrite Hm, Z.mod_mul, Z.div_mul by (apply Z.pow_nonzero; lia).
    reflexivity. }
  rewrite Hm, Z.div_mul in Hb by (apply Z.pow_nonzero; lia).
  rewrite Hr, (finish_value sy (Zpos my) (Zpos my) ey Hb ltac:(lia)).
  change (Zpos my =? 0) with false. cbn iota.
  pose proof (digits2_pos_spec my) as [_ Hhi].
  assert (2 ^ Zpos (digits2_pos my) <= 2 ^ 53) by (apply pow2_le; lia).
  destruct (Z.ltb_spec (Zpos my) (2 ^ 53)); [ | lia ].
  destruct (Z.leb_spec ey 971); [ reflexivity | lia ].
Qed.

Lemma leb_trans (x y z : float) :
  nonneg x = true -> nonneg y = true -> nonneg z = true ->
  SFleb x y = true -> SFleb y z = true -> SFleb x z = true.
Proof.
  intros Hx Hy Hz Hxy Hyz.
  destruct x as [ sx | [ | ] | | [ | ] mx ex ]; try discriminate;
  destruct y as [ sy | [ | ] | | [ | ] my ey ]; try discriminate;
  destruct z as [ sz | [ | ] | | [ | ] mz ez ]; try discriminate;
    try reflexivity.
  apply leb_finite in Hxy, Hyz. apply leb_finite. lia.
Qed.

Lemma add_valid (x y : float) :
  valid x = true -> valid y = true -> nonneg x = true -> nonneg y = true ->
  valid (add x y) = true.
Proof.
  intros Vx Vy Hx Hy.
  destruct x as [ [ | ] | [ | ] | | [ | ] mx ex ]; try discriminate;
  destruct y as [ [ | ] | [ | ] | | [ | ] my ey ]; try discriminate;
    try reflexivity; try assumption.
  unfold add, SFadd. cbn [cond_Zopp]. cbn [Z.add binary_normalize].
  destruct (binary_round_rounded_ex false
              (fst (shl_align mx ex (Z.min ex ey)) + fst (shl_align my ey (Z.min ex ey)))
              (Z.min ex ey)) as [q Hq].
  eapply rounded_valid. exact Hq.
Qed.

(** Adding more to the same non-negative number gives no less. *)
Lemma add_mono_r (x y y' : float) :
  valid x = true -> nonneg x = true ->
  valid y = true -> nonneg y = true ->
  valid y' = true -> nonneg y' = true ->
  SFleb y y' = true -> geb (add x y') (add x y) = true.
Proof.
  intros Vx Hx Vy Hy Vy' Hy' Hle. unfold geb.
  destruct x as [ [ | ] | [ | ] | | [ | ] mx ex ]; try discriminate.
  - destruct y as [ [ | ] | [ | ] | | [ | ] my ey ]; try discriminate;
    destruct y' as [ [ | ] | [ | ] | | [ | ] my' ey' ]; try discriminate;
      try reflexivity; exact Hle.
  - destruct y as [ [ | ] | [ | ] | | [ | ] my ey ]; try discriminate;
    destruct y' as [ [ | ] | [ | ] | | [ | ] my' ey' ]; try discriminate;
      try reflexivity; exact Hle.
  - destruct y as [ sy | [ | ] | | [ | ] my ey ]; try discriminate;
    destruct y' as [ sy' | [ | ] | | [ | ] my' ey' ]; try discriminate;
      try reflexivity.
  - destruct y as [ sy | [ | ] | | [ | ] my ey ]; try discriminate.
    + (* x + 0 = x *)
      assert (E : add (S754_finite false mx ex) (S754_zero sy)
                  = S754_finite false mx ex) by (destruct sy; reflexivity).
      rewrite E. apply (add_ge_l mx ex y' Vx Hy').
    + destruct y' as [ sy' | [ | ] | | [ | ] my' ey' ]; try discriminate.
      reflexivity.
    + destruct y' as [ sy' | [ | ] | | [ | ] my' ey' ]; try discriminate.
      * (* the sum with an infinity *)
        change (add (S754_finite false mx ex) (S754_infinity false))
          with (S754_infinity false).
        pose proof (add_nonneg (S754_finite false mx ex) (S754_finite false my ey)
                      eq_refl eq_refl) as Hn.
        destruct (add (S754_finite false mx ex) (S754_finite false my ey))
          as [ ? | [ | ] | | [ | ] ? ? ]; try discriminate; reflexivity.
      * simpl in Vy, Vy'.
        pose proof (leb_value_le _ _ _ _ Vy Vy' Hle) as Hv.
        unfold add, prec, emax, SFadd. cbn [cond_Zopp].
        set (ez := Z.min ex ey). set (ez' := Z.min ex ey').
        pose proof (shl_align_fst mx ex ez ltac:(unfold ez; lia)) as Hax.
        pose proof (shl_align_fst my ey ez ltac:(unfold ez; lia)) as Hay.
        pose proof (shl_align_fst mx ex ez' ltac:(unfold ez'; lia)) as Hax'.
        pose proof (shl_align_fst my' ey' ez' ltac:(unfold ez'; lia)) as Hay'.
        set (ax := fst (shl_align mx ex ez)) in *.
        set (ay := fst (shl_align my ey ez)) in *.
        set (ax' := fst (shl_align mx ex ez')) in *.
        set (ay' := fst (shl_align my' ey' ez')) in *.
        change (Zpos ax + Zpos ay) with (Zpos (ax + ay)).
        change (Zpos ax' + Zpos ay') with (Zpos (ax' + ay')).
        cbn [binary_normalize]. apply binary_round_mono.
        set (c := Z.min ez ez').
        assert (Hc : c <= ez /\ c <= ez' /\ c <= ex /\ c <= ey /\ c <= ey')
          by (unfold c, ez, ez'; lia).
        apply (value_le_at c); [ lia | lia | ].
        apply (value_le_at c) in Hv; [ | lia | lia ].
        rewrite !Pos2Z.inj_add, Hax, Hay, Hax', Hay'.
        rewrite !Z.mul_add_distr_r, <- !Z.mul_assoc, <- !Z.pow_add_r
          by (unfold ez, ez' in *; lia).
        replace (ex - ez + (ez - c)) with (ex - c) by lia.
        replace (ey - ez + (ez - c)) with (ey - c) by lia.
        replace (ex - ez' + (ez' - c)) with (ex - c) by lia.
        replace (ey' - ez' + (ez' - c)) with (ey' - c) by lia.
        lia.
Qed.

Lemma fold_add_ge (ys : list float) (acc : float) :
  valid acc = true -> nonneg acc = true ->
  Forall (fun y => valid y = true /\ nonneg y = true) ys ->
  valid (fold_left add ys acc) = true
  /\ nonneg (fold_left add ys acc) = true
  /\ SFleb acc (fold_left add ys acc) = true.
Proof.
  intros Va Ha Hys. revert acc Va Ha.
  induction Hys as [ | y ys [Vy Hy] _ IH ]; intros acc Va Ha; cbn [fold_left].
  - repeat split; auto.
    destruct acc as [ ? | [ | ] | | [ | ] m e ]; try discriminate; try reflexivity.
    apply leb_refl_finite.
  - destruct (IH (add acc y) (add_valid _ _ Va Vy Ha Hy) (add_nonneg _ _ Ha Hy))
      as (V & N & L).
    repeat split; auto.
    apply (leb_trans acc (add acc y)); auto.
    + now apply add_nonneg.
    + apply (add_ge acc y Va Ha Hy).
Qed.

End Float64Order.

(** ** Prices grow with the stay and with the add-ons *)

Import Float64Order.

Lemma of_int_one : Float64.of_int 1 = Some (S754_finite false (2 ^ 52) (-52)).
Proof. reflexivity. Qed.

Lemma catalog_price_valid (c : list Location.t) (wanted : string)
    (l : Location.t) :
  Forall (fun l => Float64.valid (Location.price_per_night l) = true) c ->
  find (same_name wanted) c = Some l ->
  Float64.valid (Location.price_per_night l) = true.
Proof.
  intros Hc Hl. apply find_same_name in Hl as [Hin _].
  exact (proj1 (Forall_forall _ _) Hc l Hin).
Qed.

Lemma validated_price_nonneg (b : Booking.t) :
  Booking.validate b = true ->
  Float64.nonneg (Booking.price_per_night b) = true.
Proof.
  unfold Booking.validate. rewrite !geb_zero. intro H.
  repeat (apply andb_true_iff in H as [H ?]). assumption.
Qed.

(** X14.  The accommodation total is never below the nightly price, and
    for one night it is the nightly price itself. *)
Theorem one_night_is_the_price (w : world) (c : list Location.t)
    (p : BookingCreate.t) (b : Booking.t) :
  Forall (fun l => Float64.valid (Location.price_per_night l) = true) c ->
  In b (documents (calls w c p)) ->
  Float64.geb (Booking.accommodation_total b) (Booking.price_per_night b) = true
  /\ (Booking.nights b = 1 ->
      Booking.accommodation_total b = Booking.price_per_night b).
Proof.
  intros Hc Hb. apply documents_priced in Hb.
  destruct Hb as [l d1 d2 delta products n Hl _ _ _ Hn _ Hnf -> Hv].
  pose proof (catalog_price_valid _ _ _ Hc Hl) as Vp.
  pose proof (validated_price_nonneg _ Hv) as Np.
  cbn in Np |- *.
  destruct (of_int_finite _ _ Hn Hnf) as (m & e & -> & Hm).
  split.
  - rewrite <- (mul_one_l (Location.price_per_night l) Vp) at 2.
    apply mul_mono_l; auto.
    apply (of_int_mono 1 (Datetime.days delta)); [ lia | reflexivity | exact Hnf ].
  - intro H1. rewrite H1 in Hnf. rewrite of_int_one in Hnf.
    injection Hnf as <- <-. now apply mul_one_l.
Qed.

Lemma one_night_is_the_price_witness :
  Float64.geb (Booking.accommodation_total short_booking)
              (Booking.price_per_night short_booking) = true
  /\ (Booking.nights short_booking = 1 ->
      Booking.accommodation_total short_booking
      = Booking.price_per_night short_booking).
Proof.
  apply (one_night_is_the_price sample_world LOCATIONS short_request
           short_booking).
  - repeat constructor.
  - vm_compute. left. reflexivity.
Defined.

(** X15.  For the same location, a stay of more nights never has a smaller
    accommodation total. *)
Theorem more_nights_cost_no_less (w1 w2 : world) (c : list Location.t)
    (p1 p2 : BookingCreate.t) (b1 b2 : Booking.t) :
  Forall (fun l => Float64.valid (Location.price_per_night l) = true) c ->
  BookingCreate.location p1 = BookingCreate.location p2 ->
  In b1 (documents (calls w1 c p1)) ->
  In b2 (documents (calls w2 c p2)) ->
  Booking.nights b1 <= Booking.nights b2 ->
  Float64.geb (Booking.accommodation_total b2)
              (Booking.accommodation_total b1) = true.
Proof.
  intros Hc Hloc H1 H2. apply documents_priced in H1, H2.
  destruct H1 as [l1 ? ? delta1 products1 n1 Hl1 _ _ _ Hd1 _ Hn1 -> Hv1].
  destruct H2 as [l2 ? ? delta2 products2 n2 Hl2 _ _ _ Hd2 _ Hn2 -> Hv2].
  rewrite <- Hloc in Hl2. rewrite Hl1 in Hl2. injection Hl2 as <-.
  pose proof (catalog_price_valid _ _ _ Hc Hl1) as Vp.
  pose proof (validated_price_nonneg _ Hv1) as Np.
  cbn in Np |- *. intro Hle.
  pose proof (of_int_mono _ _ _ _ (conj Hd1 Hle) Hn1 Hn2) as Hnn.
  destruct (of_int_finite _ _ Hd1 Hn1) as (m1 & e1 & -> & Hm1).
  destruct (of_int_finite _ _ Hd2 Hn2) as (m2 & e2 & -> & Hm2).
  now apply mul_mono_l.
Qed.

Lemma more_nights_cost_no_less_witness :
  Float64.geb (Booking.accommodation_total long_booking)
              (Booking.accommodation_total sample_booking) = true.
Proof.
  apply (more_nights_cost_no_less sample_world sample_world LOCATIONS
           chennai_request long_request sample_booking long_booking).
  - repeat constructor.
  - reflexivity.
  - vm_compute. left. reflexivity.
  - vm_compute. left. reflexivity.
  - simpl. lia.
Defined.

Lemma line_total_valid (item : OrderedItem.t) (x : float) :
  OrderedItem.validate item = true ->
  Float64.valid (OrderedItem.price item) = true ->
  line_total item = Some x -> Float64.valid x = true.
Proof.
  intros Hv Vp Hx. apply item_nonneg in Hv as [_ Hq]. unfold line_total in Hx.
  destruct (Float64.of_int (OrderedItem.quantity item)) as [q | ] eqn:Hq';
    [ | discriminate ].
  injection Hx as <-. destruct (of_int_finite _ _ Hq Hq') as (m & e & -> & Hm).
  now apply mul_valid.
Qed.

Lemma line_totals_app (xs ys : list OrderedItem.t) (products : list float) :
  line_totals (xs ++ ys) = Some products ->
  exists px py, line_totals xs = Some px /\ line_totals ys = Some py
                /\ products = px ++ py.
Proof.
  revert products. induction xs as [ | x xs IH ]; intros products H.
  - exists [], products. auto.
  - cbn [app line_totals] in H |- *.
    destruct (line_total x) as [v | ]; [ | discriminate ].
    destruct (line_totals (xs ++ ys)) as [rest | ] eqn:Hrest; [ | discriminate ].
    injection H as <-. destruct (IH rest eq_refl) as (px & py & -> & Hy & ->).
    exists (v :: px), py. auto.
Qed.

Lemma line_totals_good (items : list OrderedItem.t) (products : list float) :
  forallb OrderedItem.validate items = true ->
  Forall (fun item => Float64.valid (OrderedItem.price item) = true) items ->
  line_totals items = Some products ->
  Forall (fun x => Float64.valid x = true /\ Float64.nonneg x = true) products.
Proof.
  intros Hv Hp. revert products.
  induction Hp as [ | item items Hi _ IH ]; intros products H.
  - injection H as <-. constructor.
  - cbn [forallb line_totals] in Hv, H. apply andb_true_iff in Hv as [Hvi Hv].
    destruct (line_total item) as [x | ] eqn:Hx; [ | discriminate ].
    destruct (line_totals items) as [xs | ]; [ | discriminate ].
    injection H as <-. constructor; [ | auto ]. split.
    + eapply line_total_valid; eauto.
    + eapply line_total_nonneg; eauto.
Qed.

(** X16.  A request with more add-ons at the end of its list, everything
    else the same, never gets a smaller restaurant total or a smaller total
    amount, and its accommodation total is the same. *)
Theorem more_addons_cost_no_less (w : world) (c : list Location.t)
    (p : BookingCreate.t) (more : list OrderedItem.t) (b b' : Booking.t) :
  Forall (fun l => Float64.valid (Location.price_per_night l) = true) c ->
  BookingCreate.validate (add_addons p more) = true ->
  Forall (fun item => Float64.valid (OrderedItem.price item) = true)
         (BookingCreate.restaurant_addons (add_addons p more)) ->
  In b (documents (calls w c p)) ->
  In b' (documents (calls w c (add_addons p more))) ->
  Booking.accommodation_total b' = Booking.accommodation_total b
  /\ Float64.geb (Booking.restaurant_total b') (Booking.restaurant_total b)
     = true
  /\ Float64.geb (Booking.total_amount b') (Booking.total_amount b) = true.
Proof.
  intros Hc Hv Hp H H'. apply documents_priced in H, H'.
  destruct H as [l d1 d2 delta products n Hl H1 H2 H3 Hn Hprod Hnf -> Hvb].
  destruct H' as [l' d1' d2' delta' products' n' Hl' H1' H2' H3' _ Hprod' Hnf' -> Hvb'].
  cbn [add_addons BookingCreate.location BookingCreate.check_in_date
       BookingCreate.check_out_date BookingCreate.restaurant_addons] in *.
  rewrite Hl in Hl'. injection Hl' as <-.
  rewrite H1 in H1'. injection H1' as <-. rewrite H2 in H2'. injection H2' as <-.
  rewrite H3 in H3'. injection H3' as <-. rewrite Hnf in Hnf'. injection Hnf' as <-.
  destruct (line_totals_app _ _ _ Hprod') as (px & py & Hpx & Hpy & ->).
  rewrite Hprod in Hpx. injection Hpx as <-.
  unfold BookingCreate.validate in Hv. cbn [BookingCreate.restaurant_addons add_addons] in Hv.
  pose proof (line_totals_good _ _ Hv Hp Hprod') as Hgood.
  apply Forall_app in Hgood as [Gx Gy].
  pose proof (catalog_price_valid _ _ _ Hc Hl) as Vp.
  destruct (of_int_finite _ _ Hn Hnf) as (m & e & -> & Hm).
  assert (Vacc : Float64.valid (Float64.mul (S754_finite false m e)
                                  (Location.price_per_night l)) = true)
    by (now apply mul_valid).
  assert (Nacc : Float64.nonneg (Float64.mul (S754_finite false m e)
                                   (Location.price_per_night l)) = true).
  { unfold Booking.validate in Hvb. cbn in Hvb. rewrite !geb_zero in Hvb.
    repeat (apply andb_true_iff in Hvb as [Hvb ?]). assumption. }
  destruct (fold_add_ge products Float64.zero eq_refl eq_refl Gx) as (V1 & N1 & _).
  fold (sum products) in V1, N1.
  destruct (fold_add_ge py (sum products) V1 N1 Gy) as (V2 & N2 & L2).
  assert (Hsum : sum (products ++ py) = fold_left Float64.add py (sum products))
    by (unfold sum; apply fold_left_app).
  cbn. rewrite Hsum. split; [ reflexivity | ]. split.
  - exact L2.
  - now apply add_mono_r.
Qed.

Lemma more_addons_cost_no_less_witness :
  Booking.accommodation_total other_booking_coffee
  = Booking.accommodation_total other_booking
  /\ Float64.geb (Booking.restaurant_total other_booking_coffee)
                 (Booking.restaurant_total other_booking) = true
  /\ Float64.geb (Booking.total_amount other_booking_coffee)
                 (Booking.total_amount other_booking) = true.
Proof.
  apply (more_addons_cost_no_less sample_world LOCATIONS other_request [coffee]
           other_booking other_booking_coffee).
  - repeat constructor.
  - reflexivity.
  - repeat constructor.
  - vm_compute. left. reflexivity.
  - vm_compute. left. reflexivity.
Defined.

(** ** Times of day, offsets and very large quantities *)

Lemma steps_after_dates (w : world) (c : list Location.t)
    (p : BookingCreate.t) (l : Location.t) (d1 d2 : Datetime.datetime) :
  find (same_name (BookingCreate.location p)) c = Some l ->
  fromisoformat w (BookingCreate.check_in_date p) = Some d1 ->
  fromisoformat w (BookingCreate.check_out_date p) = Some d2 ->
  match Datetime.sub d2 d1 with
  | None => steps w c p = (Raise TypeError, [])
  | Some t =>
      Datetime.days t < 1 -> steps w c p = (Raise InvalidDateRange, [])
  end.
Proof.
  intros Hl H1 H2. unfold steps. rewrite Hl, H1, H2.
  destruct (Datetime.sub d2 d1) as [t | ]; [ | reflexivity ].
  intro Ht. destruct (Z.ltb_spec (Datetime.days t) 1); [ reflexivity | lia ].
Qed.

(** X17.  What counts is the time between the two parsed values, not their
    calendar dates: when check-out is less than 24 hours after check-in the
    request is answered with [InvalidDateRange], and from 24 hours on the
    number of nights is the number of full days. *)
Theorem stay_needs_a_full_day (w : world) (c : list Location.t)
    (p : BookingCreate.t) (d1 d2 : Datetime.datetime)
    (t : Datetime.timedelta) :
  (exists l, In l c /\ Location.name l = BookingCreate.location p) ->
  fromisoformat w (BookingCreate.check_in_date p) = Some d1 ->
  fromisoformat w (BookingCreate.check_out_date p) = Some d2 ->
  Datetime.sub d2 d1 = Some t ->
  (t < 86400000000 ->
   outcome w c p = Raise InvalidDateRange /\ calls w c p = [])
  /\ (86400000000 <= t ->
      outcome w c p <> Raise InvalidDateRange
      /\ stay w p = Some (t / 86400000000) /\ 1 <= t / 86400000000).
Proof.
  intros Hl H1 H2 H3. apply find_some_iff in Hl as [l Hl].
  assert (Hs : stay w p = Some (t / 86400000000)).
  { unfold stay. rewrite H1, H2, H3. reflexivity. }
  split; intro Ht.
  - pose proof (steps_after_dates w c p l d1 d2 Hl H1 H2) as H.
    rewrite H3 in H. rewrite outcome_steps, calls_steps.
    rewrite H; [ auto | ].
    unfold Datetime.days. apply Z.div_lt_upper_bound; lia.
  - assert (Hn : 1 <= t / 86400000000)
      by (apply Z.div_le_lower_bound; lia).
    split; [ | auto ]. intro Ho.
    apply outcome_invalid_date_range in Ho as (l' & n & _ & Hs' & Hn').
    rewrite Hs in Hs'. injection Hs' as <-. lia.
Qed.

Lemma stay_needs_a_full_day_witness :
  outcome clock_world LOCATIONS evening_request = Raise InvalidDateRange
  /\ calls clock_world LOCATIONS evening_request = [].
Proof.
  apply (proj1 (stay_needs_a_full_day clock_world LOCATIONS evening_request
                  {| Datetime.year := 2024; Datetime.month := 1;
                     Datetime.day := 1; Datetime.hour := 23;
                     Datetime.minute := 0; Datetime.second := 0;
                     Datetime.microsecond := 0; Datetime.tzinfo := None |}
                  {| Datetime.year := 2024; Datetime.month := 1;
                     Datetime.day := 2; Datetime.hour := 1;
                     Datetime.minute := 0; Datetime.second := 0;
                     Datetime.microsecond := 0; Datetime.tzinfo := None |}
                  7200000000
                  (ex_intro _ _ (conj (or_introl eq_refl) eq_refl))
                  eq_refl eq_refl eq_refl)).
  reflexivity.
Defined.

(** X18.  When one of the two parsed values carries a UTC offset and the
    other does not, the request fails with the [TypeError] of the
    subtraction, which is not a client error, and nothing is written. *)
Theorem mixed_offsets_fail (w : world) (c : list Location.t)
    (p : BookingCreate.t) (d1 d2 : Datetime.datetime) :
  (exists l, In l c /\ Location.name l = BookingCreate.location p) ->
  fromisoformat w (BookingCreate.check_in_date p) = Some d1 ->
  fromisoformat w (BookingCreate.check_out_date p) = Some d2 ->
  (Datetime.tzinfo d1 = None <-> Datetime.tzinfo d2 <> None) ->
  outcome w c p = Raise TypeError /\ calls w c p = []
  /\ stay w p = None.
Proof.
  intros Hl H1 H2 Hmix. apply find_some_iff in Hl as [l Hl].
  assert (H3 : Datetime.sub d2 d1 = None).
  { unfold Datetime.sub.
    destruct (Datetime.tzinfo d1) as [o1 | ], (Datetime.tzinfo d2) as [o2 | ];
      try reflexivity; exfalso.
    - destruct Hmix as [_ Hmix].
      assert (E : Some o1 = None) by (apply Hmix; discriminate).
      discriminate E.
    - destruct Hmix as [Hmix _]. now apply Hmix. }
  pose proof (steps_after_dates w c p l d1 d2 Hl H1 H2) as H.
  rewrite H3 in H. rewrite outcome_steps, calls_steps, H.
  repeat split. unfold stay. now rewrite H1, H2, H3.
Qed.

Lemma mixed_offsets_fail_witness :
  outcome clock_world LOCATIONS mixed_request = Raise TypeError
  /\ calls clock_world LOCATIONS mixed_request = []
  /\ stay clock_world mixed_request = None.
Proof.
  apply (mixed_offsets_fail clock_world LOCATIONS mixed_request
           {| Datetime.year := 2024; Datetime.month := 1; Datetime.day := 1;
              Datetime.hour := 0; Datetime.minute := 0; Datetime.second := 0;
              Datetime.microsecond := 0; Datetime.tzinfo := None |}
           {| Datetime.year := 2024; Datetime.month := 1; Datetime.day := 4;
              Datetime.hour := 0; Datetime.minute := 0; Datetime.second := 0;
              Datetime.microsecond := 0; Datetime.tzinfo := Some 0 |}).
  - eexists. split; [ left; reflexivity | reflexivity ].
  - reflexivity.
  - reflexivity.
  - split; intro H; [ discriminate | reflexivity ].
Defined.

Lemma of_int_overflows (z : Z) : 2 ^ 1024 <= z -> Float64.of_int z = None.
Proof.
  intro Hz. assert (0 < 2 ^ 1024) by (apply Z.pow_pos_nonneg; lia).
  destruct z as [ | p | p ]; try lia.
  unfold Float64.of_int, Float64.round_int, binary_normalize,
    Float64.prec, Float64.emax.
  destruct (binary_round_rounded_ex false p 0) as [q Hq].
  pose proof (digits2_pos_gt p 1024 Hz) as Hd.
  rewrite fexp64_eq in Hq.
  remember (binary_round 53 1024 false p 0) as r eqn:Hr. clear Hr.
  destruct Hq as [ Hq0 He1 | Hinf | m' Hb Hm' | m' Hb ].
  - lia.
  - reflexivity.
  - apply bounded_inv in Hb. lia.
  - apply bounded_inv in Hb. lia.
Qed.

Lemma line_totals_overflow (items : list OrderedItem.t) :
  Exists (fun item => 2 ^ 1024 <= OrderedItem.quantity item) items ->
  line_totals items = None.
Proof.
  induction 1 as [ item items Hi | item items _ IH ]; cbn [line_totals].
  - unfold line_total. now rewrite (of_int_overflows _ Hi).
  - destruct (line_total item); [ now rewrite IH | reflexivity ].
Qed.

(** X19.  An add-on quantity of [2^1024] or more cannot be converted to a
    float: a request with one, for a catalog location and dates that give
    at least one night, fails with [OverflowError], and nothing is written,
    whatever the prices are. *)
Theorem huge_quantity_overflows (w : world) (c : list Location.t)
    (p : BookingCreate.t) (n : Z) :
  (exists l, In l c /\ Location.name l = BookingCreate.location p) ->
  stay w p = Some n -> 1 <= n ->
  Exists (fun item => 2 ^ 1024 <= OrderedItem.quantity item)
         (BookingCreate.restaurant_addons p) ->
  outcome w c p = Raise OverflowError /\ calls w c p = [].
Proof.
  intros Hl Hs Hn Hq. apply find_some_iff in Hl as [l Hl].
  apply line_totals_overflow in Hq.
  rewrite outcome_steps, calls_steps. unfold steps. unfold stay in Hs.
  rewrite Hl.
  destruct (fromisoformat w (BookingCreate.check_in_date p)); [ | discriminate ].
  destruct (fromisoformat w (BookingCreate.check_out_date p)); [ | discriminate ].
  destruct (Datetime.sub _ _) as [delta | ]; [ | discriminate ].
  cbn in Hs. injection Hs as <-.
  destruct (Z.ltb_spec (Datetime.days delta) 1); [ lia | ].
  rewrite Hq. auto.
Qed.

Lemma huge_quantity_overflows_witness :
  outcome sample_world LOCATIONS huge_request = Raise OverflowError
  /\ calls sample_world LOCATIONS huge_request = [].
Proof.
  apply (huge_quantity_overflows sample_world LOCATIONS huge_request 3).
  - eexists. split; [ left; reflexivity | reflexivity ].
  - reflexivity.
  - lia.
  - left. cbn. reflexivity.
Defined.

(** ** The schema of what is written *)

(** X20.  Every record handed to the store meets the [Booking] schema,
    whatever the catalog and the request hold: at least one night, and a
    nightly price, an accommodation total and a total amount that are
    numbers and not below zero. *)
Theorem written_record_meets_schema (w : world) (c : list Location.t)
    (p : BookingCreate.t) (b : Booking.t) :
  In b (documents (calls w c p)) ->
  1 <= Booking.nights b
  /\ Float64.geb (Booking.price_per_night b) Float64.zero = true
  /\ Float64.geb (Booking.accommodation_total b) Float64.zero = true
  /\ Float64.geb (Booking.total_amount b) Float64.zero = true
  /\ Booking.price_per_night b <> S754_nan
  /\ Booking.accommodation_total b <> S754_nan
  /\ Booking.total_amount b <> S754_nan.
Proof.
  intro Hb. apply documents_priced in Hb.
  destruct Hb as [l d1 d2 delta products n _ _ _ _ Hn _ _ -> Hv].
  unfold Booking.validate in Hv.
  apply andb_true_iff in Hv as [Hv H4]. apply andb_true_iff in Hv as [Hv H3].
  apply andb_true_iff in Hv as [H1 H2]. apply Z.leb_le in H1.
  repeat split; auto; intro E; rewrite E in *; discriminate.
Qed.

Lemma written_record_meets_schema_witness :
  1 <= Booking.nights sample_booking
  /\ Float64.geb (Booking.price_per_night sample_booking) Float64.zero = true
  /\ Float64.geb (Booking.accommodation_total sample_booking) Float64.zero = true
  /\ Float64.geb (Booking.total_amount sample_booking) Float64.zero = true
  /\ Booking.price_per_night sample_booking <> S754_nan
  /\ Booking.accommodation_total sample_booking <> S754_nan
  /\ Booking.total_amount sample_booking <> S754_nan.
Proof.
  apply (written_record_meets_schema sample_world LOCATIONS chennai_request
           sample_booking).
  vm_compute. left. reflexivity.
Defined.
